(** * typehere.app: the note store, the suggestion engine and the command
    palette of [src/App.tsx], embedded as executable Rocq definitions.

    Conventions of the embedding.
    - A JavaScript string is a [string].  The embedding is exact on ASCII
      text, one character per code unit; a character outside ASCII stands in
      as the bytes of its UTF-8 encoding.
    - [undefined] (a note without workspace) and [null] (the "all notes"
      filter) are both [None]; the places where the source compares the two
      with [===] are written out, because [undefined !== null].
    - A React state variable is a field of [State].  An event handler reads
      the state of the render it closes over and queues updates; the updates
      of one handler are applied together, so a handler is a function from
      the state it closes over to the next state.
    - Arrays are lists.  Where the source mutates an array or a note object
      that the state still refers to (the in-place [sort] of [sortNotes],
      [n.updatedAt = ...], [currentNote.workspace = ...], [pop]), the
      embedding updates the corresponding field of the state.
    - [usePersistentState] writes [localStorage] and then sets the state; the
      embedding assumes the write succeeds.
    - A render follows every handler.  React leaves the render out when
      the handler changed no state variable (the unlink action under the
      "all" filter: an assignment in place and the same array stored
      again); until the next render the handlers of the source hold the
      rows of the last render, where those of the embedding read
      [cmdKSuggestions] of the state.  A property about the row a handler
      commits is stated for the row itself ([commitRow]) where that
      matters.
    - The body of a [useMemo] is a function of the values it reads
      ([workspaceNotesOf], [availableWorkspacesOf], [cmdKSuggestionsOf]).
      React computes a memo anew only when a dependency is another object
      than at the last render.  [cmdKSuggestions] depends on functions that
      every render creates: it is taken anew from the state.
      [workspaceNotes] depends on the array and on the filter, and the
      filter changes whenever an assignment in place changes which notes
      belong to it: its members are taken anew from the state, in the order
      of the store (see [renderedWorkspaceNotes] for the order the effects
      see).  [availableWorkspaces] depends on the [database] array alone,
      which several handlers change in place and store again: its value is
      a field of [State], computed anew by the render that follows a
      handler that stored another array ([databaseReplaced]).
    - One clock reading, [now], and one random id, [rid], per event.
    - The clock, the random id generator, the date parser, the fuzzy matcher
      (fuse.js) and the compressor (lz-string) are not code of this
      repository: their results are inputs of the model. *)

From Stdlib Require Import List String Ascii ZArith Bool Lia Arith.
From Stdlib Require Import Permutation Sorted.
From Stdlib Require QArith.
Import ListNotations.
Local Open Scope string_scope.
Local Open Scope Z_scope.

Set Implicit Arguments.

(** ** JavaScript values used by the component *)

Module Js.

(** A JavaScript number that is used as an array index: an integer, or the
    [NaN] that [x % 0] produces. *)
Inductive number : Type :=
| Num (z : Z)
| NaN.

(** [a + b], [a - b] with an integer right operand. *)
Definition addz (a : number) (k : Z) : number :=
  match a with Num z => Num (z + k) | NaN => NaN end.

(** [a % b] with an integer right operand: the remainder has the sign of the
    dividend, and a zero divisor gives [NaN]. *)
Definition remz (a : number) (k : Z) : number :=
  match a with
  | Num z => if Z.eqb k 0 then NaN else Num (Z.rem z k)
  | NaN => NaN
  end.

(** [Math.max(a, k)]. *)
Definition maxz (a : number) (k : Z) : number :=
  match a with Num z => Num (Z.max z k) | NaN => NaN end.

(** [arr[i]]: [undefined] (here [None]) unless [i] is an integer index inside
    the array. *)
Definition index {A : Type} (arr : list A) (i : number) : option A :=
  match i with
  | Num z => if Z.ltb z 0 then None else nth_error arr (Z.to_nat z)
  | NaN => None
  end.

(** Truthiness of a string: the empty string is falsy. *)
Definition truthy (s : string) : bool :=
  match s with EmptyString => false | String _ _ => true end.

(** The ASCII white space removed by [String.prototype.trim]: TAB, LF, VT,
    FF, CR and SPACE.  [trim] removes the white space outside ASCII too
    (the no-break space, the byte order mark, the Unicode spaces and line
    separators): [trim] below is [String.prototype.trim] on ASCII text. *)
Definition is_space (c : ascii) : bool :=
  let n := nat_of_ascii c in
  (Nat.leb 9 n && Nat.leb n 13) || Nat.eqb n 32.

Fixpoint trimStart (s : string) : string :=
  match s with
  | EmptyString => EmptyString
  | String c r => if is_space c then trimStart r else s
  end.

(** Drops the trailing white space: a character is kept when something
    that is kept follows it, or when it is not white space. *)
Fixpoint trimEnd (s : string) : string :=
  match s with
  | EmptyString => EmptyString
  | String c r =>
      match trimEnd r with
      | EmptyString => if is_space c then EmptyString else String c EmptyString
      | r' => String c r'
      end
  end.

Definition trim (s : string) : string := trimEnd (trimStart s).

(** [s.slice(0, k)] for [k >= 0], on ASCII text, where a character is one
    code unit. *)
Fixpoint slice0 (k : nat) (s : string) : string :=
  match k, s with
  | O, _ => EmptyString
  | _, EmptyString => EmptyString
  | S k', String c r => String c (slice0 k' r)
  end.

(** [s.includes(p)]. *)
Fixpoint includes (s p : string) : bool :=
  if String.prefix p s then true
  else match s with
       | EmptyString => false
       | String _ r => includes r p
       end.

End Js.

(** ** Data model *)

(** [type Note]. *)
Record Note : Type := mkNote {
  id : string;
  content : string;
  updatedAt : string;
  workspace : option string
}.

Definition set_updatedAt (t : string) (n : Note) : Note :=
  mkNote (id n) (content n) t (workspace n).

Definition set_workspace (w : option string) (n : Note) : Note :=
  mkNote (id n) (content n) (updatedAt n) w.

Definition option_string_eqb (a b : option string) : bool :=
  match a, b with
  | Some x, Some y => String.eqb x y
  | None, None => true
  | _, _ => false
  end.

(** [n.workspace === currentWorkspace], where [n.workspace] is
    [string | undefined] and [currentWorkspace] is [string | null]:
    [undefined === null] is false, so no note matches the "all" filter. *)
Definition workspace_is (w : option string) (currentWorkspace : option string)
  : bool :=
  match currentWorkspace, w with
  | Some c, Some x => String.eqb x c
  | _, _ => false
  end.

(** Options of a [Fuse] index: the key that is searched and the threshold. *)
Record FuseOptions (A : Type) : Type := mkFuseOptions {
  keys : A -> string;
  threshold : QArith_base.Q
}.

(** What the component takes from its platform: [new Date(s).getTime()] for
    the time stamps it stores (written by [toISOString], so the result is a
    number), and [new Fuse(list, options).search(query)] followed by
    [.map(result => result.item)], the matches in rank order. *)
Class Platform : Type := {
  Date_getTime : string -> Z;
  Fuse_search : forall A : Type, FuseOptions A -> list A -> string -> list A
}.

(** A platform to run the model with.  The matcher gives the items whose
    key contains the query, in index order (the order fuse.js gives to
    matches of equal score).  The clock reads a time stamp as the number
    that its digits spell: on the strings that [toISOString] writes
    ([2024-01-02T09:00:00.000Z], fixed width, most significant field first)
    this number grows with the time, and [sortNotes] uses nothing but the
    order of the times. *)
Fixpoint digits_value (acc : Z) (s : string) : Z :=
  match s with
  | EmptyString => acc
  | String c r =>
      let n := nat_of_ascii c in
      if Nat.leb 48 n && Nat.leb n 57
      then digits_value (10 * acc + (Z.of_nat n - 48)) r
      else digits_value acc r
  end.

Definition substring_search (A : Type) (o : FuseOptions A) (l : list A)
  (q : string) : list A :=
  filter (fun a => Js.includes (keys o a) q) l.

Definition simple_platform : Platform :=
  {| Date_getTime := digits_value 0; Fuse_search := substring_search |}.

(** ** The note store *)

Section Store.

Context {P : Platform}.

(** The comparator of [sortNotes] puts [a] before [b] when [a] is more
    recent.  [Array.prototype.sort] is stable, so on a list of notes whose
    time stamps parse, [sortNotes] is the stable insertion of each note into
    the sorted rest. *)
Definition newer (a b : Note) : bool :=
  Z.ltb (Date_getTime (updatedAt b)) (Date_getTime (updatedAt a)).

Fixpoint insertNote (x : Note) (l : list Note) : list Note :=
  match l with
  | [] => [x]
  | y :: r => if newer y x then y :: insertNote x r else x :: l
  end.

Fixpoint sortNotes (notes : list Note) : list Note :=
  match notes with
  | [] => []
  | x :: r => insertNote x (sortNotes r)
  end.

(** [database.find((note) => note.id === noteId)]. *)
Definition findNote (noteId : string) (db : list Note) : option Note :=
  find (fun n => String.eqb (id n) noteId) db.

(** An assignment to a field of the object [database.find(...)] returned:
    the first note with that id changes, inside the array. *)
Fixpoint updateNote (noteId : string) (f : Note -> Note) (db : list Note)
  : list Note :=
  match db with
  | [] => []
  | n :: r => if String.eqb (id n) noteId then f n :: r
              else n :: updateNote noteId f r
  end.

(** [workspaceNotes]. *)
Definition workspaceNotesOf (db : list Note) (currentWorkspace : option string)
  : list Note :=
  match currentWorkspace with
  | None => db
  | Some _ => filter (fun n => workspace_is (workspace n) currentWorkspace) db
  end.

(** The loop of [availableWorkspaces]: [seen] is the set [seenWorkspaces],
    the result is what is pushed on [allWorkspaces], in order. *)
Fixpoint collectWorkspaces (seen : list string) (notes : list Note)
  : list string :=
  match notes with
  | [] => []
  | n :: r =>
      match workspace n with
      | Some w =>
          if negb (Js.truthy w) || existsb (String.eqb w) seen
          then collectWorkspaces seen r
          else w :: collectWorkspaces (w :: seen) r
      | None => collectWorkspaces seen r
      end
  end.

(** The body of the [availableWorkspaces] memo: it sorts a copy of the
    database. *)
Definition availableWorkspacesOf (db : list Note) : list string :=
  collectWorkspaces [] (sortNotes db).

(** The body of the [navigableWorkspaces] memo,
    [[null, ...availableWorkspaces]]. *)
Definition navigableWorkspacesOf (availableWorkspaces : list string)
  : list (option string) :=
  None :: map Some availableWorkspaces.

End Store.

(** ** Application state *)

(** The [useState] and [usePersistentState] variables of [App] that the
    palette reads or writes, and the value of the [availableWorkspaces]
    memo.  [databaseReplaced] tells that a handler stored an array that is
    not the one this memo was computed from. *)
Record State : Type := mkState {
  database : list Note;
  currentWorkspace : option string;
  currentNoteId : string;
  textValue : string;
  selectedCmdKSuggestionIndex : Js.number;
  cmdKSearchQuery : string;
  isCmdKMenuOpen : bool;
  hasVimNavigated : bool;
  isHelpMenuOpen : bool;
  freshlyDeletedNotes : list Note;
  availableWorkspaces : list string;
  databaseReplaced : bool
}.

(** [setDatabase(newArray)]: another array than the one of the last
    render. *)
Definition setDatabase (v : list Note) (s : State) : State :=
  mkState v (currentWorkspace s) (currentNoteId s) (textValue s)
    (selectedCmdKSuggestionIndex s) (cmdKSearchQuery s) (isCmdKMenuOpen s)
    (hasVimNavigated s) (isHelpMenuOpen s) (freshlyDeletedNotes s)
    (availableWorkspaces s) true.

(** [setDatabase(database)]: the array of the last render, with the content
    [v] that assignments and sorts in place gave it. *)
Definition setDatabaseSame (v : list Note) (s : State) : State :=
  mkState v (currentWorkspace s) (currentNoteId s) (textValue s)
    (selectedCmdKSuggestionIndex s) (cmdKSearchQuery s) (isCmdKMenuOpen s)
    (hasVimNavigated s) (isHelpMenuOpen s) (freshlyDeletedNotes s)
    (availableWorkspaces s) false.

Definition setCurrentWorkspace (v : option string) (s : State) : State :=
  mkState (database s) v (currentNoteId s) (textValue s)
    (selectedCmdKSuggestionIndex s) (cmdKSearchQuery s) (isCmdKMenuOpen s)
    (hasVimNavigated s) (isHelpMenuOpen s) (freshlyDeletedNotes s)
    (availableWorkspaces s) (databaseReplaced s).

Definition setCurrentNoteId (v : string) (s : State) : State :=
  mkState (database s) (currentWorkspace s) v (textValue s)
    (selectedCmdKSuggestionIndex s) (cmdKSearchQuery s) (isCmdKMenuOpen s)
    (hasVimNavigated s) (isHelpMenuOpen s) (freshlyDeletedNotes s)
    (availableWorkspaces s) (databaseReplaced s).

Definition setTextValue (v : string) (s : State) : State :=
  mkState (database s) (currentWorkspace s) (currentNoteId s) v
    (selectedCmdKSuggestionIndex s) (cmdKSearchQuery s) (isCmdKMenuOpen s)
    (hasVimNavigated s) (isHelpMenuOpen s) (freshlyDeletedNotes s)
    (availableWorkspaces s) (databaseReplaced s).

Definition setSelectedCmdKSuggestionIndex (v : Js.number) (s : State) : State :=
  mkState (database s) (currentWorkspace s) (currentNoteId s) (textValue s) v
    (cmdKSearchQuery s) (isCmdKMenuOpen s) (hasVimNavigated s)
    (isHelpMenuOpen s) (freshlyDeletedNotes s) (availableWorkspaces s)
    (databaseReplaced s).

Definition setCmdKSearchQuery (v : string) (s : State) : State :=
  mkState (database s) (currentWorkspace s) (currentNoteId s) (textValue s)
    (selectedCmdKSuggestionIndex s) v (isCmdKMenuOpen s) (hasVimNavigated s)
    (isHelpMenuOpen s) (freshlyDeletedNotes s) (availableWorkspaces s)
    (databaseReplaced s).

Definition setIsCmdKMenuOpen (v : bool) (s : State) : State :=
  mkState (database s) (currentWorkspace s) (currentNoteId s) (textValue s)
    (selectedCmdKSuggestionIndex s) (cmdKSearchQuery s) v (hasVimNavigated s)
    (isHelpMenuOpen s) (freshlyDeletedNotes s) (availableWorkspaces s)
    (databaseReplaced s).

Definition setHasVimNavigated (v : bool) (s : State) : State :=
  mkState (database s) (currentWorkspace s) (currentNoteId s) (textValue s)
    (selectedCmdKSuggestionIndex s) (cmdKSearchQuery s) (isCmdKMenuOpen s) v
    (isHelpMenuOpen s) (freshlyDeletedNotes s) (availableWorkspaces s)
    (databaseReplaced s).

Definition setIsHelpMenuOpen (v : bool) (s : State) : State :=
  mkState (database s) (currentWorkspace s) (currentNoteId s) (textValue s)
    (selectedCmdKSuggestionIndex s) (cmdKSearchQuery s) (isCmdKMenuOpen s)
    (hasVimNavigated s) v (freshlyDeletedNotes s) (availableWorkspaces s)
    (databaseReplaced s).

Definition setFreshlyDeletedNotes (v : list Note) (s : State) : State :=
  mkState (database s) (currentWorkspace s) (currentNoteId s) (textValue s)
    (selectedCmdKSuggestionIndex s) (cmdKSearchQuery s) (isCmdKMenuOpen s)
    (hasVimNavigated s) (isHelpMenuOpen s) v (availableWorkspaces s)
    (databaseReplaced s).

(** The [availableWorkspaces] memo takes a new value. *)
Definition setAvailableWorkspaces (v : list string) (s : State) : State :=
  mkState (database s) (currentWorkspace s) (currentNoteId s) (textValue s)
    (selectedCmdKSuggestionIndex s) (cmdKSearchQuery s) (isCmdKMenuOpen s)
    (hasVimNavigated s) (isHelpMenuOpen s) (freshlyDeletedNotes s) v
    (databaseReplaced s).

(** ** Suggestions *)

(** The [onAction] closures of the action suggestions, as data: which of the
    five closures it is, with the values it captured from the render. *)
Inductive ActionEffect : Type :=
| CreateNewNote (trimmedCmdKQuery : string)
| MoveNoteTo (workspace0 : string)
| CreateWorkspace (trimmedCmdKQuery : string)
| RenameWorkspace (trimmedCmdKQuery : string)
| UnlinkNote.

(** [type CmdKSuggestion]. *)
Inductive CmdKSuggestion : Type :=
| NoteSuggestion (note : Note)
| ActionSuggestion (title acontent color : string) (onAction : ActionEffect).

Definition dquote : string := String (ascii_of_nat 34) EmptyString.

Definition unlinkTitle : string := "unlink note".

Definition notesFuseOptions : FuseOptions Note :=
  mkFuseOptions content (QArith_base.Qmake 3 10).

Definition workspaceFuseOptions : FuseOptions string :=
  mkFuseOptions (fun w => w) (QArith_base.Qmake 1 20).

Section Suggestions.

Context {P : Platform}.

Definition workspaceNotes (st : State) : list Note :=
  workspaceNotesOf (database st) (currentWorkspace st).

(** [cmdKSearchQuery.trim().slice(0, 20)]. *)
Definition trimmedQuery (cmdKSearchQuery : string) : string :=
  Js.slice0 20 (Js.trim cmdKSearchQuery).

(** The [notes] array of the [cmdKSuggestions] memo before it is sorted. *)
Definition matchedNotes (workspaceNotes : list Note) (cmdKSearchQuery : string)
  : list Note :=
  if Js.truthy cmdKSearchQuery
  then Fuse_search notesFuseOptions workspaceNotes cmdKSearchQuery
  else workspaceNotes.

Definition matchedWorkspaces (availableWorkspaces : list string)
  (cmdKSearchQuery : string) : list string :=
  if Js.truthy cmdKSearchQuery
  then Fuse_search workspaceFuseOptions availableWorkspaces cmdKSearchQuery
  else [].

Definition createNoteAction (q : string) : CmdKSuggestion :=
  ActionSuggestion "create new note" (dquote ++ q ++ dquote) "green"
    (CreateNewNote q).

Definition moveNoteAction (w : string) : CmdKSuggestion :=
  ActionSuggestion ("move note to " ++ w) ("→[" ++ w ++ "]") "cyan"
    (MoveNoteTo w).

Definition createWorkspaceAction (q : string) : CmdKSuggestion :=
  ActionSuggestion "create workspace" ("+[" ++ q ++ "]") "red"
    (CreateWorkspace q).

Definition renameWorkspaceAction (q : string) : CmdKSuggestion :=
  ActionSuggestion "rename workspace" ("±[" ++ q ++ "]") "gray"
    (RenameWorkspace q).

Definition unlinkAction (w : string) : CmdKSuggestion :=
  ActionSuggestion unlinkTitle ("-[" ++ w ++ "]") "purple" UnlinkNote.

(** The part of [actions] that exists when the trimmed query is non-empty. *)
Definition queryActions (availableWorkspaces workspaces : list string)
  (trimmedCmdKQuery : string) : list CmdKSuggestion :=
  if Js.truthy trimmedCmdKQuery then
    ([createNoteAction trimmedCmdKQuery]
     ++ match workspaces with
        | w :: _ => [moveNoteAction w]
        | [] => []
        end
     ++ (if existsb (fun w => String.eqb w trimmedCmdKQuery) availableWorkspaces
         then []
         else [createWorkspaceAction trimmedCmdKQuery])
     ++ [renameWorkspaceAction trimmedCmdKQuery])%list
  else [].

(** The unlink suggestion: [currentNote?.workspace] is truthy and the trimmed
    query is empty or occurs in the title. *)
Definition unlinkActions (currentNote : option Note) (trimmedCmdKQuery : string)
  : list CmdKSuggestion :=
  match currentNote with
  | Some n =>
      match workspace n with
      | Some w =>
          if Js.truthy w
             && (negb (Js.truthy trimmedCmdKQuery)
                 || Js.includes unlinkTitle trimmedCmdKQuery)
          then [unlinkAction w]
          else []
      | None => []
      end
  | None => []
  end.

(** The body of the [cmdKSuggestions] memo, as a function of the values it
    reads. *)
Definition cmdKSuggestionsOf (workspaceNotes : list Note)
  (availableWorkspaces : list string) (cmdKSearchQuery : string)
  (database : list Note) (currentNoteId : string) : list CmdKSuggestion :=
  let notes := matchedNotes workspaceNotes cmdKSearchQuery in
  let workspaces := matchedWorkspaces availableWorkspaces cmdKSearchQuery in
  let currentNote := findNote currentNoteId database in
  let trimmedCmdKQuery := trimmedQuery cmdKSearchQuery in
  let actions :=
    (queryActions availableWorkspaces workspaces trimmedCmdKQuery
     ++ unlinkActions currentNote trimmedCmdKQuery)%list in
  (map NoteSuggestion (sortNotes notes) ++ actions)%list.

Definition cmdKSuggestions (st : State) : list CmdKSuggestion :=
  cmdKSuggestionsOf (workspaceNotes st) (availableWorkspaces st)
    (cmdKSearchQuery st) (database st) (currentNoteId st).

Definition navigableWorkspaces (st : State) : list (option string) :=
  navigableWorkspacesOf (availableWorkspaces st).

(** [sortNotes(notes)] sorts in place.  With an empty query [notes] is the
    [workspaceNotes] array itself, and with the "all" filter that array is
    [database]: rendering then reorders the stored list. *)
Definition sortedByRender (st : State) : list Note :=
  match currentWorkspace st with
  | None =>
      if Js.truthy (cmdKSearchQuery st) then database st
      else sortNotes (database st)
  | Some _ => database st
  end.

(** A render: the [availableWorkspaces] memo is computed anew if the
    database is another array than at the last render, and kept otherwise;
    then the [cmdKSuggestions] memo sorts in place. *)
Definition render (st : State) : State :=
  setDatabaseSame (sortedByRender st)
    (if databaseReplaced st
     then setAvailableWorkspaces (availableWorkspacesOf (database st)) st
     else st).

(** The [workspaceNotes] array as the effects of a render see it, when the
    render computed it anew (the database or the filter changed): sorted by
    the [cmdKSuggestions] memo of that render when the query is empty. *)
Definition renderedWorkspaceNotes (st : State) : list Note :=
  if Js.truthy (cmdKSearchQuery st) then workspaceNotes st
  else sortNotes (workspaceNotes st).

(** The effect on [currentNoteId, workspaceNotes]: keeps the text area in
    step with the active note, and falls back to [workspaceNotes[0]] when the
    active note is not in the filter.  With an empty [workspaceNotes] the
    fallback reads [undefined.id]: a [TypeError], here [None]. *)
Definition currentNoteEffect (st : State) : option State :=
  let wn := renderedWorkspaceNotes st in
  match findNote (currentNoteId st) wn with
  | Some currentNote => Some (setTextValue (content currentNote) st)
  | None =>
      match wn with
      | n0 :: _ => Some (setTextValue (content n0) (setCurrentNoteId (id n0) st))
      | [] => None
      end
  end.

End Suggestions.

(** ** Operations of the note store *)

Section Handlers.

Context {P : Platform}.

(** [deleteNote]. *)
Definition deleteNote (noteId : string) (st : State) : State :=
  match findNote noteId (database st) with
  | None => st
  | Some deletedNote =>
      let updatedDatabase :=
        filter (fun n => negb (String.eqb (id n) noteId)) (database st) in
      let st1 :=
        setDatabase updatedDatabase
          (setFreshlyDeletedNotes
             (freshlyDeletedNotes st ++ [deletedNote])%list st) in
      if String.eqb (currentNoteId st) noteId then
        match updatedDatabase with
        | n0 :: _ => setTextValue (content n0) (setCurrentNoteId (id n0) st1)
        | [] => setTextValue "" (setCurrentNoteId "" st1)
        end
      else st1
  end.

(** [openNote].  [closureDatabase] is the [database] array of the render the
    caller closes over: the note is looked up there, its [updatedAt] is
    assigned there, and that array is what [setDatabase(database)] stores.
    [now] is [new Date().toISOString()]. *)
Definition openNote (now : string) (noteId : string)
  (closureDatabase : list Note) (next : State) : State :=
  if negb (Js.truthy noteId) then next
  else match findNote noteId closureDatabase with
       | None => next
       | Some _ =>
           setDatabaseSame
             (updateNote noteId (set_updatedAt now) closureDatabase)
             (setCurrentNoteId noteId next)
       end.

(** [openNewNote].  [rid] is [getRandomId()].  The call of [openNote] at its
    end looks the new id up in the array of the closure, which does not hold
    the new note: it does something only if the id was in use already. *)
Definition openNewNote (now rid : string)
  (defaultContent defaultWorkspace : string) (st : State) : State :=
  let newNote :=
    mkNote rid defaultContent now
      (if Js.truthy defaultWorkspace then Some defaultWorkspace
       else currentWorkspace st) in
  openNote now rid (database st)
    (setTextValue ""
       (setCurrentNoteId rid
          (setDatabase (database st ++ [newNote])%list st))).

(** The five [onAction] closures; the boolean is their result, [true] to
    close the palette. *)
Definition runAction (now rid : string) (a : ActionEffect) (st : State)
  : State * bool :=
  match a with
  | CreateNewNote q =>
      (setCmdKSearchQuery ""
         (setSelectedCmdKSuggestionIndex (Js.Num 0)
            (setIsCmdKMenuOpen false (openNewNote now rid q "" st))),
       true)
  | MoveNoteTo w =>
      match findNote (currentNoteId st) (database st) with
      | None => (st, true)
      | Some currentNote =>
          let db1 :=
            updateNote (currentNoteId st) (set_workspace (Some w))
              (database st) in
          (setCmdKSearchQuery ""
             (openNote now (id currentNote) db1
                (setSelectedCmdKSuggestionIndex (Js.Num 0)
                   (setCurrentWorkspace (Some w) (setDatabaseSame db1 st)))),
           false)
      end
  | CreateWorkspace q =>
      (setCmdKSearchQuery ""
         (setCurrentWorkspace (Some q)
            (setSelectedCmdKSuggestionIndex (Js.Num 0)
               (openNewNote now rid "" q st))),
       false)
  | RenameWorkspace q =>
      let newDatabase :=
        map (fun n =>
               if negb (workspace_is (workspace n) (currentWorkspace st))
               then n
               else set_workspace (Some q) n)
            (database st) in
      (setCmdKSearchQuery ""
         (setDatabase newDatabase
            (setSelectedCmdKSuggestionIndex (Js.Num 0)
               (setCurrentWorkspace (Some q) st))),
       false)
  | UnlinkNote =>
      (* the suggestion exists only when [currentNote] is found *)
      (setCurrentWorkspace None
         (setDatabaseSame
            (sortNotes
               (updateNote (currentNoteId st) (set_workspace None)
                  (database st)))
            st),
       false)
  end.

(** [runCmdKSuggestion]. *)
Definition runCmdKSuggestion (now rid : string)
  (suggestion : option CmdKSuggestion) (st : State) : State * bool :=
  match suggestion with
  | None => (st, true)
  | Some (NoteSuggestion note) => (openNote now (id note) (database st) st, true)
  | Some (ActionSuggestion _ _ _ onAction) => runAction now rid onAction st
  end.

(** ** The keyboard handlers *)

Record KeyboardEvent : Type := mkKey {
  key : string;
  ctrlKey : bool;
  metaKey : bool;
  shiftKey : bool
}.

(** [navigableWorkspaces.indexOf(currentWorkspace)], [None] for [-1]. *)
Fixpoint indexOf (x : option string) (l : list (option string)) : option Z :=
  match l with
  | [] => None
  | y :: r =>
      if option_string_eqb y x then Some 0
      else match indexOf x r with
           | Some i => Some (i + 1)
           | None => None
           end
  end.

(** The workspace cycling at the end of the open-palette branch of
    [handleKeyDown]. *)
Definition cycleWorkspace (vimLeft vimRight : bool) (e : KeyboardEvent)
  (st : State) : State :=
  let nav := navigableWorkspaces st in
  match indexOf (currentWorkspace st) nav with
  | None => st                                   (* console.warn('wtf?') *)
  | Some currentIndex =>
      let len := Z.of_nat (List.length nav) in
      let left :=
        if vimLeft || String.eqb (key e) "ArrowLeft"
        then Some (Z.rem (currentIndex - 1 + len) len) else None in
      let nextWorkspaceIndex :=
        if vimRight || String.eqb (key e) "ArrowRight"
        then Some (Z.rem (currentIndex + 1) len) else left in
      match nextWorkspaceIndex with
      | None => st
      | Some i =>
          match Js.index nav (Js.Num i) with
          | Some nextWorkspace =>
              if negb (option_string_eqb nextWorkspace (currentWorkspace st))
              then setCurrentWorkspace nextWorkspace
                     (setSelectedCmdKSuggestionIndex (Js.Num 0) st)
              else st
          | None => st                           (* the index is in range *)
          end
      end
  end.

(** [handleKeyDown].  [None] is an exception that leaves the handler before
    it queued an update: [suggestion.type] on an [undefined] suggestion.
    The selected index is a number, so the tests of the source that compare
    it with [null] are decided; [preventDefault], [focus] and the scrolling
    do not touch the state. *)
Definition handleKeyDown (now rid : string) (e : KeyboardEvent) (st : State)
  : option State :=
  let modifier := ctrlKey e || metaKey e in
  if isCmdKMenuOpen st && String.eqb (key e) "Escape" then
    Some (setIsCmdKMenuOpen false st)
  else
    let vimUp := modifier && String.eqb (key e) "k" in
    let vimDown := modifier && String.eqb (key e) "j" in
    let vimLeft := modifier && String.eqb (key e) "u" in
    let vimRight := modifier && String.eqb (key e) "i" in
    let st1 :=
      if isCmdKMenuOpen st && (vimUp || vimDown || vimLeft || vimRight)
      then setHasVimNavigated true st else st in
    let selected := selectedCmdKSuggestionIndex st in
    if isCmdKMenuOpen st then
      if Nat.ltb 1 (List.length (workspaceNotes st))
         && String.eqb (key e) "Backspace" && modifier
      then
        match Js.index (cmdKSuggestions st) selected with
        | None => None
        | Some (NoteSuggestion note) =>
            Some (setSelectedCmdKSuggestionIndex
                    (Js.maxz (Js.addz selected (-1)) 0)
                    (deleteNote (id note) st1))
        | Some (ActionSuggestion _ _ _ _) => Some st1
        end
      else if Nat.ltb 0 (List.length (freshlyDeletedNotes st))
              && String.eqb (key e) "z" && modifier
      then
        match rev (freshlyDeletedNotes st) with
        | topOfStack :: rest =>
            Some (setDatabase (sortNotes (database st ++ [topOfStack])%list)
                    (setFreshlyDeletedNotes (rev rest) st1))
        | [] => Some st1
        end
      else
        let len := Z.of_nat (List.length (cmdKSuggestions st)) in
        if String.eqb (key e) "ArrowUp" || vimUp then
          Some (setSelectedCmdKSuggestionIndex
                  (Js.remz (Js.addz (Js.addz selected (-1)) len) len) st1)
        else if String.eqb (key e) "ArrowDown" || vimDown then
          Some (setSelectedCmdKSuggestionIndex
                  (Js.remz (Js.addz selected 1) len) st1)
        else if String.eqb (key e) "Enter" then
          let '(st2, shouldCloseCmdK) :=
            runCmdKSuggestion now rid
              (Js.index (cmdKSuggestions st) selected) st1 in
          Some (if shouldCloseCmdK
                then setSelectedCmdKSuggestionIndex (Js.Num 0)
                       (setIsCmdKMenuOpen false st2)
                else st2)
        else Some (cycleWorkspace vimLeft vimRight e st1)
    else if isHelpMenuOpen st
            && (String.eqb (key e) "Escape" || String.eqb (key e) "Enter")
    then Some (setIsHelpMenuOpen (negb (isHelpMenuOpen st)) st1)
    else if (String.eqb (key e) "p" || String.eqb (key e) "k") && modifier
    then
      Some (setCmdKSearchQuery ""
              (setIsHelpMenuOpen false
                 (setIsCmdKMenuOpen true
                    (setSelectedCmdKSuggestionIndex (Js.Num 0) st1))))
    else if String.eqb (key e) "Enter" && modifier && shiftKey e
            && Js.truthy (Js.trim (textValue st))
    then Some (openNewNote now rid "" "" st1)
    else Some st1.

(** [handleKeyUp]. *)
Definition handleKeyUp (now rid : string) (e : KeyboardEvent) (st : State)
  : State :=
  if hasVimNavigated st && isCmdKMenuOpen st
     && (String.eqb (key e) "Meta" || String.eqb (key e) "Control")
  then
    let '(st2, shouldCloseCmdK) :=
      if Nat.ltb 0 (List.length (cmdKSuggestions st))
      then runCmdKSuggestion now rid
             (Js.index (cmdKSuggestions st) (selectedCmdKSuggestionIndex st))
             st
      else (st, true) in
    setHasVimNavigated false
      (if shouldCloseCmdK then setIsCmdKMenuOpen false st2 else st2)
  else st.

(** [onChange] of the search input of the palette. *)
Definition onQueryChange (value : string) (st : State) : State :=
  setSelectedCmdKSuggestionIndex (Js.Num 0) (setCmdKSearchQuery value st).

(** ** Events *)

(** An event carries what its handler reads from outside the state: the
    clock and the random id. *)
Inductive Event : Type :=
| KeyDown (now rid : string) (e : KeyboardEvent)
| KeyUp (now rid : string) (e : KeyboardEvent)
| QueryChange (value : string)
| ClickDelete (noteId : string).

Definition handle (ev : Event) (st : State) : option State :=
  match ev with
  | KeyDown now rid e => handleKeyDown now rid e st
  | KeyUp now rid e => Some (handleKeyUp now rid e st)
  | QueryChange value => Some (onQueryChange value st)
  | ClickDelete noteId => Some (deleteNote noteId st)
  end.

(** The state after the render that follows the state [st] a handler left:
    the memos are computed (with their in-place sort), then the effect on the
    active note runs.  [None] when the effect throws. *)
Definition settle (st : State) : option State :=
  currentNoteEffect (render st).

(** One event, from a rendered state to the next one.  A handler that throws
    leaves the state as it is. *)
Definition step (ev : Event) (st : State) : option State :=
  match handle ev st with
  | None => Some st
  | Some st' => settle st'
  end.

End Handlers.

(** ** Export and import *)

(** [JSON.stringify] and [JSON.parse] on note lists.  A note is written with
    its keys in the order [id], [content], [updatedAt], [workspace], the
    order in which the component creates them; a workspace that is
    [undefined] is left out.  [parse] reads the texts that [stringify]
    writes: no white space between tokens, the keys in that order.  On any
    other text the embedding has no value for what the source would store,
    and gives [None], as it does for a text that is not JSON. *)
Module JSON.

Definition dq : ascii := ascii_of_nat 34.
Definition backslash : ascii := ascii_of_nat 92.

Definition hexDigits : list ascii :=
  ["0"; "1"; "2"; "3"; "4"; "5"; "6"; "7"; "8"; "9";
   "a"; "b"; "c"; "d"; "e"; "f"]%char.

Definition hexDigit (n : nat) : ascii := nth n hexDigits "0"%char.

(** A hexadecimal digit, in either case. *)
Definition hexValue (c : ascii) : option nat :=
  let n := nat_of_ascii c in
  if Nat.leb 48 n && Nat.leb n 57 then Some (n - 48)%nat
  else if Nat.leb 97 n && Nat.leb n 102 then Some (n - 87)%nat
  else if Nat.leb 65 n && Nat.leb n 70 then Some (n - 55)%nat
  else None.

(** [QuoteJSONString] on one character: the short escapes, [\u00xx] for the
    other control characters, the character itself otherwise. *)
Definition quoteChar (c : ascii) : string :=
  let n := nat_of_ascii c in
  if Nat.eqb n 8 then "\b"
  else if Nat.eqb n 9 then "\t"
  else if Nat.eqb n 10 then "\n"
  else if Nat.eqb n 12 then "\f"
  else if Nat.eqb n 13 then "\r"
  else if Nat.eqb n 34 then String backslash (String dq EmptyString)
  else if Nat.eqb n 92 then "\\"
  else if Nat.ltb n 32 then
    "\u00" ++ String (hexDigit (n / 16)) (String (hexDigit (n mod 16)) EmptyString)
  else String c EmptyString.

Fixpoint quoteBody (s : string) : string :=
  match s with
  | EmptyString => EmptyString
  | String c r => quoteChar c ++ quoteBody r
  end.

Definition quote (s : string) : string :=
  String dq (quoteBody s ++ String dq EmptyString).

(** The character that a one-letter escape denotes. *)
Definition unescape (e : ascii) : option ascii :=
  let n := nat_of_ascii e in
  if Nat.eqb n 34 then Some dq
  else if Nat.eqb n 92 then Some backslash
  else if Nat.eqb n 47 then Some "/"%char
  else if Nat.eqb n 98 then Some (ascii_of_nat 8)
  else if Nat.eqb n 102 then Some (ascii_of_nat 12)
  else if Nat.eqb n 110 then Some (ascii_of_nat 10)
  else if Nat.eqb n 114 then Some (ascii_of_nat 13)
  else if Nat.eqb n 116 then Some (ascii_of_nat 9)
  else None.

(** The code unit of [\uh1h2h3h4], when it is an ASCII character; the other
    code units are outside the embedding of strings. *)
Definition unicodeEscape (h1 h2 h3 h4 : ascii) : option ascii :=
  match hexValue h1, hexValue h2, hexValue h3, hexValue h4 with
  | Some a, Some b, Some c, Some d =>
      let v := (((a * 16 + b) * 16 + c) * 16 + d)%nat in
      if Nat.ltb v 128 then Some (ascii_of_nat v) else None
  | _, _, _, _ => None
  end.

Definition consChar (c : ascii) (r : option (string * string))
  : option (string * string) :=
  match r with
  | Some (s, rest) => Some (String c s, rest)
  | None => None
  end.

(** A string literal after its opening quote: the text it denotes and the
    input after its closing quote. *)
Fixpoint parseStringBody (s : string) : option (string * string) :=
  match s with
  | EmptyString => None
  | String c r =>
      if Ascii.eqb c dq then Some (EmptyString, r)
      else if Ascii.eqb c backslash then
        match r with
        | String e r1 =>
            match unescape e with
            | Some ch => consChar ch (parseStringBody r1)
            | None =>
                if Ascii.eqb e "u"%char then
                  match r1 with
                  | String h1 (String h2 (String h3 (String h4 r2))) =>
                      match unicodeEscape h1 h2 h3 h4 with
                      | Some ch => consChar ch (parseStringBody r2)
                      | None => None
                      end
                  | _ => None
                  end
                else None
            end
        | EmptyString => None
        end
      else if Nat.ltb (nat_of_ascii c) 32 then None
      else consChar c (parseStringBody r)
  end.

Definition parseString (s : string) : option (string * string) :=
  match s with
  | String c r => if Ascii.eqb c dq then parseStringBody r else None
  | EmptyString => None
  end.

(** The input after the literal [lit], if the input starts with it. *)
Fixpoint expect (lit s : string) : option string :=
  match lit, s with
  | EmptyString, _ => Some s
  | String a l, String b r => if Ascii.eqb a b then expect l r else None
  | String _ _, EmptyString => None
  end.

(** ["key":] *)
Definition keyColon (k : string) : string :=
  String dq (k ++ String dq ":").

Definition stringifyNote (n : Note) : string :=
  "{" ++ keyColon "id" ++ quote (id n)
  ++ "," ++ keyColon "content" ++ quote (content n)
  ++ "," ++ keyColon "updatedAt" ++ quote (updatedAt n)
  ++ match workspace n with
     | Some w => "," ++ keyColon "workspace" ++ quote w
     | None => EmptyString
     end
  ++ "}".

Fixpoint stringifyNotes (notes : list Note) : string :=
  match notes with
  | [] => EmptyString
  | [n] => stringifyNote n
  | n :: r => stringifyNote n ++ "," ++ stringifyNotes r
  end.

(** [JSON.stringify(database)]. *)
Definition stringify (database : list Note) : string :=
  "[" ++ stringifyNotes database ++ "]".

Definition bind {A B : Type} (x : option A) (f : A -> option B) : option B :=
  match x with
  | Some a => f a
  | None => None
  end.

Definition parseNote (s : string) : option (Note * string) :=
  bind (expect ("{" ++ keyColon "id") s) (fun s1 =>
  bind (parseString s1) (fun '(i, s2) =>
  bind (expect ("," ++ keyColon "content") s2) (fun s3 =>
  bind (parseString s3) (fun '(c, s4) =>
  bind (expect ("," ++ keyColon "updatedAt") s4) (fun s5 =>
  bind (parseString s5) (fun '(u, s6) =>
  match expect "}" s6 with
  | Some rest => Some (mkNote i c u None, rest)
  | None =>
      bind (expect ("," ++ keyColon "workspace") s6) (fun s7 =>
      bind (parseString s7) (fun '(w, s8) =>
      bind (expect "}" s8) (fun rest =>
      Some (mkNote i c u (Some w), rest))))
  end)))))).

(** The notes of an array after the first bracket; every note takes at
    least one character of the input, so the length of the input is fuel
    enough. *)
Fixpoint parseNotes (fuel : nat) (s : string) : option (list Note) :=
  match fuel with
  | O => None
  | S fuel' =>
      match parseNote s with
      | Some (n, rest) =>
          match rest with
          | String c r =>
              if Ascii.eqb c ","%char then
                match parseNotes fuel' r with
                | Some notes => Some (n :: notes)
                | None => None
                end
              else if Ascii.eqb c "]"%char then
                match r with
                | EmptyString => Some [n]
                | String _ _ => None
                end
              else None
          | EmptyString => None
          end
      | None => None
      end
  end.

(** [JSON.parse(text)], as a note list. *)
Definition parse (text : string) : option (list Note) :=
  match text with
  | String c r =>
      if Ascii.eqb c "["%char then
        match r with
        | String c' EmptyString =>
            if Ascii.eqb c' "]"%char then Some [] else None
        | _ => parseNotes (String.length r) r
        end
      else None
  | EmptyString => None
  end.

End JSON.

(** [LZString.compressToEncodedURIComponent] and
    [LZString.decompressFromEncodedURIComponent] of the lz-string package;
    [None] is the [null] of a failed decompression. *)
Class LZString : Type := {
  compressToEncodedURIComponent : string -> string;
  decompressFromEncodedURIComponent : string -> option string
}.

(** The contract of the package: decompression inverts compression. *)
Definition LZString_inverse (L : LZString) : Prop :=
  forall s, decompressFromEncodedURIComponent (compressToEncodedURIComponent s)
            = Some s.

Section ExportImport.

Context {L : LZString}.

(** The [onClick] of the export button: the text of the downloaded file,
    the part of the data URL after its header. *)
Definition exportFile (database : list Note) : string :=
  compressToEncodedURIComponent (JSON.stringify database).

(** The [onload] of the import file reader, on the text of the chosen
    file.  A [JSON.parse] that throws leaves the state as it is. *)
Definition importFile (fileText : string) (st : State) : State :=
  match decompressFromEncodedURIComponent fileText with
  | Some decompressedContent =>
      if Js.truthy decompressedContent then
        match JSON.parse decompressedContent with
        | Some content => setDatabase content st
        | None => st
        end
      else st
  | None => st
  end.

End ExportImport.

(** A codec to run the model with: two hexadecimal digits per character. *)
Module Hex.

Fixpoint encode (s : string) : string :=
  match s with
  | EmptyString => EmptyString
  | String c r =>
      let n := nat_of_ascii c in
      String (JSON.hexDigit (n / 16)) (String (JSON.hexDigit (n mod 16)) (encode r))
  end.

Fixpoint decode (s : string) : option string :=
  match s with
  | EmptyString => Some EmptyString
  | String h1 (String h2 r) =>
      match JSON.hexValue h1, JSON.hexValue h2, decode r with
      | Some a, Some b, Some t => Some (String (ascii_of_nat (a * 16 + b)) t)
      | _, _, _ => None
      end
  | String _ EmptyString => None
  end.

Definition codec : LZString :=
  {| compressToEncodedURIComponent := encode;
     decompressFromEncodedURIComponent := decode |}.

End Hex.

(** ** Vocabulary of the properties *)

Section Vocabulary.

Context {P : Platform}.

(** The time stamp of a note, as [sortNotes] reads it. *)
Definition time (n : Note) : Z := Date_getTime (updatedAt n).

(** [a] may stand before [b] in a list sorted by recency. *)
Definition notOlder (a b : Note) : Prop := time b <= time a.

Definition recencySorted (l : list Note) : Prop := StronglySorted notOlder l.

(** A sequence of events, each from the rendered state the previous one
    left. *)
Fixpoint run (evs : list Event) (st : State) : option State :=
  match evs with
  | [] => Some st
  | ev :: rest =>
      match step ev st with
      | Some st' => run rest st'
      | None => None
      end
  end.

(** The palette is open over the store [db0], possibly reordered by a
    render, the [availableWorkspaces] memo is the one of [db0], and the
    filter is entry [j], cyclically, of the navigable workspace sequence. *)
Definition cyclingAt (db0 : list Note) (j : nat) (st : State) : Prop :=
  isCmdKMenuOpen st = true
  /\ (database st = db0 \/ database st = sortNotes db0)
  /\ databaseReplaced st = false
  /\ availableWorkspaces st = availableWorkspacesOf db0
  /\ nth_error (navigableWorkspacesOf (availableWorkspacesOf db0))
       (j mod List.length (navigableWorkspacesOf (availableWorkspacesOf db0)))
     = Some (currentWorkspace st).

(** The keys of "next workspace": arrow right, or modifier+i. *)
Definition nextWorkspaceKey (e : KeyboardEvent) : Prop :=
  key e = "ArrowRight" \/ (key e = "i" /\ ctrlKey e || metaKey e = true).

(** What the effect on the active note leaves as it is: everything but
    [currentNoteId] and [textValue]. *)
Definition sameButActiveNote (st st' : State) : Prop :=
  database st' = database st
  /\ currentWorkspace st' = currentWorkspace st
  /\ selectedCmdKSuggestionIndex st' = selectedCmdKSuggestionIndex st
  /\ cmdKSearchQuery st' = cmdKSearchQuery st
  /\ isCmdKMenuOpen st' = isCmdKMenuOpen st
  /\ hasVimNavigated st' = hasVimNavigated st
  /\ isHelpMenuOpen st' = isHelpMenuOpen st
  /\ freshlyDeletedNotes st' = freshlyDeletedNotes st
  /\ availableWorkspaces st' = availableWorkspaces st
  /\ databaseReplaced st' = databaseReplaced st.

(** The selected index points into the suggestion list whenever the list is
    not empty. *)
Definition indexInRange (st : State) : Prop :=
  0 < Z.of_nat (List.length (cmdKSuggestions st)) ->
  exists i, selectedCmdKSuggestionIndex st = Js.Num i
            /\ 0 <= i < Z.of_nat (List.length (cmdKSuggestions st)).

End Vocabulary.

(** ** The suggestion list as the specification words it *)

Section SpecWords.

Context {P : Platform}.

(** Section 4.2 for a non-empty query: the fuzzy matches in match-rank
    order, then create-note, move-to-workspace if a tight match exists,
    create-workspace if no tag equals the query, rename-workspace, and the
    unlink suggestion if it is offered. *)
Definition specSuggestions (st : State) : list CmdKSuggestion :=
  let q := trimmedQuery (cmdKSearchQuery st) in
  let available := availableWorkspaces st in
  (map NoteSuggestion
     (Fuse_search notesFuseOptions (workspaceNotes st) (cmdKSearchQuery st))
   ++ [createNoteAction q]
   ++ match Fuse_search workspaceFuseOptions available (cmdKSearchQuery st) with
      | w :: _ => [moveNoteAction w]
      | [] => []
      end
   ++ (if existsb (fun w => String.eqb w q) available
       then [] else [createWorkspaceAction q])
   ++ [renameWorkspaceAction q]
   ++ unlinkActions (findNote (currentNoteId st) (database st)) q)%list.

(** Section 4.1, [delete]: the active note afterwards is "the first
    remaining note in the current workspace filter (or empty state if none
    remain)"; [remaining] is the filtered list. *)
Definition specActiveAfterDelete (remaining : list Note) : string :=
  match remaining with
  | n :: _ => id n
  | [] => ""
  end.

(** Section 4.3, chord-hold navigation: on release of the modifier "the
    engine commits the currently selected suggestion exactly as Enter
    would, then clears [vimChordPending]". *)
Definition specChordRelease (now rid : string) (st : State) : option State :=
  option_map (setHasVimNavigated false)
    (handleKeyDown now rid (mkKey "Enter" true false false) st).

End SpecWords.

(** ** Concrete stores and palette states, to run the model on *)

Module Ex.

(** Time stamps as [toISOString] writes them. *)
Definition dec31 : string := "2023-12-31T09:00:00.000Z".
Definition jan1 : string := "2024-01-01T09:00:00.000Z".
Definition jan2 : string := "2024-01-02T09:00:00.000Z".
Definition jan3 : string := "2024-01-03T09:00:00.000Z".
Definition jan4 : string := "2024-01-04T09:00:00.000Z".
Definition jan9 : string := "2024-01-09T09:00:00.000Z".

Definition noKey (k : string) : KeyboardEvent := mkKey k false false false.
Definition ctrlKeyDown (k : string) : KeyboardEvent := mkKey k true false false.

(** Two notes of equal content; [hello2], later in the store, is the more
    recent. *)
Definition hello1 : Note := mkNote "a" "hello" jan1 None.
Definition hello2 : Note := mkNote "b" "hello" jan2 None.

(** The palette is open on the query [hello]. *)
Definition searching : State :=
  mkState [hello1; hello2] None "a" "hello" (Js.Num 0) "hello"
    true false false []
    [] false.

(** The palette is open on a query that is one space. *)
Definition blankQuery : State :=
  mkState [hello1; hello2] None "a" "hello" (Js.Num 0) " "
    true false false []
    [] false.

(** One note, tagged [w]; the filter is [w] and the palette is closed. *)
Definition tagged : Note := mkNote "a" "hello" jan1 (Some "w").

Definition taggedClosed : State :=
  mkState [tagged] (Some "w") "a" "hello" (Js.Num 0) ""
    false false false []
    ["w"] false.

(** Open the palette, move down to the unlink suggestion, commit. *)
Definition unlinkTrace (now rid : string) : list Event :=
  [KeyDown now rid (ctrlKeyDown "k");
   KeyDown now rid (noKey "ArrowDown");
   KeyDown now rid (noKey "Enter")].

(** Deleting the active note [a] under the filter [w]. *)
Definition untagged : Note := mkNote "x" "inbox" dec31 None.
Definition wa : Note := mkNote "a" "first" jan1 (Some "w").
Definition wb : Note := mkNote "b" "second" jan2 (Some "w").
Definition wc : Note := mkNote "c" "third" jan3 (Some "w").

(** The first note of the store is outside the filter. *)
Definition deleteBehindUntagged : State :=
  mkState [untagged; wa; wb; wc] (Some "w") "a" "first" (Js.Num 2) ""
    true false false []
    ["w"] false.

(** Every note of the store is in the filter. *)
Definition deleteOldest : State :=
  mkState [wa; wb; wc] (Some "w") "a" "first" (Js.Num 2) ""
    true false false []
    ["w"] false.

(** The deleted note is the only one in the filter. *)
Definition deleteLastOfWorkspace : State :=
  mkState [wa; untagged] (Some "w") "a" "first" (Js.Num 0) ""
    true false false []
    ["w"] false.

(** The palette is open under the filter [w] on the query [v]; one note
    carries another tag. *)
Definition wd : Note := mkNote "d" "other" jan4 (Some "u").

Definition renaming : State :=
  mkState [untagged; wa; wb; wd] (Some "w") "a" "first" (Js.Num 0) " v "
    true false false []
    ["u"; "w"] false.

(** The palette is open on all notes; the store has the workspaces [u] and
    [w]. *)
Definition cycling : State :=
  mkState [wd; wb; wa; untagged] None "x" "inbox" (Js.Num 0) ""
    true false false []
    ["u"; "w"] false.

(** The palette is open on all notes after a modifier+j: the second
    suggestion, the note [a], is selected and the chord is pending. *)
Definition chordPending : State :=
  mkState [hello2; hello1] None "b" "hello" (Js.Num 1) ""
    true true false []
    [] false.

Definition releaseControl : KeyboardEvent := mkKey "Control" false false false.

(** The note [a] of the workspace [w] is the oldest of the store. *)
Definition browsing : State :=
  mkState [wd; wb; wa; untagged] None "d" "other" (Js.Num 2) ""
    true false false []
    ["u"; "w"] false.

End Ex.

(** ** Editing the active note *)

(** The line feed, [\n]. *)
Definition lineFeed : ascii := ascii_of_nat 10.

Definition newline : string := String lineFeed EmptyString.

(** [s.substring(k)]. *)
Fixpoint drop (k : nat) (s : string) : string :=
  match k, s with
  | O, _ => s
  | S _, EmptyString => EmptyString
  | S k', String _ r => drop k' r
  end.

(** [s.split(from).join(to)] for a needle [from] that is not empty, as the
    needles of [textsToReplace] are: the occurrences of [from] are found
    from the left, each after the end of the one before, and [to] takes
    their place.  [skip] counts the characters of the occurrence that are
    still to pass over. *)
Fixpoint splitJoin (from to : string) (skip : nat) (s : string) : string :=
  match s with
  | EmptyString => EmptyString
  | String c r =>
      match skip with
      | S k => splitJoin from to k r
      | O =>
          if String.prefix from s
          then to ++ splitJoin from to (String.length from - 1) r
          else String c (splitJoin from to O r)
      end
  end.

(** The first component of an entry of [textsToReplace]: a string, or one of
    the regular expressions [/^lit/], which match [lit] at the start of the
    text and nowhere else. *)
Inductive Needle : Type :=
| Literal (from : string)
| AtStart (lit : string).

(** [textsToReplace]. *)
Definition textsToReplace : list (Needle * string) :=
  [ (Literal " -> ", " → ");
    (Literal " <- ", " ← ");
    (Literal (newline ++ "-> "), newline ++ "→ ");
    (Literal ("<- " ++ newline), "← " ++ newline);
    (AtStart "-> ", "→ ");
    (AtStart "<- ", "← ");
    (Literal "(c)", "©");
    (Literal "(r)", "®");
    (Literal "+-", "±") ].

(** One round of the [forEach] of [saveNote], in the branch without an Ace
    editor: [processedText.replace(from, to)] for a regular expression (the
    first match), [processedText.split(from).join(to)] for a string. *)
Definition replaceOne (processedText : string) (entry : Needle * string)
  : string :=
  match entry with
  | (Literal from, to) => splitJoin from to 0 processedText
  | (AtStart lit, to) =>
      if String.prefix lit processedText
      then to ++ drop (String.length lit) processedText
      else processedText
  end.

(** [processedText] after the [forEach]. *)
Definition processText (newText : string) : string :=
  fold_left replaceOne textsToReplace newText.

(** [database.findIndex((n) => n.id === noteId)], [None] for [-1]. *)
Fixpoint findIndex (noteId : string) (db : list Note) : option nat :=
  match db with
  | [] => None
  | n :: r =>
      if String.eqb (id n) noteId then Some O
      else option_map S (findIndex noteId r)
  end.

(** [[...l]] followed by [splice(i, 1, x)]: the element at [i] is replaced;
    a start behind the end of the array adds [x] there. *)
Fixpoint splice1 (i : nat) (x : Note) (l : list Note) : list Note :=
  match l with
  | [] => [x]
  | y :: r =>
      match i with
      | O => x :: r
      | S i' => y :: splice1 i' x r
      end
  end.

(** [saveNote], with the text area as the editor ([aceEditorRef.current] is
    [null]; with the Ace editor the replacements are made by the editor).
    [now] is [new Date().toISOString()]. *)
Definition saveNote (now noteId newText : string) (st : State) : State :=
  let processedText := processText newText in
  match findIndex noteId (database st) with
  | None => st
  | Some noteIndex =>
      match nth_error (database st) noteIndex with
      | Some n =>
          let updatedNote := mkNote (id n) processedText now (workspace n) in
          setDatabase (splice1 noteIndex updatedNote (database st)) st
      | None => st                       (* [findIndex] is inside the array *)
      end
  end.

(** The [setText] of the text area: [setTextValue(newText)], then
    [saveNote(currentNoteId, newText)]. *)
Definition setText (now newText : string) (st : State) : State :=
  saveNote now (currentNoteId st) newText (setTextValue newText st).

(** [s.indexOf(c)] for a character [c], [None] for [-1]. *)
Fixpoint indexOfChar (c : ascii) (s : string) : option nat :=
  match s with
  | EmptyString => None
  | String d r =>
      if Ascii.eqb d c then Some O else option_map S (indexOfChar c r)
  end.

(** [getNoteTitle]: the index of the first line feed is taken in the trimmed
    content, the title is cut from the content as it is. *)
Definition getNoteTitle (note : Note) : string :=
  match indexOfChar lineFeed (Js.trim (content note)) with
  | None => content note
  | Some firstLineBreakIndex =>
      Js.slice0 (firstLineBreakIndex + 1) (content note)
  end.

(** [title || 'New Note'], the text of a note row of the palette. *)
Definition noteRowTitle (note : Note) : string :=
  if Js.truthy (getNoteTitle note) then getNoteTitle note else "New Note".

(** ** Persistent state *)

(** [localStorage], as the list of its entries. *)
Module LocalStorage.

Definition t : Type := list (string * string).

Fixpoint getItem (k : string) (s : t) : option string :=
  match s with
  | [] => None
  | (k', v) :: r => if String.eqb k' k then Some v else getItem k r
  end.

Definition setItem (k v : string) (s : t) : t :=
  (k, v) :: filter (fun kv => negb (String.eqb (fst kv) k)) s.

End LocalStorage.

(** [usePersistentState] at the three types the note store uses it at:
    [Note[]], [string | null] and [string].  [JSON.stringify] and
    [JSON.parse] are those of [JSON] for note lists; a string is written as
    its quoted form and [null] as [null].  As in [JSON], a text that
    [JSON.stringify] does not write at that type is read as a text that is
    not JSON. *)
Module Persistent.

Definition stringifyString (s : string) : string := JSON.quote s.

Definition parseString (text : string) : option string :=
  match JSON.parseString text with
  | Some (s, EmptyString) => Some s
  | _ => None
  end.

Definition stringifyNullable (v : option string) : string :=
  match v with
  | Some s => JSON.quote s
  | None => "null"
  end.

Definition parseNullable (text : string) : option (option string) :=
  if String.eqb text "null" then Some None
  else option_map Some (parseString text).

(** The initializer of the [useState] of the hook:
    [localStorageData ? JSON.parse(localStorageData) : defaultValue], and
    [defaultValue] when [JSON.parse] throws. *)
Definition initial {T : Type} (parse : string -> option T)
  (storageKey : string) (defaultValue : T) (storage : LocalStorage.t) : T :=
  match LocalStorage.getItem storageKey storage with
  | Some localStorageData =>
      if Js.truthy localStorageData then
        match parse localStorageData with
        | Some v => v
        | None => defaultValue
        end
      else defaultValue
  | None => defaultValue
  end.

(** The setter the hook returns, on the storage:
    [localStorage.setItem(storageKey, JSON.stringify(newData))]. *)
Definition store {T : Type} (stringify : T -> string)
  (storageKey : string) (newData : T) (storage : LocalStorage.t)
  : LocalStorage.t :=
  LocalStorage.setItem storageKey (stringify newData) storage.

Definition databaseKey : string := "typehere-database".
Definition currentWorkspaceKey : string := "typehere-currentWorkspace".
Definition currentNoteIdKey : string := "typehere-currentNoteId".

(** The setters of the store, of the filter and of the active id, one
    after the other on one storage. *)
Definition storeAll (db : list Note) (cw : option string) (cnid : string)
  (storage : LocalStorage.t) : LocalStorage.t :=
  store stringifyString currentNoteIdKey cnid
    (store stringifyNullable currentWorkspaceKey cw
       (store JSON.stringify databaseKey db storage)).

End Persistent.

(** ** More vocabulary of the properties *)

Section Vocabulary2.

Context {P : Platform}.

(** The ids of the notes the application holds: the store, then the stack
    of deleted notes. *)
Definition heldIds (st : State) : list string :=
  (map id (database st) ++ map id (freshlyDeletedNotes st))%list.

(** The random id an event reads, if its handler reads one. *)
Definition eventId (ev : Event) : option string :=
  match ev with
  | KeyDown _ rid _ => Some rid
  | KeyUp _ rid _ => Some rid
  | QueryChange _ => None
  | ClickDelete _ => None
  end.

(** From [st] to [st'] no id was lost and none was added, but for the
    random id [rid] of a new note. *)
Definition idsKept (rid : option string) (st st' : State) : Prop :=
  Permutation (heldIds st') (heldIds st)
  \/ exists r, rid = Some r /\ Permutation (heldIds st') (r :: heldIds st).


(** Every needle of [textsToReplace] holds one of the characters [-], [(]
    and [+]; a plain character is any other one. *)
Definition plainChar (c : ascii) : bool :=
  negb (Ascii.eqb c "-" || Ascii.eqb c "(" || Ascii.eqb c "+")%char.

Fixpoint plainText (s : string) : bool :=
  match s with
  | EmptyString => true
  | String c r => plainChar c && plainText r
  end.

(** A text of ASCII characters, on which the strings of the embedding are
    those of the source. *)
Fixpoint isAscii (s : string) : bool :=
  match s with
  | EmptyString => true
  | String c r => Nat.ltb (nat_of_ascii c) 128 && isAscii r
  end.

(** The Enter branch of [handleKeyDown] on the row that the handler holds,
    [cmdKSuggestions[selectedCmdKSuggestionIndex]] of the render it closes
    over. *)
Definition commitRow (now rid : string) (suggestion : option CmdKSuggestion)
  (st : State) : State :=
  let '(st2, shouldCloseCmdK) := runCmdKSuggestion now rid suggestion st in
  if shouldCloseCmdK
  then setSelectedCmdKSuggestionIndex (Js.Num 0) (setIsCmdKMenuOpen false st2)
  else st2.


(** The content the text area editor stores for a note: the processed text
    and the time of the edit. *)
Definition edited (now newText : string) (n : Note) : Note :=
  mkNote (id n) (processText newText) now (workspace n).

(** The keys of "previous workspace": arrow left, or modifier+u. *)
Definition previousWorkspaceKey (e : KeyboardEvent) : Prop :=
  key e = "ArrowLeft" \/ (key e = "u" /\ ctrlKey e || metaKey e = true).

End Vocabulary2.

(** * Properties *)

Unset Implicit Arguments.

(** Evaluates the boolean tests of a handler once the key is known. *)
Ltac key_tests :=
  repeat (rewrite ?Bool.andb_false_r, ?Bool.andb_true_r, ?Bool.orb_false_r,
            ?Bool.orb_true_r; simpl).

(** ** [sortNotes] is a stable sort by recency *)

Section SortFacts.

Context {P : Platform}.

Lemma newer_spec a b : newer a b = true <-> time b < time a.
Proof. unfold newer, time. apply Z.ltb_lt. Qed.

Lemma newer_false a b : newer a b = false <-> time a <= time b.
Proof. unfold newer, time. rewrite Z.ltb_ge. reflexivity. Qed.

Lemma insertNote_perm x l : Permutation (insertNote x l) (x :: l).
Proof.
  induction l as [|y r IH]; simpl.
  - apply Permutation_refl.
  - destruct (newer y x).
    + apply perm_trans with (y :: x :: r).
      * apply perm_skip. exact IH.
      * apply perm_swap.
    + apply Permutation_refl.
Qed.

Lemma sortNotes_perm l : Permutation (sortNotes l) l.
Proof.
  induction l as [|x r IH]; simpl.
  - apply perm_nil.
  - apply perm_trans with (x :: sortNotes r).
    + apply insertNote_perm.
    + apply perm_skip. exact IH.
Qed.

Lemma sortNotes_In x l : In x (sortNotes l) <-> In x l.
Proof.
  split; apply Permutation_in.
  - apply sortNotes_perm.
  - apply Permutation_sym, sortNotes_perm.
Qed.

Lemma sortNotes_length l : List.length (sortNotes l) = List.length l.
Proof. apply Permutation_length, sortNotes_perm. Qed.

Lemma sortNotes_nil l : sortNotes l = [] -> l = [].
Proof.
  intro H. apply Permutation_nil. rewrite <- H.
  apply sortNotes_perm.
Qed.

Lemma insertNote_sorted x l :
  recencySorted l -> recencySorted (insertNote x l).
Proof.
  unfold recencySorted.
  induction l as [|y r IH]; simpl; intro Hs.
  - constructor; [constructor | constructor].
  - inversion Hs as [|? ? Hr Hy]; subst.
    destruct (newer y x) eqn:E.
    + constructor.
      * apply IH. exact Hr.
      * rewrite Forall_forall. intros z Hz.
        apply (Permutation_in _ (insertNote_perm x r)) in Hz.
        destruct Hz as [<- | Hz].
        -- apply newer_spec in E. unfold notOlder. lia.
        -- rewrite Forall_forall in Hy. apply Hy. exact Hz.
    + apply newer_false in E.
      constructor; [exact Hs|].
      constructor; [exact E|].
      rewrite Forall_forall in *. intros z Hz.
      specialize (Hy z Hz). unfold notOlder in *. lia.
Qed.

Lemma sortNotes_sorted l : recencySorted (sortNotes l).
Proof.
  induction l as [|x r IH]; simpl.
  - constructor.
  - apply insertNote_sorted. exact IH.
Qed.

(** A list that is sorted already is left as it is. *)
Lemma sortNotes_id l : recencySorted l -> sortNotes l = l.
Proof.
  unfold recencySorted.
  induction l as [|x r IH]; simpl; intro Hs; [reflexivity|].
  inversion Hs as [|? ? Hr Hx]; subst.
  rewrite (IH Hr).
  destruct r as [|y r']; simpl; [reflexivity|].
  inversion Hx as [|? ? Hxy _]; subst.
  apply newer_false in Hxy. rewrite Hxy. reflexivity.
Qed.

Lemma sortNotes_idem l : sortNotes (sortNotes l) = sortNotes l.
Proof. apply sortNotes_id, sortNotes_sorted. Qed.

(** Stability: the notes of one time stamp keep their relative order. *)
Lemma insertNote_stable t x l :
  filter (fun n => Z.eqb (time n) t) (insertNote x l)
  = filter (fun n => Z.eqb (time n) t) (x :: l).
Proof.
  induction l as [|y r IH]; [reflexivity|].
  simpl insertNote. destruct (newer y x) eqn:E; [|reflexivity].
  apply newer_spec in E.
  simpl in *. rewrite IH.
  destruct (Z.eqb_spec (time y) t), (Z.eqb_spec (time x) t);
    try reflexivity; lia.
Qed.

Lemma sortNotes_stable t l :
  filter (fun n => Z.eqb (time n) t) (sortNotes l)
  = filter (fun n => Z.eqb (time n) t) l.
Proof.
  induction l as [|x r IH]; [reflexivity|].
  simpl sortNotes. rewrite insertNote_stable. simpl. rewrite IH. reflexivity.
Qed.

(** The head of the sorted list is a most recent note. *)
Lemma sortNotes_head x r l :
  sortNotes l = x :: r -> forall n, In n l -> time n <= time x.
Proof.
  intros H n Hn.
  pose proof (sortNotes_sorted l) as Hs. rewrite H in Hs.
  apply sortNotes_In in Hn. rewrite H in Hn.
  destruct Hn as [<- | Hn]; [lia|].
  inversion Hs as [|? ? _ Hx]; subst.
  rewrite Forall_forall in Hx. apply Hx. exact Hn.
Qed.

End SortFacts.

(** ** The suggestion list *)

Section SuggestionFacts.

Context {P : Platform}.

Lemma trimEnd_truthy s : Js.truthy (Js.trimEnd s) = true -> Js.truthy s = true.
Proof. destruct s; simpl; [discriminate | reflexivity]. Qed.

Lemma trimStart_truthy s : Js.truthy (Js.trimStart s) = true -> Js.truthy s = true.
Proof. destruct s; simpl; [discriminate | reflexivity]. Qed.

Lemma slice0_truthy k s : Js.truthy (Js.slice0 k s) = true -> Js.truthy s = true.
Proof. destruct k, s; simpl; try discriminate; reflexivity. Qed.

(** A query that is non-empty after trimming is non-empty. *)
Lemma trimmedQuery_truthy q :
  Js.truthy (trimmedQuery q) = true -> Js.truthy q = true.
Proof.
  intro H. apply trimStart_truthy, trimEnd_truthy.
  exact (slice0_truthy _ _ H).
Qed.

(** C1 (amended).  For a non-empty query the suggestion list, computed
    from any [workspaceNotes] and [availableWorkspaces], is the fuzzy
    matches re-sorted by [updatedAt], most recent first (a permutation of
    the matches, sorted by recency, in which equally recent matches keep
    their match-rank order), followed by the actions: when the trimmed
    query is non-empty create-note, move-to-workspace if a tight match
    exists, create-workspace if no tag equals the trimmed query,
    rename-workspace; then the unlink suggestion if it is offered. *)
Theorem cmdKSuggestions_query (workspaceNotes : list Note)
  (availableWorkspaces : list string) (cmdKSearchQuery : string)
  (database : list Note) (currentNoteId : string) :
  Js.truthy cmdKSearchQuery = true ->
  let matches := Fuse_search notesFuseOptions workspaceNotes cmdKSearchQuery in
  let tight :=
    Fuse_search workspaceFuseOptions availableWorkspaces cmdKSearchQuery in
  let q := trimmedQuery cmdKSearchQuery in
  exists notes actions,
    cmdKSuggestionsOf workspaceNotes availableWorkspaces cmdKSearchQuery
      database currentNoteId
    = (map NoteSuggestion notes ++ actions)%list
    /\ Permutation notes matches
    /\ recencySorted notes
    /\ (forall t, filter (fun n => Z.eqb (time n) t) notes
                  = filter (fun n => Z.eqb (time n) t) matches)
    /\ actions
       = ((if Js.truthy q then
             [createNoteAction q]
             ++ match tight with
                | w :: _ => [moveNoteAction w]
                | [] => []
                end
             ++ (if existsb (fun w => String.eqb w q) availableWorkspaces
                 then [] else [createWorkspaceAction q])
             ++ [renameWorkspaceAction q]
           else [])
          ++ unlinkActions (findNote currentNoteId database) q)%list.
Proof.
  intros Hq matches tight q.
  exists (sortNotes matches).
  eexists. split; [|split; [|split; [|split]]].
  - unfold cmdKSuggestionsOf, matchedNotes, matchedWorkspaces.
    rewrite Hq. reflexivity.
  - apply sortNotes_perm.
  - apply sortNotes_sorted.
  - intro t. apply sortNotes_stable.
  - unfold queryActions. reflexivity.
Qed.

End SuggestionFacts.

Lemma cmdKSuggestions_query_witness :
  Js.truthy (cmdKSearchQuery Ex.searching) = true
  /\ exists notes actions,
       @cmdKSuggestions simple_platform Ex.searching
       = (map NoteSuggestion notes ++ actions)%list
       /\ notes = [Ex.hello2; Ex.hello1]
       /\ actions = [createNoteAction "hello"; createWorkspaceAction "hello";
                     renameWorkspaceAction "hello"].
Proof.
  split; [reflexivity|].
  destruct (@cmdKSuggestions_query simple_platform
              (workspaceNotes Ex.searching)
              (availableWorkspaces Ex.searching)
              (cmdKSearchQuery Ex.searching) (database Ex.searching)
              (currentNoteId Ex.searching) eq_refl)
    as (notes & actions & Hs & _ & _ & _ & Ha).
  exists [Ex.hello2; Ex.hello1], actions.
  split; [|split; [reflexivity|]].
  - rewrite Ha. reflexivity.
  - rewrite Ha. reflexivity.
Defined.

(** C1 as stated fails.  On the query [hello] the matcher ranks the two
    equal notes in store order, and the list shows the more recent one
    first; on a query of one space no action is offered at all. *)
Lemma cmdKSuggestions_not_rank_order :
  (Js.truthy (cmdKSearchQuery Ex.searching) = true
   /\ @Fuse_search simple_platform _ notesFuseOptions
        (workspaceNotes Ex.searching) "hello" = [Ex.hello1; Ex.hello2]
   /\ @cmdKSuggestions simple_platform Ex.searching
      = [NoteSuggestion Ex.hello2; NoteSuggestion Ex.hello1;
         createNoteAction "hello"; createWorkspaceAction "hello";
         renameWorkspaceAction "hello"]
   /\ @cmdKSuggestions simple_platform Ex.searching
      <> @specSuggestions simple_platform Ex.searching)
  /\ (Js.truthy (cmdKSearchQuery Ex.blankQuery) = true
      /\ @cmdKSuggestions simple_platform Ex.blankQuery = []
      /\ @cmdKSuggestions simple_platform Ex.blankQuery
         <> @specSuggestions simple_platform Ex.blankQuery).
Proof.
  repeat split; try reflexivity; vm_compute; discriminate.
Qed.

(** ** Index navigation *)

Section NavigationFacts.

Context {P : Platform}.

(** Arrow down in the open palette: [(selected + 1) % length]. *)
Lemma handleKeyDown_ArrowDown now rid e st :
  key e = "ArrowDown" -> isCmdKMenuOpen st = true ->
  handleKeyDown now rid e st
  = Some (setSelectedCmdKSuggestionIndex
            (Js.remz (Js.addz (selectedCmdKSuggestionIndex st) 1)
               (Z.of_nat (List.length (cmdKSuggestions st)))) st).
Proof.
  intros Hk Ho. unfold handleKeyDown. rewrite Hk, Ho. key_tests.
  reflexivity.
Qed.

(** Arrow up in the open palette: [(selected - 1 + length) % length]. *)
Lemma handleKeyDown_ArrowUp now rid e st :
  key e = "ArrowUp" -> isCmdKMenuOpen st = true ->
  handleKeyDown now rid e st
  = Some (setSelectedCmdKSuggestionIndex
            (Js.remz
               (Js.addz (Js.addz (selectedCmdKSuggestionIndex st) (-1))
                  (Z.of_nat (List.length (cmdKSuggestions st))))
               (Z.of_nat (List.length (cmdKSuggestions st)))) st).
Proof.
  intros Hk Ho. unfold handleKeyDown. rewrite Hk, Ho. key_tests.
  reflexivity.
Qed.

(** Over a non-empty list the arrows move an index that is in range
    cyclically: down to [(i + 1) mod n], up to [(i - 1) mod n]. *)
Lemma navigation_cyclic now rid e st i :
  isCmdKMenuOpen st = true ->
  selectedCmdKSuggestionIndex st = Js.Num i ->
  let n := Z.of_nat (List.length (cmdKSuggestions st)) in
  0 <= i < n ->
  (key e = "ArrowDown" ->
   handleKeyDown now rid e st
   = Some (setSelectedCmdKSuggestionIndex (Js.Num ((i + 1) mod n)) st))
  /\ (key e = "ArrowUp" ->
      handleKeyDown now rid e st
      = Some (setSelectedCmdKSuggestionIndex (Js.Num ((i - 1) mod n)) st)).
Proof.
  intros Ho Hs n Hi. split; intro Hk.
  - rewrite (handleKeyDown_ArrowDown now rid e st Hk Ho), Hs. simpl.
    fold n. destruct (Z.eqb_spec n 0); [lia|].
    rewrite Z.rem_mod_nonneg by lia. reflexivity.
  - rewrite (handleKeyDown_ArrowUp now rid e st Hk Ho), Hs. simpl.
    fold n. destruct (Z.eqb_spec n 0); [lia|].
    rewrite Z.rem_mod_nonneg by lia.
    replace (i + -1 + n) with (i - 1 + 1 * n) by lia.
    rewrite Z.mod_add by lia. reflexivity.
Qed.

(** Over an empty list both arrows store [NaN], the value of [x % 0]. *)
Lemma navigation_empty_NaN now rid e st :
  isCmdKMenuOpen st = true ->
  cmdKSuggestions st = [] ->
  key e = "ArrowDown" \/ key e = "ArrowUp" ->
  handleKeyDown now rid e st
  = Some (setSelectedCmdKSuggestionIndex Js.NaN st).
Proof.
  intros Ho Hn [Hk | Hk].
  - rewrite (handleKeyDown_ArrowDown now rid e st Hk Ho), Hn.
    destruct (selectedCmdKSuggestionIndex st); reflexivity.
  - rewrite (handleKeyDown_ArrowUp now rid e st Hk Ho), Hn.
    destruct (selectedCmdKSuggestionIndex st); reflexivity.
Qed.

End NavigationFacts.

(** C2 (the code departs from the claim).  The palette is open on a query of
    one space, no note contains a space and the active note has no
    workspace: the suggestion list is empty and the selected index is 0.
    Arrow down, and arrow up, leave the index [NaN] instead of leaving it
    unchanged. *)
Theorem navigation_on_empty_list_not_noop :
  isCmdKMenuOpen Ex.blankQuery = true
  /\ @cmdKSuggestions simple_platform Ex.blankQuery = []
  /\ selectedCmdKSuggestionIndex Ex.blankQuery = Js.Num 0
  /\ option_map selectedCmdKSuggestionIndex
       (@step simple_platform (KeyDown Ex.jan9 "r" (Ex.noKey "ArrowDown"))
          Ex.blankQuery) = Some Js.NaN
  /\ option_map selectedCmdKSuggestionIndex
       (@step simple_platform (KeyDown Ex.jan9 "r" (Ex.noKey "ArrowUp"))
          Ex.blankQuery) = Some Js.NaN.
Proof. repeat split; reflexivity. Qed.

(** ** The selected index and the suggestion list *)

Section IndexFacts.

Context {P : Platform}.

(** Index 0 is in range: every transition that resets the index (opening
    the palette, editing the query, changing the workspace filter, the
    create, move and rename actions) establishes the invariant. *)
Lemma index_zero_inRange st :
  selectedCmdKSuggestionIndex st = Js.Num 0 -> indexInRange st.
Proof. intros H Hn. exists 0. split; [exact H | lia]. Qed.

Lemma open_inRange now rid e st st' :
  isCmdKMenuOpen st = false -> isHelpMenuOpen st = false ->
  (key e = "k" \/ key e = "p") -> ctrlKey e || metaKey e = true ->
  handleKeyDown now rid e st = Some st' ->
  isCmdKMenuOpen st' = true /\ cmdKSearchQuery st' = "" /\ indexInRange st'.
Proof.
  intros Ho Hh Hk Hm. unfold handleKeyDown. rewrite Ho, Hh, Hm.
  destruct Hk as [-> | ->]; simpl; intro H; inversion H; subst; clear H;
    (split; [reflexivity | split; [reflexivity |]]);
    apply index_zero_inRange; reflexivity.
Qed.

Lemma queryChange_inRange value st : indexInRange (onQueryChange value st).
Proof. apply index_zero_inRange. reflexivity. Qed.

(** The arrows keep an index that is in range in range. *)
Lemma navigation_inRange now rid e st st' :
  isCmdKMenuOpen st = true ->
  key e = "ArrowDown" \/ key e = "ArrowUp" ->
  0 < Z.of_nat (List.length (cmdKSuggestions st)) ->
  indexInRange st ->
  handleKeyDown now rid e st = Some st' ->
  indexInRange st'.
Proof.
  intros Ho Hk Hn Hi H.
  destruct (Hi Hn) as (i & Hs & Hr).
  destruct (navigation_cyclic now rid e st i Ho Hs Hr) as [Hd Hu].
  assert (Hm : forall j, 0 <= j mod Z.of_nat (List.length (cmdKSuggestions st))
                         < Z.of_nat (List.length (cmdKSuggestions st)))
    by (intro j; apply Z.mod_pos_bound; lia).
  destruct Hk as [Hk | Hk];
    [rewrite (Hd Hk) in H | rewrite (Hu Hk) in H];
    inversion H; subst; clear H; intros _; eexists; (split; [reflexivity|]);
    apply Hm.
Qed.

(** C3 (the code departs from the claim).  From a closed palette over one
    note tagged [w] under the filter [w]: open the palette, arrow down to
    the unlink suggestion (index 1 of 2, in range), Enter.  The unlink
    action keeps the palette open and does not reset the index; the list
    that remains has one entry and the index is still 1. *)
Theorem commit_unlink_leaves_index_out_of_range (now rid : string) :
  exists st1 st2,
    run (firstn 2 (Ex.unlinkTrace now rid)) Ex.taggedClosed = Some st1
    /\ List.length (cmdKSuggestions st1) = 2%nat
    /\ selectedCmdKSuggestionIndex st1 = Js.Num 1
    /\ indexInRange st1
    /\ step (KeyDown now rid (Ex.noKey "Enter")) st1 = Some st2
    /\ run (Ex.unlinkTrace now rid) Ex.taggedClosed = Some st2
    /\ isCmdKMenuOpen st2 = true
    /\ List.length (cmdKSuggestions st2) = 1%nat
    /\ selectedCmdKSuggestionIndex st2 = Js.Num 1
    /\ ~ indexInRange st2.
Proof.
  exists (mkState [Ex.tagged] (Some "w") "a" "hello" (Js.Num 1) ""
            true false false [] ["w"] false).
  exists (mkState [mkNote "a" "hello" Ex.jan1 None] None "a" "hello"
            (Js.Num 1) "" true false false [] ["w"] false).
  split; [vm_compute; reflexivity|].
  split; [vm_compute; reflexivity|].
  split; [reflexivity|].
  split; [intros _; exists 1; split; [reflexivity|];
          vm_compute; split; [intro X; discriminate X | reflexivity]|].
  split; [vm_compute; reflexivity|].
  split; [vm_compute; reflexivity|].
  split; [reflexivity|].
  split; [vm_compute; reflexivity|].
  split; [reflexivity|].
  intro H. destruct H as (i & Hi & _ & Hr); [vm_compute; reflexivity|].
  inversion Hi; subst. vm_compute in Hr. discriminate.
Qed.

End IndexFacts.

(** ** Looking a note up by id *)

Section LookupFacts.

Context {P : Platform}.

Lemma findNote_Some i l n : findNote i l = Some n -> In n l /\ id n = i.
Proof.
  unfold findNote. intro H. apply find_some in H.
  destruct H as [Hin He]. apply String.eqb_eq in He. auto.
Qed.

Lemma findNote_None i l :
  findNote i l = None <-> forall n, In n l -> id n <> i.
Proof.
  unfold findNote. split.
  - intros H n Hn He.
    pose proof (find_none _ _ H n Hn) as Hf. simpl in Hf.
    apply String.eqb_neq in Hf. contradiction.
  - intro H. induction l as [|a r IH]; [reflexivity|]. simpl.
    destruct (String.eqb_spec (id a) i) as [He | _].
    + exfalso. apply (H a); [left; reflexivity | exact He].
    + apply IH. intros n Hn. apply H. right. exact Hn.
Qed.

Lemma findNote_In i l n : In n l -> id n = i -> findNote i l <> None.
Proof.
  intros Hn He H. rewrite findNote_None in H. exact (H n Hn He).
Qed.

(** Whether an id is found does not depend on the order of the list. *)
Lemma findNote_None_perm i l l' :
  Permutation l l' -> findNote i l = None -> findNote i l' = None.
Proof.
  intros Hp. rewrite !findNote_None. intros H n Hn.
  apply H. apply (Permutation_in _ (Permutation_sym Hp)). exact Hn.
Qed.

Lemma findNote_None_sort i l :
  findNote i (sortNotes l) = None <-> findNote i l = None.
Proof.
  split; apply findNote_None_perm.
  - apply sortNotes_perm.
  - apply Permutation_sym, sortNotes_perm.
Qed.

(** With unique ids, a note is determined by its id. *)
Lemma unique_id l a b :
  NoDup (map id l) -> In a l -> In b l -> id a = id b -> a = b.
Proof.
  induction l as [|x r IH]; simpl; [contradiction|].
  intros Hnd Ha Hb He. inversion Hnd as [|? ? Hx Hr]; subst.
  destruct Ha as [<- | Ha], Hb as [<- | Hb].
  - reflexivity.
  - exfalso. apply Hx. rewrite He. apply in_map. exact Hb.
  - exfalso. apply Hx. rewrite <- He. apply in_map. exact Ha.
  - apply IH; assumption.
Qed.

Lemma NoDup_map_filter (f : Note -> bool) l :
  NoDup (map id l) -> NoDup (map id (filter f l)).
Proof.
  induction l as [|x r IH]; simpl; intro H; [constructor|].
  inversion H as [|? ? Hx Hr]; subst.
  destruct (f x); simpl; [constructor|]; auto.
  intro Hin. apply Hx. apply in_map_iff in Hin.
  destruct Hin as (y & Hy & Hf). apply filter_In in Hf.
  rewrite <- Hy. apply in_map. tauto.
Qed.

Lemma workspaceNotesOf_In n db w :
  In n (workspaceNotesOf db w) -> In n db.
Proof.
  destruct w; simpl; [|auto]. intro H. apply filter_In in H. tauto.
Qed.

(** The two outcomes of the effect on the active note. *)
Lemma currentNoteEffect_found st n :
  findNote (currentNoteId st) (renderedWorkspaceNotes st) = Some n ->
  exists st',
    currentNoteEffect st = Some st'
    /\ currentNoteId st' = currentNoteId st
    /\ sameButActiveNote st st'.
Proof.
  intro H. unfold currentNoteEffect. rewrite H.
  eexists. split; [reflexivity|]. split; [reflexivity|].
  repeat split.
Qed.

Lemma currentNoteEffect_fallback st n0 r :
  renderedWorkspaceNotes st = n0 :: r ->
  findNote (currentNoteId st) (n0 :: r) = None ->
  exists st',
    currentNoteEffect st = Some st'
    /\ currentNoteId st' = id n0
    /\ sameButActiveNote st st'.
Proof.
  intros Hr H. unfold currentNoteEffect. rewrite Hr, H.
  eexists. split; [reflexivity|]. split; [reflexivity|].
  repeat split.
Qed.

Lemma renderedWorkspaceNotes_perm st :
  Permutation (renderedWorkspaceNotes st) (workspaceNotes st).
Proof.
  unfold renderedWorkspaceNotes. destruct (Js.truthy (cmdKSearchQuery st)).
  - apply Permutation_refl.
  - apply sortNotes_perm.
Qed.

Lemma workspaceNotesOf_In_iff n db w :
  In n (workspaceNotesOf db w)
  <-> In n db /\ (w = None \/ workspace_is (workspace n) w = true).
Proof.
  destruct w as [w|]; simpl.
  - rewrite filter_In. split; intros [H1 H2]; split; auto.
    destruct H2 as [H2 | H2]; [discriminate | exact H2].
  - split; [auto | tauto].
Qed.

(** The filtered list of a reordered store is the filtered list,
    reordered. *)
Lemma workspaceNotesOf_perm_In db db' w n :
  Permutation db db' ->
  In n (workspaceNotesOf db w) -> In n (workspaceNotesOf db' w).
Proof.
  intros Hp. rewrite !workspaceNotesOf_In_iff. intros [H1 H2].
  split; [|exact H2]. apply (Permutation_in _ Hp). exact H1.
Qed.

End LookupFacts.

(** ** Rendering *)

Section RenderFacts.

Context {P : Platform}.

Lemma sortedByRender_perm st : Permutation (sortedByRender st) (database st).
Proof.
  unfold sortedByRender. destruct (currentWorkspace st);
    [apply Permutation_refl|].
  destruct (Js.truthy (cmdKSearchQuery st)); [apply Permutation_refl|].
  apply sortNotes_perm.
Qed.

Lemma render_database st : Permutation (database (render st)) (database st).
Proof.
  unfold render. destruct (databaseReplaced st); apply sortedByRender_perm.
Qed.

(** Under a workspace filter the stored list is left as it is. *)
Lemma render_database_filter st w :
  currentWorkspace st = Some w -> database (render st) = database st.
Proof.
  intro Hw. unfold render, sortedByRender.
  destruct (databaseReplaced st); simpl; rewrite Hw; reflexivity.
Qed.

(** Rendering touches the order of the stored list and the memo, nothing
    else. *)
Lemma render_frame st :
  currentWorkspace (render st) = currentWorkspace st
  /\ currentNoteId (render st) = currentNoteId st
  /\ selectedCmdKSuggestionIndex (render st) = selectedCmdKSuggestionIndex st
  /\ cmdKSearchQuery (render st) = cmdKSearchQuery st
  /\ isCmdKMenuOpen (render st) = isCmdKMenuOpen st
  /\ hasVimNavigated (render st) = hasVimNavigated st
  /\ freshlyDeletedNotes (render st) = freshlyDeletedNotes st.
Proof.
  unfold render. destruct (databaseReplaced st); repeat split.
Qed.

(** The memo after a render: computed from the new array, or kept. *)
Lemma render_memo st :
  databaseReplaced (render st) = false
  /\ availableWorkspaces (render st)
     = if databaseReplaced st then availableWorkspacesOf (database st)
       else availableWorkspaces st.
Proof.
  unfold render. destruct (databaseReplaced st); split; reflexivity.
Qed.

End RenderFacts.

(** ** Deleting the active note *)

Section DeleteFacts.

Context {P : Platform}.

Lemma workspaceNotesOf_nil w : workspaceNotesOf [] w = [].
Proof. destruct w; reflexivity. Qed.

Lemma workspaceNotesOf_cons_in n0 rest w :
  workspace_is (workspace n0) (Some w) = true ->
  workspaceNotesOf (n0 :: rest) (Some w)
  = n0 :: workspaceNotesOf rest (Some w).
Proof. intro H. unfold workspaceNotesOf. cbn [filter]. rewrite H. reflexivity. Qed.

Lemma workspaceNotesOf_cons_out n0 rest w :
  workspace_is (workspace n0) (Some w) = false ->
  workspaceNotesOf (n0 :: rest) (Some w) = workspaceNotesOf rest (Some w).
Proof. intro H. unfold workspaceNotesOf. cbn [filter]. rewrite H. reflexivity. Qed.

Lemma workspaceNotesOf_is n db w :
  In n (workspaceNotesOf db (Some w)) ->
  workspace_is (workspace n) (Some w) = true.
Proof. unfold workspaceNotesOf. intro H. apply filter_In in H. tauto. Qed.

(** The state [deleteNote] leaves when the deleted note is the active one
    and another note remains in the store. *)
Lemma deleteNote_current st noteId d n0 rest :
  currentNoteId st = noteId ->
  findNote noteId (database st) = Some d ->
  filter (fun n => negb (String.eqb (id n) noteId)) (database st) = n0 :: rest ->
  deleteNote noteId st
  = setTextValue (content n0)
      (setCurrentNoteId (id n0)
         (setDatabase (n0 :: rest)
            (setFreshlyDeletedNotes (freshlyDeletedNotes st ++ [d])%list st))).
Proof.
  intros Hc Hf Hu. unfold deleteNote. rewrite Hf, Hu, Hc, String.eqb_refl.
  reflexivity.
Qed.

(** C4 (amended).  In a store with unique ids, deleting the active note
    while another note remains in the current workspace filter removes the
    note, pushes it on the deletion stack, and leaves a remaining note of
    the filter active: the first remaining note of the store when it is in
    the filter (it is then the first of the filter in store order), and
    otherwise the first entry of the filtered list as it is rendered, in
    store order under a non-empty query and sorted by recency under an empty
    one. *)
Theorem deleteNote_active (st : State) (noteId : string) (d : Note) :
  NoDup (map id (database st)) ->
  currentNoteId st = noteId ->
  findNote noteId (database st) = Some d ->
  let updatedDatabase :=
    filter (fun n => negb (String.eqb (id n) noteId)) (database st) in
  let remaining := workspaceNotesOf updatedDatabase (currentWorkspace st) in
  remaining <> [] ->
  exists st' n0 rest,
    step (ClickDelete noteId) st = Some st'
    /\ freshlyDeletedNotes st' = (freshlyDeletedNotes st ++ [d])%list
    /\ Permutation (database st') updatedDatabase
    /\ currentWorkspace st' = currentWorkspace st
    /\ (exists a, In a remaining /\ currentNoteId st' = id a)
    /\ updatedDatabase = n0 :: rest
    /\ (In n0 remaining ->
        currentNoteId st' = id n0 /\ specActiveAfterDelete remaining = id n0)
    /\ (~ In n0 remaining ->
        currentNoteId st'
        = specActiveAfterDelete
            (if Js.truthy (cmdKSearchQuery st) then remaining
             else sortNotes remaining)).
Proof.
  intros Hnd Hc Hf. cbv zeta.
  assert (Hupd : NoDup (map id (filter
                                  (fun n => negb (String.eqb (id n) noteId))
                                  (database st))))
    by (apply NoDup_map_filter; exact Hnd).
  destruct (filter (fun n => negb (String.eqb (id n) noteId)) (database st))
    as [|n0 rest] eqn:Hu.
  { intro Hrem. exfalso. apply Hrem. apply workspaceNotesOf_nil. }
  unfold step, handle. rewrite (deleteNote_current st noteId d n0 rest Hc Hf Hu).
  set (st1 := setTextValue _ _).
  unfold settle. set (st2 := render st1).
  destruct (render_frame st1) as (Hcw2 & Hid2 & _ & Hq2 & _ & _ & Hst2).
  fold st2 in Hcw2, Hid2, Hq2, Hst2.
  change (currentWorkspace st1) with (currentWorkspace st) in Hcw2.
  change (currentNoteId st1) with (id n0) in Hid2.
  change (cmdKSearchQuery st1) with (cmdKSearchQuery st) in Hq2.
  change (freshlyDeletedNotes st1)
    with (freshlyDeletedNotes st ++ [d])%list in Hst2.
  assert (Hdb2 : Permutation (database st2) (n0 :: rest))
    by (apply (render_database st1)).
  set (rem := workspaceNotesOf (n0 :: rest) (currentWorkspace st)).
  intro Hrem.
  assert (Hperm : forall m, In m (renderedWorkspaceNotes st2) <-> In m rem).
  { intro m. split; intro Hm.
    - apply (Permutation_in _ (renderedWorkspaceNotes_perm st2)) in Hm.
      unfold workspaceNotes in Hm. rewrite Hcw2 in Hm.
      apply workspaceNotesOf_perm_In with (db := database st2); assumption.
    - apply (Permutation_in _ (Permutation_sym
                                 (renderedWorkspaceNotes_perm st2))).
      unfold workspaceNotes. rewrite Hcw2.
      apply workspaceNotesOf_perm_In with (db := n0 :: rest);
        [apply Permutation_sym; exact Hdb2 | exact Hm]. }
  assert (Hfound :
            In n0 rem ->
            exists st',
              currentNoteEffect st2 = Some st'
              /\ currentNoteId st' = id n0
              /\ sameButActiveNote st2 st').
  { intro Hin.
    destruct (findNote (currentNoteId st2) (renderedWorkspaceNotes st2))
      as [m|] eqn:Hfind.
    - destruct (currentNoteEffect_found st2 m Hfind) as (st' & He & Hid & Hs).
      exists st'. rewrite Hid. auto.
    - exfalso. revert Hfind.
      apply findNote_In with (n := n0); [|symmetry; exact Hid2].
      apply Hperm. exact Hin. }
  assert (Hclose :
            forall st' a,
              currentNoteEffect st2 = Some st' ->
              sameButActiveNote st2 st' ->
              In a rem -> currentNoteId st' = id a ->
              freshlyDeletedNotes st' = (freshlyDeletedNotes st ++ [d])%list
              /\ Permutation (database st') (n0 :: rest)
              /\ currentWorkspace st' = currentWorkspace st
              /\ (exists a, In a rem /\ currentNoteId st' = id a)).
  { intros st' a _ (Hdb & Hcw & _ & _ & _ & _ & _ & Hst & _) Ha Hida.
    split; [rewrite Hst; exact Hst2|].
    split; [rewrite Hdb; exact Hdb2|].
    split; [rewrite Hcw; exact Hcw2|].
    exists a. auto. }
  destruct (currentWorkspace st) as [w|] eqn:Hw.
  - (* a workspace filter *)
    destruct (workspace_is (workspace n0) (Some w)) eqn:Hn0.
    + (* the first remaining note is in the filter *)
      assert (Hin : In n0 rem)
        by (subst rem; rewrite workspaceNotesOf_cons_in by exact Hn0;
            left; reflexivity).
      destruct (Hfound Hin) as (st' & He & Hid & Hs).
      destruct (Hclose st' n0 He Hs Hin Hid) as (H1 & H2 & H3 & H4).
      exists st', n0, rest.
      repeat (split; [assumption|]). split; [reflexivity|]. split.
      * intros _. split; [exact Hid|].
        subst rem. rewrite workspaceNotesOf_cons_in by exact Hn0. reflexivity.
      * intro Hnot. contradiction.
    + (* the first remaining note is outside the filter *)
      assert (Hnin : ~ In n0 rem).
      { subst rem. intro Hin. apply workspaceNotesOf_is in Hin.
        rewrite Hin in Hn0. discriminate. }
      assert (Hfind : findNote (currentNoteId st2) (renderedWorkspaceNotes st2)
                      = None).
      { apply findNote_None. intros m Hm He. apply Hnin.
        apply Hperm in Hm.
        assert (m = n0); [|subst m; exact Hm].
        apply unique_id with (l := n0 :: rest);
          [exact Hupd
          | subst rem; apply workspaceNotesOf_In in Hm; exact Hm
          | left; reflexivity
          | rewrite He; exact Hid2]. }
      assert (Hrw : renderedWorkspaceNotes st2
                    = if Js.truthy (cmdKSearchQuery st) then rem
                      else sortNotes rem).
      { unfold renderedWorkspaceNotes, workspaceNotes.
        rewrite Hq2, Hcw2.
        subst st2. rewrite (render_database_filter st1 w Hw). reflexivity. }
      assert (Hne : exists r0 rr, renderedWorkspaceNotes st2 = r0 :: rr).
      { destruct (renderedWorkspaceNotes st2) as [|r0 rr] eqn:E; [|eauto].
        exfalso. destruct rem as [|a rem'] eqn:Er; [contradiction|].
        assert (Ha : In a (@nil Note)) by (apply Hperm; left; reflexivity).
        contradiction. }
      destruct Hne as (r0 & rr & Hrn).
      rewrite Hrn in Hfind.
      destruct (currentNoteEffect_fallback st2 r0 rr Hrn Hfind)
        as (st' & He & Hid & Hs).
      assert (Hr0 : In r0 rem) by (apply Hperm; rewrite Hrn; left; reflexivity).
      destruct (Hclose st' r0 He Hs Hr0 Hid) as (H1 & H2 & H3 & H4).
      exists st', n0, rest.
      repeat (split; [assumption|]). split; [reflexivity|]. split.
      * intro Hin. contradiction.
      * intros _. rewrite Hid, <- Hrw, Hrn. reflexivity.
  - (* all notes *)
    assert (Hin : In n0 rem) by (subst rem; left; reflexivity).
    destruct (Hfound Hin) as (st' & He & Hid & Hs).
    destruct (Hclose st' n0 He Hs Hin Hid) as (H1 & H2 & H3 & H4).
    exists st', n0, rest.
    repeat (split; [assumption|]). split; [reflexivity|]. split.
    + intros _. split; [exact Hid | reflexivity].
    + intro Hnot. contradiction.
Qed.

End DeleteFacts.

Lemma deleteNote_active_witness :
  exists st',
    @step simple_platform (ClickDelete "a") Ex.deleteBehindUntagged = Some st'
    /\ freshlyDeletedNotes st' = [Ex.wa]
    /\ currentNoteId st' = "c".
Proof.
  destruct (@deleteNote_active simple_platform Ex.deleteBehindUntagged "a" Ex.wa)
    as (st' & n0 & rest & Hs & Hf & _ & _ & _ & Hu & _ & Hout).
  - repeat constructor; simpl; intuition discriminate.
  - reflexivity.
  - reflexivity.
  - discriminate.
  - exists st'. split; [exact Hs|]. split; [exact Hf|].
    vm_compute in Hu. inversion Hu; subst n0 rest.
    rewrite Hout; [reflexivity|].
    simpl. intuition discriminate.
Defined.

(** C4 as stated fails.  Under the filter [w] and an empty query:
    behind a first store note outside the filter, the note that becomes
    active is the most recent of the filter, not its first in store order;
    when every note is in the filter, it is the first in store order, not
    the first of the list as rendered; and when no note remains in the
    filter, [deleteNote] activates a note outside the filter and the effect
    on the active note throws. *)
Lemma deleteNote_active_not_first_in_filter :
  (exists st',
      @step simple_platform (ClickDelete "a") Ex.deleteBehindUntagged = Some st'
      /\ workspaceNotes st' = [Ex.wb; Ex.wc]
      /\ specActiveAfterDelete (workspaceNotes st') = "b"
      /\ currentNoteId st' = "c")
  /\ (exists st',
         @step simple_platform (ClickDelete "a") Ex.deleteOldest = Some st'
         /\ @renderedWorkspaceNotes simple_platform st' = [Ex.wc; Ex.wb]
         /\ specActiveAfterDelete (@renderedWorkspaceNotes simple_platform st')
            = "c"
         /\ currentNoteId st' = "b")
  /\ (workspaceNotes (deleteNote "a" Ex.deleteLastOfWorkspace) = []
      /\ specActiveAfterDelete
           (workspaceNotes (deleteNote "a" Ex.deleteLastOfWorkspace)) = ""
      /\ currentNoteId (deleteNote "a" Ex.deleteLastOfWorkspace) = "x"
      /\ @step simple_platform (ClickDelete "a") Ex.deleteLastOfWorkspace
         = None).
Proof.
  split; [|split].
  - eexists. split; [reflexivity|]. repeat split.
  - eexists. split; [reflexivity|]. repeat split.
  - repeat split.
Qed.

(** ** Rendering and the effect on the active note *)

Section SettleFacts.

Context {P : Platform}.

(** When the filter holds a note the effect on the active note succeeds, and
    it changes the active note only. *)
Lemma settle_succeeds st n :
  In n (workspaceNotes st) ->
  exists st', settle st = Some st' /\ sameButActiveNote (render st) st'.
Proof.
  intro Hn. unfold settle.
  assert (Hr : In n (renderedWorkspaceNotes (render st))).
  { apply (Permutation_in _ (Permutation_sym
                               (renderedWorkspaceNotes_perm (render st)))).
    unfold workspaceNotes in *.
    destruct (render_frame st) as (-> & _).
    apply workspaceNotesOf_perm_In with (db := database st); [|exact Hn].
    apply Permutation_sym, render_database. }
  destruct (findNote (currentNoteId (render st))
              (renderedWorkspaceNotes (render st))) as [m|] eqn:Hf.
  - destruct (currentNoteEffect_found _ _ Hf) as (st' & He & _ & Hs).
    exists st'. split; assumption.
  - destruct (renderedWorkspaceNotes (render st)) as [|r0 rr] eqn:Hrn;
      [contradiction|].
    destruct (currentNoteEffect_fallback _ _ _ Hrn Hf) as (st' & He & _ & Hs).
    exists st'. split; assumption.
Qed.

(** A render whose effect succeeded left a note in the filter. *)
Lemma settle_Some st st' :
  settle st = Some st' ->
  sameButActiveNote (render st) st' /\ exists n, In n (workspaceNotes st').
Proof.
  unfold settle, currentNoteEffect. intro H.
  destruct (findNote (currentNoteId (render st))
              (renderedWorkspaceNotes (render st))) as [m|] eqn:Hf.
  - inversion H; subst; clear H. split; [repeat split|].
    exists m. apply findNote_Some in Hf. destruct Hf as [Hin _].
    apply (Permutation_in _ (renderedWorkspaceNotes_perm (render st))) in Hin.
    exact Hin.
  - destruct (renderedWorkspaceNotes (render st)) as [|r0 rr] eqn:Hrn;
      [discriminate|].
    inversion H; subst; clear H. split; [repeat split|].
    exists r0.
    apply (Permutation_in _ (renderedWorkspaceNotes_perm (render st))).
    rewrite Hrn. left; reflexivity.
Qed.

End SettleFacts.

(** ** Undo *)

Section UndoFacts.

Context {P : Platform}.

(** Modifier+Z in the open palette with a non-empty stack: the top of the
    stack goes back into the store, which is sorted. *)
Lemma handleKeyDown_undo now rid e st stack d :
  key e = "z" -> ctrlKey e || metaKey e = true ->
  isCmdKMenuOpen st = true ->
  freshlyDeletedNotes st = (stack ++ [d])%list ->
  handleKeyDown now rid e st
  = Some (setDatabase (sortNotes (database st ++ [d])%list)
            (setFreshlyDeletedNotes stack st)).
Proof.
  intros Hk Hm Ho Hs. unfold handleKeyDown. rewrite Hk, Hm, Ho, Hs.
  key_tests. rewrite length_app, Nat.add_comm. simpl.
  rewrite rev_unit, rev_involutive. reflexivity.
Qed.

(** Modifier+Z with an empty stack changes nothing, whether the palette is
    open or closed. *)
Lemma handleKeyDown_undo_empty now rid e st :
  key e = "z" -> ctrlKey e || metaKey e = true ->
  freshlyDeletedNotes st = [] ->
  handleKeyDown now rid e st = Some st.
Proof.
  intros Hk Hm Hs. unfold handleKeyDown.
  rewrite Hk, Hm, Hs. cbn -[cycleWorkspace cmdKSuggestions].
  rewrite !Bool.andb_false_r. cbn -[cycleWorkspace cmdKSuggestions].
  destruct (isCmdKMenuOpen st); [|reflexivity].
  unfold cycleWorkspace. rewrite Hk.
  destruct (indexOf (currentWorkspace st)
              (navigableWorkspaces st)); reflexivity.
Qed.

Lemma deleteNote_found st noteId d :
  findNote noteId (database st) = Some d ->
  database (deleteNote noteId st)
  = filter (fun n => negb (String.eqb (id n) noteId)) (database st)
  /\ freshlyDeletedNotes (deleteNote noteId st)
     = (freshlyDeletedNotes st ++ [d])%list
  /\ currentWorkspace (deleteNote noteId st) = currentWorkspace st
  /\ isCmdKMenuOpen (deleteNote noteId st) = isCmdKMenuOpen st.
Proof.
  intro Hf. unfold deleteNote. rewrite Hf.
  destruct (String.eqb (currentNoteId st) noteId);
    [destruct (filter _ (database st))|]; repeat split.
Qed.

(** The lookup of an id that one note of the list carries. *)
Lemma findNote_unique i l d u :
  Permutation l (d :: u) -> id d = i -> (forall n, In n u -> id n <> i) ->
  findNote i l = Some d.
Proof.
  intros Hp Hd Hu.
  destruct (findNote i l) as [m|] eqn:Hf.
  - apply findNote_Some in Hf. destruct Hf as [Hin Hm].
    apply (Permutation_in _ Hp) in Hin. destruct Hin as [<- | Hin].
    + reflexivity.
    + exfalso. exact (Hu m Hin Hm).
  - exfalso. revert Hf. apply findNote_In with (n := d); [|exact Hd].
    apply (Permutation_in _ (Permutation_sym Hp)). left; reflexivity.
Qed.

(** C5.  Modifier+Z right after the deletion of a note puts back the very
    record that was removed: looking its id up in the store gives the
    deleted note, the store is the remaining notes and that note, and the
    deletion stack is what it was before the deletion.  With an empty
    deletion stack modifier+Z leaves the whole state, store and stack
    included, as it is. *)
Theorem undo_after_delete (now rid : string) (e : KeyboardEvent) :
  key e = "z" -> ctrlKey e || metaKey e = true ->
  (forall st noteId d st1,
      isCmdKMenuOpen st = true ->
      findNote noteId (database st) = Some d ->
      step (ClickDelete noteId) st = Some st1 ->
      exists st2,
        step (KeyDown now rid e) st1 = Some st2
        /\ findNote noteId (database st2) = Some d
        /\ Permutation (database st2)
             (d :: filter (fun n => negb (String.eqb (id n) noteId))
                     (database st))
        /\ freshlyDeletedNotes st2 = freshlyDeletedNotes st)
  /\ (forall st,
         freshlyDeletedNotes st = [] ->
         handleKeyDown now rid e st = Some st).
Proof.
  intros Hk Hm. split.
  - intros st noteId d st1 Ho Hf Hstep.
    unfold step, handle in Hstep.
    destruct (deleteNote_found st noteId d Hf) as (Hdb0 & Hst0 & Hcw0 & Ho0).
    apply settle_Some in Hstep.
    destruct Hstep
      as ((Hdb1 & Hcw1 & _ & _ & Ho1 & _ & _ & Hst1 & _) & (m & Hm1)).
    destruct (render_frame (deleteNote noteId st))
      as (Hrcw & _ & _ & _ & Hro & _ & Hrst).
    assert (Hperm1 : Permutation (database st1)
                       (filter (fun n => negb (String.eqb (id n) noteId))
                          (database st))).
    { rewrite Hdb1, <- Hdb0. apply render_database. }
    assert (Hstack : freshlyDeletedNotes st1
                     = (freshlyDeletedNotes st ++ [d])%list)
      by (rewrite Hst1, Hrst; exact Hst0).
    assert (Hopen : isCmdKMenuOpen st1 = true)
      by (rewrite Ho1, Hro, Ho0; exact Ho).
    unfold step, handle.
    rewrite (handleKeyDown_undo now rid e st1 _ d Hk Hm Hopen Hstack).
    set (su := setDatabase _ _).
    assert (Hpu : Permutation (database su)
                    (d :: filter (fun n => negb (String.eqb (id n) noteId))
                            (database st))).
    { subst su. cbn [database setDatabase].
      apply perm_trans with (database st1 ++ [d])%list;
        [apply sortNotes_perm|].
      apply perm_trans with (d :: database st1);
        [apply Permutation_sym, Permutation_cons_append|].
      apply perm_skip. exact Hperm1. }
    assert (Hmu : In m (workspaceNotes su)).
    { unfold workspaceNotes in *. subst su.
      cbn [database currentWorkspace setDatabase setFreshlyDeletedNotes].
      apply workspaceNotesOf_In_iff in Hm1. destruct Hm1 as [Hin Hw].
      apply workspaceNotesOf_In_iff. split; [|exact Hw].
      apply sortNotes_In. apply in_or_app. left. exact Hin. }
    destruct (settle_succeeds su m Hmu)
      as (st2 & Hs2 & Hdb2 & _ & _ & _ & _ & _ & _ & Hst2 & _).
    exists st2. split; [exact Hs2|].
    assert (Hp2 : Permutation (database st2)
                    (d :: filter (fun n => negb (String.eqb (id n) noteId))
                            (database st))).
    { rewrite Hdb2. apply perm_trans with (database su);
        [apply render_database | exact Hpu]. }
    split; [|split; [exact Hp2|]].
    + apply findNote_unique with (1 := Hp2).
      * apply findNote_Some in Hf. tauto.
      * intros n Hn He. apply filter_In in Hn. destruct Hn as [_ Hn].
        rewrite He, String.eqb_refl in Hn. discriminate.
    + rewrite Hst2. destruct (render_frame su) as (_ & _ & _ & _ & _ & _ & ->).
      reflexivity.
  - intros st Hs. exact (handleKeyDown_undo_empty now rid e st Hk Hm Hs).
Qed.

End UndoFacts.

Lemma undo_after_delete_witness :
  exists st1 st2,
    @step simple_platform (ClickDelete "a") Ex.deleteOldest = Some st1
    /\ @step simple_platform (KeyDown Ex.jan9 "r" (Ex.ctrlKeyDown "z")) st1
       = Some st2
    /\ findNote "a" (database st2) = Some Ex.wa
    /\ freshlyDeletedNotes st2 = []
    /\ @handleKeyDown simple_platform Ex.jan9 "r" (Ex.ctrlKeyDown "z")
         Ex.deleteOldest = Some Ex.deleteOldest.
Proof.
  destruct (@undo_after_delete simple_platform Ex.jan9 "r" (Ex.ctrlKeyDown "z")
              eq_refl eq_refl) as [H1 H2].
  pose (st1 := match @step simple_platform (ClickDelete "a") Ex.deleteOldest
               with Some s => s | None => Ex.deleteOldest end).
  destruct (H1 Ex.deleteOldest "a" Ex.wa st1 eq_refl eq_refl eq_refl)
    as (st2 & Hs & Hf & _ & Hst).
  exists st1, st2.
  split; [reflexivity|]. split; [exact Hs|]. split; [exact Hf|].
  split; [exact Hst|].
  apply H2. reflexivity.
Defined.

(** ** Renaming a workspace *)

Section RenameFacts.

Context {P : Platform}.

Lemma workspace_is_spec w cw :
  workspace_is w cw = true <-> exists c, cw = Some c /\ w = Some c.
Proof.
  unfold workspace_is. destruct cw as [c|], w as [x|]; split;
    try discriminate; try (intros (c' & H1 & H2); discriminate).
  - intro H. apply String.eqb_eq in H. subst. exists c. auto.
  - intros (c' & H1 & H2). inversion H1; inversion H2; subst.
    apply String.eqb_refl.
Qed.

(** With a non-empty trimmed query the rename action is offered. *)
Lemma rename_offered st :
  Js.truthy (trimmedQuery (cmdKSearchQuery st)) = true ->
  In (renameWorkspaceAction (trimmedQuery (cmdKSearchQuery st)))
     (cmdKSuggestions st).
Proof.
  intro Hq. unfold cmdKSuggestions, cmdKSuggestionsOf, queryActions.
  rewrite Hq. apply in_or_app. right. apply in_or_app. left.
  apply in_or_app. right. apply in_or_app. right. apply in_or_app. right.
  left. reflexivity.
Qed.

(** C6.  With a non-empty (trimmed) query [q] the rename-workspace action is
    offered, and its effect keeps the palette open, switches the filter to
    [q] and changes the store position by position: a note whose workspace
    is the tag of the active filter gets the workspace [q] and keeps its
    other fields, every other note is left as it is (under the "all" filter
    that is every note). *)
Theorem rename_retags_active_workspace (now rid : string) (st : State) :
  Js.truthy (trimmedQuery (cmdKSearchQuery st)) = true ->
  let q := trimmedQuery (cmdKSearchQuery st) in
  let result :=
    runCmdKSuggestion now rid (Some (renameWorkspaceAction q)) st in
  In (renameWorkspaceAction q) (cmdKSuggestions st)
  /\ snd result = false
  /\ currentWorkspace (fst result) = Some q
  /\ List.length (database (fst result)) = List.length (database st)
  /\ forall i n,
       nth_error (database st) i = Some n ->
       ((exists c, currentWorkspace st = Some c /\ workspace n = Some c) ->
        nth_error (database (fst result)) i
        = Some (mkNote (id n) (content n) (updatedAt n) (Some q)))
       /\ (~ (exists c, currentWorkspace st = Some c /\ workspace n = Some c) ->
           nth_error (database (fst result)) i = Some n).
Proof.
  intros Hq q result.
  split; [apply rename_offered; exact Hq|].
  split; [reflexivity|]. split; [reflexivity|].
  split; [apply length_map|].
  intros i n Hn.
  assert (Hi : nth_error (database (fst result)) i
               = Some (if negb (workspace_is (workspace n) (currentWorkspace st))
                       then n else set_workspace (Some q) n)).
  { subst result. cbn [runCmdKSuggestion renameWorkspaceAction runAction fst
                       database setDatabase setCmdKSearchQuery].
    apply (map_nth_error
             (fun n0 =>
                if negb (workspace_is (workspace n0) (currentWorkspace st))
                then n0 else set_workspace (Some q) n0)).
    exact Hn. }
  rewrite Hi.
  destruct (workspace_is (workspace n) (currentWorkspace st)) eqn:Hw; simpl.
  - split; [reflexivity|]. intro Hnot. exfalso. apply Hnot.
    apply workspace_is_spec. exact Hw.
  - split; [|reflexivity]. intro Hex. apply workspace_is_spec in Hex.
    rewrite Hex in Hw. discriminate.
Qed.

End RenameFacts.

Lemma rename_retags_active_workspace_witness :
  Js.truthy (trimmedQuery (cmdKSearchQuery Ex.renaming)) = true
  /\ database
       (fst (@runCmdKSuggestion simple_platform Ex.jan9 "r"
               (Some (renameWorkspaceAction "v")) Ex.renaming))
     = [Ex.untagged; mkNote "a" "first" Ex.jan1 (Some "v");
        mkNote "b" "second" Ex.jan2 (Some "v"); mkNote "d" "other" Ex.jan4 (Some "u")]
  /\ currentWorkspace
       (fst (@runCmdKSuggestion simple_platform Ex.jan9 "r"
               (Some (renameWorkspaceAction "v")) Ex.renaming))
     = Some "v".
Proof.
  destruct (@rename_retags_active_workspace simple_platform Ex.jan9 "r"
              Ex.renaming eq_refl) as (_ & _ & Hcw & _ & _).
  split; [reflexivity|]. split; [reflexivity|]. exact Hcw.
Defined.

(** ** Workspace cycling *)

Section CyclingFacts.

Context {P : Platform}.

Lemma option_string_eqb_eq a b : option_string_eqb a b = true <-> a = b.
Proof.
  destruct a as [x|], b as [y|]; simpl; split; try discriminate;
    try reflexivity.
  - intro H. apply String.eqb_eq in H. subst. reflexivity.
  - intro H. inversion H. apply String.eqb_refl.
Qed.

(** The workspaces that the loop of [availableWorkspaces] collects are
    distinct, were not seen before, and are the tag of some note. *)
Lemma collectWorkspaces_spec l : forall seen,
  NoDup (collectWorkspaces seen l)
  /\ forall w, In w (collectWorkspaces seen l) ->
               existsb (String.eqb w) seen = false
               /\ exists n, In n l /\ workspace n = Some w.
Proof.
  induction l as [|n r IH]; intro seen; simpl.
  - split; [constructor | contradiction].
  - destruct (workspace n) as [w0|] eqn:Hw.
    + destruct (negb (Js.truthy w0) || existsb (String.eqb w0) seen) eqn:Hs.
      * destruct (IH seen) as [Hnd Hin]. split; [exact Hnd|].
        intros w Hw'. destruct (Hin w Hw') as [H1 (m & Hm & Hmw)].
        split; [exact H1|]. exists m. auto.
      * apply Bool.orb_false_iff in Hs. destruct Hs as [_ Hs].
        destruct (IH (w0 :: seen)) as [Hnd Hin]. split.
        -- constructor; [|exact Hnd]. intro H0.
           destruct (Hin w0 H0) as [H1 _]. simpl in H1.
           rewrite String.eqb_refl in H1. discriminate.
        -- intros w [<- | Hw'].
           ++ split; [exact Hs|]. exists n. auto.
           ++ destruct (Hin w Hw') as [H1 (m & Hm & Hmw)]. simpl in H1.
              apply Bool.orb_false_iff in H1. destruct H1 as [_ H1].
              split; [exact H1|]. exists m. auto.
    + destruct (IH seen) as [Hnd Hin]. split; [exact Hnd|].
      intros w Hw'. destruct (Hin w Hw') as [H1 (m & Hm & Hmw)].
      split; [exact H1|]. exists m. auto.
Qed.

Lemma availableWorkspaces_NoDup db : NoDup (availableWorkspacesOf db).
Proof. apply collectWorkspaces_spec. Qed.

(** Every available workspace is the tag of a note of the store. *)
Lemma availableWorkspaces_note db w :
  In w (availableWorkspacesOf db) ->
  exists n, In n db /\ workspace n = Some w.
Proof.
  intro H. destruct (collectWorkspaces_spec (sortNotes db) []) as [_ Hin].
  destruct (Hin w H) as [_ (n & Hn & Hw)].
  exists n. split; [apply sortNotes_In; exact Hn | exact Hw].
Qed.

(** The in-place sort of a render does not change the workspace list. *)
Lemma availableWorkspaces_sort db :
  availableWorkspacesOf (sortNotes db) = availableWorkspacesOf db.
Proof. unfold availableWorkspacesOf. rewrite sortNotes_idem. reflexivity. Qed.

Lemma NoDup_map_Some (l : list string) : NoDup l -> NoDup (map Some l).
Proof.
  induction 1 as [|x r Hx Hr IH]; simpl; constructor; [|exact IH].
  intro H. apply in_map_iff in H. destruct H as (y & Hy & Hin).
  inversion Hy; subst. contradiction.
Qed.

Lemma navigableWorkspacesOf_NoDup l :
  NoDup l -> NoDup (navigableWorkspacesOf l).
Proof.
  intro Hl. unfold navigableWorkspacesOf. constructor.
  - intro H. apply in_map_iff in H. destruct H as (w & Hw & _). discriminate.
  - apply NoDup_map_Some. exact Hl.
Qed.

(** In a list without duplicates [indexOf] finds each entry where it is. *)
Lemma indexOf_nth l : NoDup l -> forall k x,
  nth_error l k = Some x -> indexOf x l = Some (Z.of_nat k).
Proof.
  induction 1 as [|y r Hy Hr IH]; intros k x Hk.
  - destruct k; discriminate.
  - destruct k as [|k]; simpl in Hk.
    + inversion Hk; subst. simpl.
      replace (option_string_eqb x x) with true
        by (symmetry; apply option_string_eqb_eq; reflexivity).
      reflexivity.
    + simpl. destruct (option_string_eqb y x) eqn:E.
      * exfalso. apply option_string_eqb_eq in E. subst y.
        apply Hy. apply nth_error_In with (n := k). exact Hk.
      * rewrite (IH k x Hk). f_equal. lia.
Qed.

End CyclingFacts.

Section CyclingSteps.

Context {P : Platform}.

Lemma Js_index_nat {A : Type} (l : list A) (k : nat) :
  Js.index l (Js.Num (Z.of_nat k)) = nth_error l k.
Proof.
  unfold Js.index. destruct (Z.ltb_spec (Z.of_nat k) 0); [lia|].
  rewrite Nat2Z.id. reflexivity.
Qed.

(** "Next workspace" from entry [k] of the navigable sequence goes to entry
    [(k + 1) mod length], and touches nothing but the filter and the
    selected index. *)
Lemma cycleWorkspace_right vl vr e st k nw :
  NoDup (availableWorkspaces st) ->
  vr || String.eqb (key e) "ArrowRight" = true ->
  nth_error (navigableWorkspaces st) k = Some (currentWorkspace st) ->
  nth_error (navigableWorkspaces st)
    ((k + 1) mod List.length (navigableWorkspaces st)) = Some nw ->
  currentWorkspace (cycleWorkspace vl vr e st) = nw
  /\ database (cycleWorkspace vl vr e st) = database st
  /\ isCmdKMenuOpen (cycleWorkspace vl vr e st) = isCmdKMenuOpen st
  /\ availableWorkspaces (cycleWorkspace vl vr e st) = availableWorkspaces st
  /\ databaseReplaced (cycleWorkspace vl vr e st) = databaseReplaced st.
Proof.
  intros Hnd Hr Hk Hn. unfold cycleWorkspace. unfold navigableWorkspaces in *.
  rewrite (indexOf_nth _ (navigableWorkspacesOf_NoDup _ Hnd) k _ Hk).
  rewrite Hr.
  set (nav := navigableWorkspacesOf (availableWorkspaces st)) in *.
  assert (HL : (0 < List.length nav)%nat) by (subst nav; simpl; lia).
  replace (Z.rem (Z.of_nat k + 1) (Z.of_nat (List.length nav)))
    with (Z.of_nat ((k + 1) mod List.length nav)).
  2:{ rewrite Z.rem_mod_nonneg by lia.
      rewrite Nat2Z.inj_mod, Nat2Z.inj_add. reflexivity. }
  rewrite Js_index_nat, Hn.
  destruct (option_string_eqb nw (currentWorkspace st)) eqn:E; simpl.
  - apply option_string_eqb_eq in E. auto.
  - auto.
Qed.

(** The key of "next workspace" in the open palette reaches the workspace
    cycling, with at most [hasVimNavigated] set before. *)
Lemma handleKeyDown_next now rid e st :
  nextWorkspaceKey e -> isCmdKMenuOpen st = true ->
  exists vl vr st1,
    handleKeyDown now rid e st = Some (cycleWorkspace vl vr e st1)
    /\ vr || String.eqb (key e) "ArrowRight" = true
    /\ database st1 = database st
    /\ currentWorkspace st1 = currentWorkspace st
    /\ isCmdKMenuOpen st1 = true
    /\ availableWorkspaces st1 = availableWorkspaces st
    /\ databaseReplaced st1 = databaseReplaced st.
Proof.
  intros [Hk | [Hk Hm]] Ho; unfold handleKeyDown; rewrite Hk, Ho.
  - cbn -[cycleWorkspace cmdKSuggestions].
    rewrite !Bool.andb_false_r. cbn -[cycleWorkspace cmdKSuggestions].
    do 3 eexists. split; [reflexivity|].
    repeat split; try reflexivity. exact Ho.
  - rewrite Hm. cbn -[cycleWorkspace cmdKSuggestions].
    rewrite !Bool.andb_false_r. cbn -[cycleWorkspace cmdKSuggestions].
    do 3 eexists. split; [reflexivity|].
    repeat split; try reflexivity. exact Ho.
Qed.

End CyclingSteps.

Section CyclingTheorem.

Context {P : Platform}.

(** One press of "next workspace": from entry [j] to entry [j + 1]. *)
Lemma cycling_step now rid e db0 j st :
  nextWorkspaceKey e -> db0 <> [] ->
  cyclingAt db0 j st ->
  exists st', step (KeyDown now rid e) st = Some st' /\ cyclingAt db0 (S j) st'.
Proof.
  intros He Hne (Ho & Hdb & Hfl & Hmemo & Hj).
  assert (Hnav : navigableWorkspaces st
                 = navigableWorkspacesOf (availableWorkspacesOf db0))
    by (unfold navigableWorkspaces; rewrite Hmemo; reflexivity).
  set (nav := navigableWorkspacesOf (availableWorkspacesOf db0)) in *.
  set (L := List.length nav) in *.
  assert (HL : (0 < L)%nat) by (subst L nav; simpl; lia).
  destruct (nth_error nav ((j mod L + 1) mod L)) as [nw|] eqn:Hnw.
  2:{ exfalso. apply nth_error_None in Hnw.
      pose proof (Nat.mod_upper_bound (j mod L + 1) L). fold L in Hnw. lia. }
  destruct (handleKeyDown_next now rid e st He Ho)
    as (vl & vr & st1 & Hh & Hr & Hdb1 & Hcw1 & Ho1 & Hm1 & Hf1).
  assert (Hnav1 : navigableWorkspaces st1 = nav)
    by (unfold navigableWorkspaces; rewrite Hm1; exact Hnav).
  destruct (cycleWorkspace_right vl vr e st1 (j mod L) nw)
    as (Hcw2 & Hdb2 & Ho2 & Hm2 & Hf2).
  { rewrite Hm1, Hmemo. apply availableWorkspaces_NoDup. }
  { exact Hr. }
  { rewrite Hnav1, Hcw1. exact Hj. }
  { rewrite Hnav1. exact Hnw. }
  set (s := cycleWorkspace vl vr e st1) in *.
  assert (Hdbs : database s = db0 \/ database s = sortNotes db0)
    by (rewrite Hdb2, Hdb1; exact Hdb).
  assert (Hin : exists n, In n (workspaceNotes s)).
  { unfold workspaceNotes. rewrite Hcw2.
    destruct nw as [w|].
    - assert (Hw : In w (availableWorkspacesOf db0)).
      { apply nth_error_In in Hnw. subst nav.
        unfold navigableWorkspacesOf in Hnw.
        destruct Hnw as [Hnw | Hnw]; [discriminate|].
        apply in_map_iff in Hnw. destruct Hnw as (w' & Hw' & Hin').
        inversion Hw'; subst. exact Hin'. }
      destruct (availableWorkspaces_note db0 w Hw) as (n & Hn & Hnw').
      exists n. apply workspaceNotesOf_In_iff. split.
      + destruct Hdbs as [-> | ->]; [exact Hn | apply sortNotes_In; exact Hn].
      + right. rewrite Hnw'. simpl. apply String.eqb_refl.
    - simpl. destruct db0 as [|n0 r0]; [contradiction|].
      exists n0. destruct Hdbs as [-> | ->];
        [left; reflexivity | apply sortNotes_In; left; reflexivity]. }
  destruct Hin as (n & Hn).
  destruct (settle_succeeds s n Hn)
    as (st' & Hs & Hdb' & Hcw' & _ & _ & Ho' & _ & _ & _ & Hm' & Hf').
  exists st'. split.
  - unfold step, handle. rewrite Hh. exact Hs.
  - destruct (render_frame s) as (Hrcw & _ & _ & _ & Hro & _).
    destruct (render_memo s) as (Hrf & Hrm).
    assert (Hfs : databaseReplaced s = false)
      by (rewrite Hf2, Hf1; exact Hfl).
    rewrite Hfs in Hrm.
    split; [rewrite Ho', Hro, Ho2; exact Ho1|]. split.
    { rewrite Hdb'. unfold render. rewrite Hfs.
      cbn [database setDatabaseSame]. unfold sortedByRender.
      destruct (currentWorkspace s); [exact Hdbs|].
      destruct (Js.truthy (cmdKSearchQuery s)); [exact Hdbs|].
      right. destruct Hdbs as [-> | ->]; [reflexivity | apply sortNotes_idem]. }
    split; [rewrite Hf'; exact Hrf|].
    split; [rewrite Hm', Hrm, Hm2, Hm1; exact Hmemo|].
    fold nav. fold L. rewrite Hcw', Hrcw, Hcw2, <- Hnw. f_equal.
    replace (S j) with (j + 1)%nat by lia.
    symmetry. apply Nat.Div0.add_mod_idemp_l.
Qed.

(** [k] presses of "next workspace" move the filter [k] entries on. *)
Lemma cycling_steps now rid e db0 k : forall j st,
  nextWorkspaceKey e -> db0 <> [] ->
  cyclingAt db0 j st ->
  exists st',
    run (repeat (KeyDown now rid e) k) st = Some st'
    /\ cyclingAt db0 (j + k) st'.
Proof.
  induction k as [|k IH]; intros j st He Hne Hc.
  - exists st. split; [reflexivity|]. rewrite Nat.add_0_r. exact Hc.
  - destruct (cycling_step now rid e db0 j st He Hne Hc) as (st1 & Hs & Hc1).
    destruct (IH (S j) st1 He Hne Hc1) as (st' & Hr & Hc').
    exists st'. split.
    + simpl. rewrite Hs. exact Hr.
    + replace (j + S k)%nat with (S j + k)%nat by lia. exact Hc'.
Qed.

(** While the [availableWorkspaces] memo is the one of the store, cycling is
    cyclic: from the "all" filter in the open palette over a non-empty
    store, pressing "next workspace" as many times as the navigable
    workspace sequence is long succeeds every time and ends on the "all"
    filter again; after any number [k] of presses the filter is entry
    [k mod length] of that sequence. *)
Lemma workspace_cycling_is_cyclic (now rid : string) (e : KeyboardEvent)
  (st : State) :
  nextWorkspaceKey e ->
  isCmdKMenuOpen st = true ->
  currentWorkspace st = None ->
  database st <> [] ->
  databaseReplaced st = false ->
  availableWorkspaces st = availableWorkspacesOf (database st) ->
  let nav := navigableWorkspaces st in
  (exists st',
      run (repeat (KeyDown now rid e) (List.length nav)) st = Some st'
      /\ currentWorkspace st' = None)
  /\ forall k, exists st',
       run (repeat (KeyDown now rid e) k) st = Some st'
       /\ nth_error nav (k mod List.length nav) = Some (currentWorkspace st').
Proof.
  intros He Ho Hcw Hne Hfl Hmemo nav.
  assert (Hnav : nav = navigableWorkspacesOf (availableWorkspacesOf (database st)))
    by (subst nav; unfold navigableWorkspaces; rewrite Hmemo; reflexivity).
  assert (Hc : cyclingAt (database st) 0 st).
  { split; [exact Ho|]. split; [left; reflexivity|].
    split; [exact Hfl|]. split; [exact Hmemo|].
    rewrite Hcw, Nat.Div0.mod_0_l. reflexivity. }
  split.
  - destruct (cycling_steps now rid e (database st) (List.length nav) 0 st
                He Hne Hc) as (st' & Hr & _ & _ & _ & _ & Hn).
    exists st'. split; [exact Hr|].
    rewrite <- Hnav, Nat.add_0_l, Nat.Div0.mod_same in Hn.
    rewrite Hnav in Hn. unfold navigableWorkspacesOf in Hn. simpl in Hn.
    inversion Hn. reflexivity.
  - intro k.
    destruct (cycling_steps now rid e (database st) k 0 st He Hne Hc)
      as (st' & Hr & _ & _ & _ & _ & Hn).
    exists st'. split; [exact Hr|]. rewrite Hnav. exact Hn.
Qed.

End CyclingTheorem.

Lemma workspace_cycling_is_cyclic_example :
  navigableWorkspaces Ex.cycling = [None; Some "u"; Some "w"]
  /\ exists st',
       @run simple_platform
         (repeat (KeyDown Ex.jan9 "r" (Ex.noKey "ArrowRight")) 3) Ex.cycling
       = Some st'
       /\ currentWorkspace st' = None.
Proof.
  split; [reflexivity|].
  destruct (@workspace_cycling_is_cyclic simple_platform Ex.jan9 "r"
              (Ex.noKey "ArrowRight") Ex.cycling) as [H _].
  - left. reflexivity.
  - reflexivity.
  - reflexivity.
  - discriminate.
  - reflexivity.
  - reflexivity.
  - exact H.
Defined.

Section StaleMemo.

Context {P : Platform}.

(** C7 (the code departs from the claim).  The unlink action assigns to
    the active note in place and stores the same array, so the
    [availableWorkspaces] memo is not computed anew: after the trace of C3
    (one note tagged [w] under the filter [w]; open, arrow down, Enter) the
    filter is "all", no note carries a tag, and the navigable sequence
    still is [[null, "w"]].  The first press of "next workspace" moves the
    filter to [w]; no note is in that filter, and the effect on the active
    note throws.  The filter does not come back to "all". *)
Theorem workspace_cycling_over_stale_memo_throws (now rid : string) :
  exists st afterKey,
    run (Ex.unlinkTrace now rid) Ex.taggedClosed = Some st
    /\ isCmdKMenuOpen st = true
    /\ currentWorkspace st = None
    /\ availableWorkspacesOf (database st) = []
    /\ navigableWorkspaces st = [None; Some "w"]
    /\ handleKeyDown now rid (Ex.noKey "ArrowRight") st = Some afterKey
    /\ currentWorkspace afterKey = Some "w"
    /\ workspaceNotes afterKey = []
    /\ step (KeyDown now rid (Ex.noKey "ArrowRight")) st = None
    /\ run (repeat (KeyDown now rid (Ex.noKey "ArrowRight"))
              (List.length (navigableWorkspaces st))) st = None.
Proof.
  exists (mkState [mkNote "a" "hello" Ex.jan1 None] None "a" "hello"
            (Js.Num 1) "" true false false [] ["w"] false).
  exists (mkState [mkNote "a" "hello" Ex.jan1 None] (Some "w") "a" "hello"
            (Js.Num 0) "" true false false [] ["w"] false).
  repeat (split; [vm_compute; reflexivity|]). vm_compute. reflexivity.
Qed.

End StaleMemo.

(** The concrete states above are rendered states: their memo is the one of
    their store. *)
Lemma examples_rendered :
  Forall (fun st =>
            databaseReplaced st = false
            /\ availableWorkspaces st
               = @availableWorkspacesOf simple_platform (database st))
    [Ex.searching; Ex.blankQuery; Ex.taggedClosed; Ex.deleteBehindUntagged;
     Ex.deleteOldest; Ex.deleteLastOfWorkspace; Ex.renaming; Ex.cycling;
     Ex.chordPending; Ex.browsing].
Proof. repeat constructor. Qed.

(** ** Committing by Enter and by release of the modifier *)

Section CommitFacts.

Context {P : Platform}.

Lemma length_zero_nil {A : Type} (l : list A) :
  Nat.ltb 0 (List.length l) = false -> l = [].
Proof. destruct l; [reflexivity | discriminate]. Qed.

(** C9 (amended).  With the chord pending in the open palette, releasing
    the modifier runs the effect of the selected suggestion as Enter does
    and closes the palette exactly when Enter does; it clears the pending
    chord.  The states agree on every field but [hasVimNavigated] and the
    selected index: when the palette stays open the index is the same,
    and when it closes Enter resets the index to 0 while the release keeps
    the index that the effect left. *)
Theorem release_commits_like_enter (now rid : string) (e enter : KeyboardEvent)
  (st : State) :
  isCmdKMenuOpen st = true ->
  hasVimNavigated st = true ->
  key e = "Meta" \/ key e = "Control" ->
  key enter = "Enter" ->
  exists afterEnter effect,
    handleKeyDown now rid enter st = Some afterEnter
    /\ effect
       = runCmdKSuggestion now rid
           (Js.index (cmdKSuggestions st) (selectedCmdKSuggestionIndex st)) st
    /\ isCmdKMenuOpen (handleKeyUp now rid e st) = isCmdKMenuOpen afterEnter
    /\ hasVimNavigated (handleKeyUp now rid e st) = false
    /\ setSelectedCmdKSuggestionIndex (selectedCmdKSuggestionIndex afterEnter)
         (handleKeyUp now rid e st)
       = setHasVimNavigated false afterEnter
    /\ (snd effect = false ->
        handleKeyUp now rid e st = setHasVimNavigated false afterEnter)
    /\ (snd effect = true ->
        selectedCmdKSuggestionIndex afterEnter = Js.Num 0
        /\ selectedCmdKSuggestionIndex (handleKeyUp now rid e st)
           = selectedCmdKSuggestionIndex (fst effect)).
Proof.
  intros Ho Hv Hk He.
  assert (Hup : handleKeyUp now rid e st
                = let '(st2, shouldCloseCmdK) :=
                    if Nat.ltb 0 (List.length (cmdKSuggestions st))
                    then runCmdKSuggestion now rid
                           (Js.index (cmdKSuggestions st)
                              (selectedCmdKSuggestionIndex st)) st
                    else (st, true) in
                  setHasVimNavigated false
                    (if shouldCloseCmdK then setIsCmdKMenuOpen false st2
                     else st2)).
  { unfold handleKeyUp. rewrite Hv, Ho.
    destruct Hk as [-> | ->]; reflexivity. }
  assert (Hdown : handleKeyDown now rid enter st
                  = let '(st2, shouldCloseCmdK) :=
                      runCmdKSuggestion now rid
                        (Js.index (cmdKSuggestions st)
                           (selectedCmdKSuggestionIndex st)) st in
                    Some (if shouldCloseCmdK
                          then setSelectedCmdKSuggestionIndex (Js.Num 0)
                                 (setIsCmdKMenuOpen false st2)
                          else st2)).
  { unfold handleKeyDown. rewrite He, Ho.
    cbn -[cycleWorkspace cmdKSuggestions runCmdKSuggestion].
    rewrite !Bool.andb_false_r.
    cbn -[cycleWorkspace cmdKSuggestions runCmdKSuggestion]. reflexivity. }
  assert (Hsame : (if Nat.ltb 0 (List.length (cmdKSuggestions st))
                   then runCmdKSuggestion now rid
                          (Js.index (cmdKSuggestions st)
                             (selectedCmdKSuggestionIndex st)) st
                   else (st, true))
                  = runCmdKSuggestion now rid
                      (Js.index (cmdKSuggestions st)
                         (selectedCmdKSuggestionIndex st)) st).
  { destruct (Nat.ltb 0 (List.length (cmdKSuggestions st))) eqn:E;
      [reflexivity|].
    rewrite (length_zero_nil _ E).
    destruct (selectedCmdKSuggestionIndex st) as [z|]; simpl;
      [destruct (Z.ltb z 0); [|destruct (Z.to_nat z)]|]; reflexivity. }
  rewrite Hsame in Hup. rewrite Hup, Hdown.
  destruct (runCmdKSuggestion now rid
              (Js.index (cmdKSuggestions st) (selectedCmdKSuggestionIndex st))
              st) as [st2 close].
  destruct close; eexists; eexists; (split; [reflexivity|]);
    (split; [reflexivity|]); simpl; repeat split; try reflexivity;
    try discriminate; destruct st2; reflexivity.
Qed.

End CommitFacts.

Lemma release_commits_like_enter_witness :
  exists afterEnter,
    @handleKeyDown simple_platform Ex.jan9 "r" (Ex.noKey "Enter") Ex.chordPending
    = Some afterEnter
    /\ isCmdKMenuOpen afterEnter = false
    /\ isCmdKMenuOpen
         (@handleKeyUp simple_platform Ex.jan9 "r" Ex.releaseControl
            Ex.chordPending) = false
    /\ selectedCmdKSuggestionIndex afterEnter = Js.Num 0
    /\ selectedCmdKSuggestionIndex
         (@handleKeyUp simple_platform Ex.jan9 "r" Ex.releaseControl
            Ex.chordPending) = Js.Num 1.
Proof.
  destruct (@release_commits_like_enter simple_platform Ex.jan9 "r"
              Ex.releaseControl (Ex.noKey "Enter") Ex.chordPending
              eq_refl eq_refl (or_intror eq_refl) eq_refl)
    as (afterEnter & effect & Hd & He & Ho & _ & _ & _ & Hc).
  exists afterEnter.
  assert (Hs : snd effect = true) by (rewrite He; reflexivity).
  destruct (Hc Hs) as [H0 H1].
  split; [exact Hd|].
  assert (Hopen : isCmdKMenuOpen
                    (@handleKeyUp simple_platform Ex.jan9 "r" Ex.releaseControl
                       Ex.chordPending) = false) by reflexivity.
  split; [rewrite <- Ho; exact Hopen|].
  split; [exact Hopen|]. split; [exact H0|].
  rewrite H1, He. reflexivity.
Defined.

(** C9 as stated fails.  With the note [a] selected by a chord, Enter opens
    it, closes the palette and resets the index to 0; the release of
    Control opens it and closes the palette, and leaves the index 1. *)
Lemma release_not_exactly_enter :
  isCmdKMenuOpen Ex.chordPending = true
  /\ hasVimNavigated Ex.chordPending = true
  /\ option_map selectedCmdKSuggestionIndex
       (@specChordRelease simple_platform Ex.jan9 "r" Ex.chordPending)
     = Some (Js.Num 0)
  /\ selectedCmdKSuggestionIndex
       (@handleKeyUp simple_platform Ex.jan9 "r" Ex.releaseControl Ex.chordPending)
     = Js.Num 1
  /\ Some (@handleKeyUp simple_platform Ex.jan9 "r" Ex.releaseControl
             Ex.chordPending)
     <> @specChordRelease simple_platform Ex.jan9 "r" Ex.chordPending.
Proof.
  repeat split; try reflexivity. vm_compute. discriminate.
Qed.

(** ** Opening a note *)

Section OpenFacts.

Context {P : Platform}.

Lemma updateNote_length i f db :
  List.length (updateNote i f db) = List.length db.
Proof.
  induction db as [|n r IH]; simpl; [reflexivity|].
  destruct (String.eqb (id n) i); simpl; [reflexivity | rewrite IH; reflexivity].
Qed.

(** An assignment through [find] leaves the notes of other ids in place. *)
Lemma updateNote_other i f db : forall k m,
  nth_error db k = Some m -> id m <> i ->
  nth_error (updateNote i f db) k = Some m.
Proof.
  induction db as [|n r IH]; intros k m Hk Hm; [destruct k; discriminate|].
  simpl. destruct (String.eqb_spec (id n) i) as [He | Hne].
  - destruct k as [|k]; simpl in *; [|exact Hk].
    inversion Hk; subst. contradiction.
  - destruct k as [|k]; simpl in *; [exact Hk | apply IH; assumption].
Qed.

(** The note that [find] returns is the one that changes. *)
Lemma updateNote_find i f db n :
  (forall m, id (f m) = id m) ->
  findNote i db = Some n ->
  findNote i (updateNote i f db) = Some (f n).
Proof.
  intros Hid. unfold findNote.
  induction db as [|n0 r IH]; simpl; [discriminate|].
  destruct (String.eqb (id n0) i) eqn:E; simpl.
  - intro H. inversion H; subst. rewrite Hid, E. reflexivity.
  - rewrite E. exact IH.
Qed.

Lemma updateNote_In i f db n m :
  findNote i db = Some n ->
  In m (updateNote i f db) -> m = f n \/ In m db.
Proof.
  unfold findNote.
  induction db as [|n0 r IH]; simpl; [discriminate|].
  destruct (String.eqb (id n0) i) eqn:E; simpl.
  - intro H. inversion H; subst. intros [<- | Hm]; auto.
  - intros Hf [<- | Hm]; [auto|]. destruct (IH Hf Hm); auto.
Qed.

Lemma updateNote_In_new i f db n :
  findNote i db = Some n -> In (f n) (updateNote i f db).
Proof.
  unfold findNote.
  induction db as [|n0 r IH]; simpl; [discriminate|].
  destruct (String.eqb (id n0) i) eqn:E; simpl.
  - intro H. inversion H; subst. left; reflexivity.
  - intro Hf. right. exact (IH Hf).
Qed.

(** C10 (amended).  Opening a note that is in the store by a non-empty id
    makes it the active note and assigns the current time to its
    [updatedAt], with no other change to the store: the note keeps its id,
    content and workspace, and the notes of other ids stay where they
    are.  When the current time is later than every stored time stamp, the
    opened note becomes the first note in recency order, and its
    workspace, if it has one, the first of the workspace list as the body
    of the [availableWorkspaces] memo would compute it from the store.
    The list that the application holds does not change: [openNote] stores
    the array it was given, so the render that follows keeps the value of
    the memo.  With an empty id [openNote] changes nothing. *)
Theorem openNote_bumps_updatedAt (now noteId : string) (st : State) (n : Note) :
  findNote noteId (database st) = Some n ->
  let st' := openNote now noteId (database st) st in
  let opened := mkNote (id n) (content n) now (workspace n) in
  (Js.truthy noteId = false -> st' = st)
  /\ (Js.truthy noteId = true ->
      currentNoteId st' = noteId
      /\ findNote noteId (database st') = Some opened
      /\ List.length (database st') = List.length (database st)
      /\ (forall k m, nth_error (database st) k = Some m -> id m <> noteId ->
                      nth_error (database st') k = Some m)
      /\ databaseReplaced st' = false
      /\ availableWorkspaces (render st') = availableWorkspaces st
      /\ (forall st'', settle st' = Some st'' ->
                       availableWorkspaces st'' = availableWorkspaces st)
      /\ ((forall m, In m (database st) -> time m < Date_getTime now) ->
          (exists rest, sortNotes (database st') = opened :: rest)
          /\ forall w, workspace n = Some w -> Js.truthy w = true ->
                       exists rest,
                         availableWorkspacesOf (database st') = w :: rest)).
Proof.
  intros Hf st' opened. split.
  { intro Hid. subst st'. unfold openNote. rewrite Hid. reflexivity. }
  intro Hid.
  assert (Hst : st' = setDatabaseSame
                        (updateNote noteId (set_updatedAt now) (database st))
                        (setCurrentNoteId noteId st)).
  { subst st'. unfold openNote. rewrite Hid, Hf. reflexivity. }
  assert (Hdb : database st'
                = updateNote noteId (set_updatedAt now) (database st))
    by (rewrite Hst; reflexivity).
  assert (Hmemo : availableWorkspaces (render st') = availableWorkspaces st).
  { destruct (render_memo st') as [_ Hm]. rewrite Hm, Hst. reflexivity. }
  split; [rewrite Hst; reflexivity|].
  split; [rewrite Hdb;
          apply (updateNote_find noteId (set_updatedAt now) _ n);
          [reflexivity | exact Hf]|].
  split; [rewrite Hdb; apply updateNote_length|].
  split; [intros k m Hk Hm; rewrite Hdb; apply updateNote_other; assumption|].
  split; [rewrite Hst; reflexivity|].
  split; [exact Hmemo|].
  split.
  { intros st'' Hs. apply settle_Some in Hs.
    destruct Hs as ((_ & _ & _ & _ & _ & _ & _ & _ & Hm & _) & _).
    rewrite Hm. exact Hmemo. }
  intro Hnew.
  assert (Hhead : exists rest, sortNotes (database st') = opened :: rest).
  { destruct (sortNotes (database st')) as [|h rest] eqn:Hs.
    - exfalso. apply sortNotes_nil in Hs.
      pose proof (updateNote_In_new noteId (set_updatedAt now) _ n Hf) as Hin.
      rewrite <- Hdb, Hs in Hin. contradiction.
    - exists rest. f_equal.
      assert (Hh : In h (database st'))
        by (apply sortNotes_In; rewrite Hs; left; reflexivity).
      rewrite Hdb in Hh.
      destruct (updateNote_In noteId (set_updatedAt now) _ n h Hf Hh)
        as [-> | Hold]; [reflexivity|].
      exfalso.
      pose proof (sortNotes_head h rest (database st') Hs opened) as Hle.
      assert (Hop : In opened (database st'))
        by (rewrite Hdb;
            apply (updateNote_In_new noteId (set_updatedAt now) _ n Hf)).
      specialize (Hle Hop). specialize (Hnew h Hold).
      unfold time in Hle at 1. simpl in Hle. lia. }
  split; [exact Hhead|].
  intros w Hw Ht. destruct Hhead as (rest & Hs).
  unfold availableWorkspacesOf. rewrite Hs. simpl. rewrite Hw, Ht. simpl.
  eexists. reflexivity.
Qed.

End OpenFacts.

Lemma openNote_bumps_updatedAt_witness :
  @sortNotes simple_platform (database Ex.browsing)
  = [Ex.wd; Ex.wb; Ex.wa; Ex.untagged]
  /\ (exists rest,
         @sortNotes simple_platform
           (database (openNote Ex.jan9 "a" (database Ex.browsing) Ex.browsing))
         = mkNote "a" "first" Ex.jan9 (Some "w") :: rest)
  /\ (exists rest,
         @availableWorkspacesOf simple_platform
           (database (openNote Ex.jan9 "a" (database Ex.browsing) Ex.browsing))
         = "w" :: rest)
  /\ availableWorkspaces
       (@render simple_platform
          (openNote Ex.jan9 "a" (database Ex.browsing) Ex.browsing))
     = ["u"; "w"].
Proof.
  destruct (@openNote_bumps_updatedAt simple_platform Ex.jan9 "a" Ex.browsing
              Ex.wa eq_refl) as [_ H].
  destruct (H eq_refl) as (_ & _ & _ & _ & _ & Hmemo & _ & Hnew).
  destruct Hnew as [Hs Hw].
  - intros m Hm. simpl in Hm.
    repeat (destruct Hm as [<- | Hm]; [reflexivity|]). contradiction.
  - split; [reflexivity|].
    split; [exact Hs|].
    split; [exact (Hw "w" eq_refl eq_refl)|exact Hmemo].
Defined.

(** C10 as stated fails.  The palette is open on all notes with the
    workspace list [u], [w]; Enter opens the note [a] of the workspace
    [w], the oldest of the store.  The note becomes the most recent one
    and the first of the store, and the list computed from the store
    would start with [w]; the workspace list that the application holds,
    and with it the sequence that the workspace cycling walks, is the one
    from before the opening. *)
Lemma opening_keeps_the_held_workspace_list :
  exists st',
    @step simple_platform (KeyDown Ex.jan9 "r" (Ex.noKey "Enter")) Ex.browsing
    = Some st'
    /\ availableWorkspaces Ex.browsing = ["u"; "w"]
    /\ database st'
       = [mkNote "a" "first" Ex.jan9 (Some "w"); Ex.wd; Ex.wb; Ex.untagged]
    /\ @availableWorkspacesOf simple_platform (database st') = ["w"; "u"]
    /\ availableWorkspaces st' = ["u"; "w"]
    /\ navigableWorkspaces st' = [None; Some "u"; Some "w"]
    /\ availableWorkspaces st'
       <> @availableWorkspacesOf simple_platform (database st').
Proof.
  eexists. split; [vm_compute; reflexivity|].
  repeat split; try reflexivity. discriminate.
Defined.

(** ** Export and import *)

Section JsonFacts.

Lemma append_assoc (a b c : string) : ((a ++ b) ++ c = a ++ (b ++ c))%string.
Proof. induction a as [|x a IH]; simpl; [reflexivity | rewrite IH; reflexivity]. Qed.

Lemma append_length (a b : string) :
  String.length (a ++ b) = (String.length a + String.length b)%nat.
Proof. induction a as [|x a IH]; simpl; [reflexivity | rewrite IH; reflexivity]. Qed.

(** Reading back what [quoteChar] wrote gives the character. *)
Lemma parse_quoteChar (c : ascii) (tail : string) :
  JSON.parseStringBody (JSON.quoteChar c ++ tail)
  = JSON.consChar c (JSON.parseStringBody tail).
Proof.
  destruct c as [b0 b1 b2 b3 b4 b5 b6 b7].
  destruct b0, b1, b2, b3, b4, b5, b6, b7; reflexivity.
Qed.

Lemma parse_quoteBody (s rest : string) :
  JSON.parseStringBody (JSON.quoteBody s ++ String JSON.dq rest)
  = Some (s, rest).
Proof.
  induction s as [|c s IH]; [reflexivity|].
  cbn [JSON.quoteBody]. rewrite append_assoc, parse_quoteChar, IH.
  reflexivity.
Qed.

(** A string literal is read back as the string it was written from. *)
Lemma parse_quote (s rest : string) :
  JSON.parseString (JSON.quote s ++ rest) = Some (s, rest).
Proof.
  unfold JSON.quote. cbn [append JSON.parseString].
  replace (Ascii.eqb JSON.dq JSON.dq) with true by reflexivity.
  rewrite append_assoc. apply parse_quoteBody.
Qed.

Lemma expect_append (lit rest : string) :
  JSON.expect lit (lit ++ rest) = Some rest.
Proof.
  induction lit as [|a l IH]; simpl; [destruct rest; reflexivity|].
  rewrite Ascii.eqb_refl. exact IH.
Qed.

(** A note is read back as it was written. *)
Lemma parse_stringifyNote (n : Note) (rest : string) :
  JSON.parseNote (JSON.stringifyNote n ++ rest) = Some (n, rest).
Proof.
  destruct n as [i c u w]. unfold JSON.stringifyNote, JSON.parseNote.
  cbn [id content updatedAt workspace].
  repeat rewrite append_assoc.
  rewrite <- (append_assoc "{" (JSON.keyColon "id")).
  rewrite expect_append. cbn [JSON.bind].
  rewrite parse_quote. cbn [JSON.bind].
  rewrite <- (append_assoc "," (JSON.keyColon "content")).
  rewrite expect_append. cbn [JSON.bind].
  rewrite parse_quote. cbn [JSON.bind].
  rewrite <- (append_assoc "," (JSON.keyColon "updatedAt")).
  rewrite expect_append. cbn [JSON.bind].
  rewrite parse_quote. cbn [JSON.bind].
  destruct w as [w|].
  - repeat rewrite append_assoc.
    replace (JSON.expect "}" ("," ++ JSON.keyColon "workspace"
                                  ++ JSON.quote w ++ "}" ++ rest))
      with (@None string) by reflexivity.
    rewrite <- (append_assoc "," (JSON.keyColon "workspace")).
    rewrite expect_append. cbn [JSON.bind].
    rewrite parse_quote. cbn [JSON.bind].
    rewrite expect_append. reflexivity.
  - cbn [append]. replace (JSON.expect "}" (String "}" rest)) with (Some rest)
      by (simpl; destruct rest; reflexivity).
    reflexivity.
Qed.

Lemma stringifyNotes_cons (n : Note) (r : list Note) (rest : string) :
  (JSON.stringifyNotes (n :: r) ++ rest)%string
  = (JSON.stringifyNote n
     ++ match r with
        | [] => rest
        | _ :: _ => "," ++ JSON.stringifyNotes r ++ rest
        end)%string.
Proof.
  destruct r as [|n' r]; [reflexivity|].
  cbn [JSON.stringifyNotes]. rewrite !append_assoc. reflexivity.
Qed.

(** With fuel for every note, a non-empty array is read back as it was
    written. *)
Lemma parse_stringifyNotes (r : list Note) : forall (n : Note) (fuel : nat),
  (List.length (n :: r) <= fuel)%nat ->
  JSON.parseNotes fuel (JSON.stringifyNotes (n :: r) ++ "]") = Some (n :: r).
Proof.
  induction r as [|n' r IH]; intros n fuel Hf;
    (destruct fuel as [|fuel]; [simpl in Hf; lia|]);
    rewrite stringifyNotes_cons; cbn [JSON.parseNotes];
    rewrite parse_stringifyNote.
  - reflexivity.
  - cbn [append]. replace (Ascii.eqb "," ",") with true by reflexivity.
    rewrite IH by (simpl in *; lia). reflexivity.
Qed.

Lemma stringifyNote_length (n : Note) :
  (1 <= String.length (JSON.stringifyNote n))%nat.
Proof. unfold JSON.stringifyNote. simpl. lia. Qed.

(** The text of an array is at least as long as the array. *)
Lemma stringifyNotes_length (l : list Note) (rest : string) :
  (List.length l <= String.length (JSON.stringifyNotes l ++ rest))%nat.
Proof.
  induction l as [|n r IH]; [simpl; lia|].
  rewrite stringifyNotes_cons, append_length.
  pose proof (stringifyNote_length n).
  destruct r as [|n' r]; [simpl; lia|].
  rewrite append_length. simpl String.length at 2.
  simpl List.length in *. lia.
Qed.

(** [JSON.parse(JSON.stringify(database))] is the database. *)
Lemma parse_stringify (db : list Note) :
  JSON.parse (JSON.stringify db) = Some db.
Proof.
  destruct db as [|n r]; [reflexivity|].
  unfold JSON.stringify. cbn [append JSON.parse].
  replace (Ascii.eqb "[" "[") with true by reflexivity.
  rewrite <- (parse_stringifyNotes r n
                (String.length (JSON.stringifyNotes (n :: r) ++ "]")))
    by apply stringifyNotes_length.
  rewrite stringifyNotes_cons. unfold JSON.stringifyNote.
  cbn [append]. reflexivity.
Qed.

Lemma stringify_truthy (db : list Note) : Js.truthy (JSON.stringify db) = true.
Proof. reflexivity. Qed.

(** The hexadecimal codec satisfies the contract of the package. *)
Lemma hex_char (c : ascii) :
  match JSON.hexValue (JSON.hexDigit (nat_of_ascii c / 16)),
        JSON.hexValue (JSON.hexDigit (nat_of_ascii c mod 16)) with
  | Some a, Some b => Some (ascii_of_nat (a * 16 + b))
  | _, _ => None
  end = Some c.
Proof.
  destruct c as [b0 b1 b2 b3 b4 b5 b6 b7].
  destruct b0, b1, b2, b3, b4, b5, b6, b7; reflexivity.
Qed.

Lemma hex_inverse : LZString_inverse Hex.codec.
Proof.
  intro s. simpl. induction s as [|c s IH]; [reflexivity|].
  cbn [Hex.encode Hex.decode]. rewrite IH.
  pose proof (hex_char c) as H.
  destruct (JSON.hexValue (JSON.hexDigit (nat_of_ascii c / 16)));
    [|discriminate].
  destruct (JSON.hexValue (JSON.hexDigit (nat_of_ascii c mod 16)));
    [|discriminate].
  inversion H as [H']. rewrite H'. reflexivity.
Qed.

End JsonFacts.

(** C8.  Given that decompression inverts compression, as the lz-string
    package promises, importing the file that export wrote replaces the
    note list by the exported one: [JSON.parse] reads back the list that
    [JSON.stringify] wrote, the same notes in the same order with the same
    ids, contents, time stamps and workspaces. *)
Theorem export_then_import (L : LZString) :
  LZString_inverse L ->
  forall (db : list Note) (st : State),
    JSON.parse (JSON.stringify db) = Some db
    /\ importFile (exportFile db) st = setDatabase db st
    /\ database (importFile (exportFile db) st) = db.
Proof.
  intros HL db st.
  assert (Hi : importFile (exportFile db) st = setDatabase db st).
  { unfold importFile, exportFile. rewrite HL, stringify_truthy.
    rewrite parse_stringify. reflexivity. }
  split; [apply parse_stringify|]. split; [exact Hi|].
  rewrite Hi. reflexivity.
Qed.

Lemma export_then_import_witness :
  LZString_inverse Hex.codec
  /\ database
       (@importFile Hex.codec
          (@exportFile Hex.codec [Ex.untagged; Ex.wa; Ex.wd]) Ex.searching)
     = [Ex.untagged; Ex.wa; Ex.wd].
Proof.
  split; [exact hex_inverse|].
  destruct (export_then_import Hex.codec hex_inverse
              [Ex.untagged; Ex.wa; Ex.wd] Ex.searching) as (_ & _ & H).
  exact H.
Defined.

(** * Further properties of the code *)

(** ** The order of the store *)

Section StoreOrder.

Context {P : Platform}.

(** X1.  [sortNotes] loses and adds no note, puts the notes in the order
    of their time stamps, the most recent first, keeps notes of equal time
    in the order they had, and changes nothing on a list it has sorted. *)
Theorem sortNotes_stable_recency_sort (notes : list Note) :
  Permutation (sortNotes notes) notes
  /\ recencySorted (sortNotes notes)
  /\ (forall t, filter (fun n => Z.eqb (time n) t) (sortNotes notes)
                = filter (fun n => Z.eqb (time n) t) notes)
  /\ sortNotes (sortNotes notes) = sortNotes notes.
Proof.
  split; [apply sortNotes_perm|].
  split; [apply sortNotes_sorted|].
  split; [intro t; apply sortNotes_stable|].
  apply sortNotes_idem.
Qed.

Lemma collectWorkspaces_truthy l : forall seen w,
  In w (collectWorkspaces seen l) -> Js.truthy w = true.
Proof.
  induction l as [|n r IH]; intros seen w Hin; simpl in Hin; [contradiction|].
  destruct (workspace n) as [w'|]; [|eapply IH; eassumption].
  destruct (Js.truthy w') eqn:Ht; simpl in Hin.
  - destruct (existsb (String.eqb w') seen); [eapply IH; eassumption|].
    destruct Hin as [<-|Hin]; [exact Ht|eapply IH; eassumption].
  - eapply IH; eassumption.
Qed.

Lemma collectWorkspaces_complete l : forall seen n w,
  In n l -> workspace n = Some w -> Js.truthy w = true ->
  existsb (String.eqb w) seen = false ->
  In w (collectWorkspaces seen l).
Proof.
  induction l as [|m r IH]; intros seen n w Hin Hw Ht Hs; [contradiction|].
  simpl. destruct Hin as [->|Hin].
  - rewrite Hw, Ht, Hs. simpl. left; reflexivity.
  - destruct (workspace m) as [w'|]; [|eapply IH; eassumption].
    destruct (negb (Js.truthy w') || existsb (String.eqb w') seen);
      [eapply IH; eassumption|].
    destruct (String.eqb w w') eqn:He.
    + apply String.eqb_eq in He. left; symmetry; exact He.
    + right. eapply IH; try eassumption. simpl. rewrite He. exact Hs.
Qed.

Lemma availableWorkspaces_complete db n w :
  In n db -> workspace n = Some w -> Js.truthy w = true ->
  In w (availableWorkspacesOf db).
Proof.
  intros Hn Hw Ht. unfold availableWorkspacesOf.
  apply collectWorkspaces_complete with (n := n); auto.
  apply sortNotes_In. exact Hn.
Qed.

(** X2.  The body of the [availableWorkspaces] memo gives every non-empty
    tag that a note of the store carries, each once, and nothing else.
    The list that the application holds is that one after a render that
    follows a handler which stored another array.  After a handler that
    changed the array in place, the render keeps the list it had, whatever
    the tags of the store are by then. *)
Theorem availableWorkspaces_are_the_tags (st : State) (w : string) :
  (NoDup (availableWorkspacesOf (database st))
   /\ (In w (availableWorkspacesOf (database st))
       <-> Js.truthy w = true
           /\ exists n, In n (database st) /\ workspace n = Some w))
  /\ (databaseReplaced st = true ->
      NoDup (availableWorkspaces (render st))
      /\ (In w (availableWorkspaces (render st))
          <-> Js.truthy w = true
              /\ exists n, In n (database (render st))
                            /\ workspace n = Some w))
  /\ (databaseReplaced st = false ->
      availableWorkspaces (render st) = availableWorkspaces st).
Proof.
  assert (Hbody : forall db,
            In w (availableWorkspacesOf db)
            <-> Js.truthy w = true
                /\ exists n, In n db /\ workspace n = Some w).
  { intro db. split.
    - intro Hin. split.
      + eapply collectWorkspaces_truthy. exact Hin.
      + apply availableWorkspaces_note. exact Hin.
    - intros (Ht & n & Hn & Hw).
      exact (availableWorkspaces_complete db n w Hn Hw Ht). }
  destruct (render_memo st) as [_ Hm].
  split; [split; [apply availableWorkspaces_NoDup|apply Hbody]|].
  split; intro Hf; rewrite Hf in Hm; [|exact Hm].
  rewrite Hm. split; [apply availableWorkspaces_NoDup|].
  rewrite Hbody. split; intros (Ht & n & Hn & Hw); (split; [exact Ht|]);
    exists n; (split; [|exact Hw]).
  - eapply Permutation_in; [apply Permutation_sym, render_database|exact Hn].
  - eapply Permutation_in; [apply render_database|exact Hn].
Qed.

End StoreOrder.

Lemma availableWorkspaces_are_the_tags_witness :
  databaseReplaced (deleteNote "d" Ex.cycling) = true
  /\ availableWorkspaces (deleteNote "d" Ex.cycling) = ["u"; "w"]
  /\ availableWorkspaces (@render simple_platform (deleteNote "d" Ex.cycling))
     = ["w"]
  /\ (In "w" (availableWorkspaces
                (@render simple_platform (deleteNote "d" Ex.cycling)))
      <-> Js.truthy "w" = true
          /\ exists n,
               In n (database
                       (@render simple_platform (deleteNote "d" Ex.cycling)))
               /\ workspace n = Some "w").
Proof.
  split; [reflexivity|]. split; [reflexivity|]. split; [reflexivity|].
  destruct (@availableWorkspaces_are_the_tags simple_platform
              (deleteNote "d" Ex.cycling) "w") as (_ & H & _).
  exact (proj2 (H eq_refl)).
Defined.

(** ** The effect on the active note *)

Section ActiveNote.

Context {P : Platform}.

Lemma render_render st : render (render st) = render st.
Proof.
  destruct st as [db cw cn tv sel q op vim help del memo flag].
  unfold render, sortedByRender; destruct flag; simpl;
    (destruct cw; [reflexivity|]);
    (destruct (Js.truthy q); [reflexivity|]);
    rewrite sortNotes_idem; reflexivity.
Qed.

Lemma render_setTextValue v st :
  render (setTextValue v st) = setTextValue v (render st).
Proof.
  destruct st as [db cw cn tv sel q op vim help del memo flag].
  unfold render, sortedByRender; destruct flag; reflexivity.
Qed.

Lemma render_setCurrentNoteId v st :
  render (setCurrentNoteId v st) = setCurrentNoteId v (render st).
Proof.
  destruct st as [db cw cn tv sel q op vim help del memo flag].
  unfold render, sortedByRender; destruct flag; reflexivity.
Qed.

Lemma workspaceNotes_render st :
  Permutation (workspaceNotes (render st)) (workspaceNotes st).
Proof.
  unfold workspaceNotes. destruct (render_frame st) as (-> & _).
  destruct (currentWorkspace st) as [w|] eqn:Hw.
  - rewrite (render_database_filter st w Hw). apply Permutation_refl.
  - simpl. apply render_database.
Qed.

Lemma rendered_nil st :
  renderedWorkspaceNotes (render st) = [] <-> workspaceNotes st = [].
Proof.
  assert (Hp : Permutation (renderedWorkspaceNotes (render st))
                 (workspaceNotes st)).
  { eapply Permutation_trans; [apply renderedWorkspaceNotes_perm|].
    apply workspaceNotes_render. }
  split; intro H; rewrite H in Hp.
  - apply Permutation_nil. exact Hp.
  - apply Permutation_nil. apply Permutation_sym. exact Hp.
Qed.

Lemma settle_None_iff st : settle st = None <-> workspaceNotes st = [].
Proof.
  split.
  - intro Hs. destruct (workspaceNotes st) as [|n r] eqn:Hw; [reflexivity|].
    destruct (settle_succeeds st n) as (st' & He & _);
      [rewrite Hw; left; reflexivity|congruence].
  - intro Hw. apply rendered_nil in Hw.
    unfold settle, currentNoteEffect. rewrite Hw. reflexivity.
Qed.

(** X3.  The effect on the active note throws exactly when the filter
    holds no note.  When it returns, the active note is a note of the
    filter, the text area shows its content, nothing else changed, and a
    note that was active and in the filter is still the active one. *)
Theorem active_note_follows_filter (st : State) :
  (settle st = None <-> workspaceNotes st = [])
  /\ forall st', settle st = Some st' ->
       sameButActiveNote (render st) st'
       /\ (exists n, In n (workspaceNotes st')
                     /\ id n = currentNoteId st' /\ content n = textValue st')
       /\ (findNote (currentNoteId st) (workspaceNotes st) <> None ->
           currentNoteId st' = currentNoteId st).
Proof.
  split; [apply settle_None_iff|].
  - intros st' Hs. unfold settle, currentNoteEffect in Hs.
    destruct (findNote (currentNoteId (render st))
                (renderedWorkspaceNotes (render st))) as [m|] eqn:Hf.
    + inversion Hs; subst; clear Hs.
      split; [repeat split|]. split.
      * exists m. destruct (findNote_Some _ _ _ Hf) as [Hin Hid].
        split; [|split; [exact Hid|reflexivity]].
        apply (Permutation_in _ (renderedWorkspaceNotes_perm (render st))).
        exact Hin.
      * intros _. destruct (render_frame st) as (_ & Hid & _). exact Hid.
    + destruct (renderedWorkspaceNotes (render st)) as [|r0 rr] eqn:Hrn;
        [discriminate|].
      inversion Hs; subst; clear Hs.
      split; [repeat split|]. split.
      * exists r0. split; [|split; reflexivity].
        apply (Permutation_in _ (renderedWorkspaceNotes_perm (render st))).
        rewrite Hrn. left; reflexivity.
      * intro Hne. exfalso. apply Hne.
        destruct (render_frame st) as (_ & Hid & _). rewrite Hid in Hf.
        rewrite <- Hrn in Hf.
        eapply findNote_None_perm; [|exact Hf].
        eapply Permutation_trans; [apply renderedWorkspaceNotes_perm|].
        apply workspaceNotes_render.
Qed.

Lemma findNote_head n r : findNote (id n) (n :: r) = Some n.
Proof. unfold findNote; simpl. rewrite String.eqb_refl. reflexivity. Qed.

(** X4.  One render and its effect settle the state: a second render with
    its effect changes nothing. *)
Theorem settle_settles (st st' : State) :
  settle st = Some st' -> settle st' = Some st'.
Proof.
  unfold settle, currentNoteEffect. intro Hs.
  destruct (findNote (currentNoteId (render st))
              (renderedWorkspaceNotes (render st))) as [m|] eqn:Hf.
  - inversion Hs; subst; clear Hs.
    rewrite render_setTextValue, render_render.
    change (renderedWorkspaceNotes (setTextValue (content m) (render st)))
      with (renderedWorkspaceNotes (render st)).
    change (currentNoteId (setTextValue (content m) (render st)))
      with (currentNoteId (render st)).
    rewrite Hf. reflexivity.
  - destruct (renderedWorkspaceNotes (render st)) as [|r0 rr] eqn:Hrn;
      [discriminate|].
    inversion Hs; subst; clear Hs.
    rewrite render_setTextValue, render_setCurrentNoteId, render_render.
    change (renderedWorkspaceNotes
              (setTextValue (content r0) (setCurrentNoteId (id r0) (render st))))
      with (renderedWorkspaceNotes (render st)).
    rewrite Hrn.
    change (currentNoteId
              (setTextValue (content r0) (setCurrentNoteId (id r0) (render st))))
      with (id r0).
    rewrite findNote_head. reflexivity.
Qed.

End ActiveNote.

Lemma settle_settles_witness :
  exists st',
    @settle simple_platform (deleteNote "a" Ex.deleteOldest) = Some st'
    /\ @settle simple_platform st' = Some st'.
Proof.
  eexists. split; [vm_compute; reflexivity|].
  apply (@settle_settles simple_platform (deleteNote "a" Ex.deleteOldest)).
  vm_compute. reflexivity.
Defined.

(** ** No note id is lost *)

Section HeldIds.

Context {P : Platform}.

Lemma map_id_updateNote i f db :
  (forall m, id (f m) = id m) -> map id (updateNote i f db) = map id db.
Proof.
  intro Hf. induction db as [|n r IH]; [reflexivity|].
  simpl. destruct (String.eqb (id n) i); simpl; [rewrite Hf|rewrite IH]; reflexivity.
Qed.

Lemma idsKept_refl rid st : idsKept rid st st.
Proof. left. apply Permutation_refl. Qed.

Lemma openNote_heldIds now i cdb next :
  heldIds (openNote now i cdb next) = heldIds next
  \/ heldIds (openNote now i cdb next)
     = (map id cdb ++ map id (freshlyDeletedNotes next))%list.
Proof.
  unfold openNote. destruct (negb (Js.truthy i)); [left; reflexivity|].
  destruct (findNote i cdb); [|left; reflexivity].
  right. unfold heldIds; simpl. rewrite map_id_updateNote; reflexivity.
Qed.

Lemma openNewNote_ids now rid c w st :
  idsKept (Some rid) st (openNewNote now rid c w st).
Proof.
  unfold openNewNote.
  match goal with |- idsKept _ _ (openNote _ _ ?d ?n) =>
    destruct (openNote_heldIds now rid d n) as [H|H] end.
  - right. exists rid. split; [reflexivity|]. rewrite H.
    unfold heldIds; simpl. rewrite map_app; simpl.
    rewrite <- app_assoc. simpl.
    apply Permutation_sym, Permutation_middle.
  - left. rewrite H. apply Permutation_refl.
Qed.

Lemma runAction_ids now rid a st :
  idsKept (Some rid) st (fst (runAction now rid a st)).
Proof.
  destruct a as [q|w|q|q|]; simpl.
  - exact (openNewNote_ids now rid q "" st).
  - destruct (findNote (currentNoteId st) (database st)) as [n|];
      [|apply idsKept_refl].
    simpl. left.
    match goal with
    | |- Permutation (heldIds (setCmdKSearchQuery _ (openNote _ ?i ?d ?n))) _ =>
        change (Permutation (heldIds (openNote now i d n)) (heldIds st));
        destruct (openNote_heldIds now i d n) as [H|H]; rewrite H
    end; unfold heldIds; simpl;
      (rewrite map_id_updateNote by reflexivity); apply Permutation_refl.
  - exact (openNewNote_ids now rid "" q st).
  - left. unfold heldIds; simpl. rewrite map_map. simpl.
    apply Permutation_app_tail.
    erewrite map_ext; [apply Permutation_refl|].
    intro n. destruct (negb _); reflexivity.
  - left. unfold heldIds; simpl. apply Permutation_app_tail.
    eapply Permutation_trans; [apply Permutation_map, sortNotes_perm|].
    rewrite map_id_updateNote by reflexivity. apply Permutation_refl.
Qed.

Lemma runCmdKSuggestion_ids now rid s st :
  idsKept (Some rid) st (fst (runCmdKSuggestion now rid s st)).
Proof.
  destruct s as [[note|t c col a]|]; simpl.
  - left. destruct (openNote_heldIds now (id note) (database st) st) as [H|H];
      rewrite H; apply Permutation_refl.
  - apply runAction_ids.
  - apply idsKept_refl.
Qed.

Lemma filter_other_ids i db :
  ~ In i (map id db) ->
  filter (fun n => negb (String.eqb (id n) i)) db = db.
Proof.
  induction db as [|n r IH]; intro Hni; [reflexivity|].
  simpl in *. destruct (String.eqb (id n) i) eqn:He.
  - apply String.eqb_eq in He. exfalso. apply Hni. left; exact He.
  - simpl. rewrite IH; [reflexivity|]. intro Hin. apply Hni. right; exact Hin.
Qed.

Lemma filter_found_perm i db d :
  NoDup (map id db) -> findNote i db = Some d ->
  Permutation db (d :: filter (fun n => negb (String.eqb (id n) i)) db).
Proof.
  induction db as [|n r IH]; intros Hnd Hf; [discriminate|].
  unfold findNote in Hf. simpl in Hf. simpl.
  inversion Hnd as [|x l Hni Hnd']; subst.
  destruct (String.eqb (id n) i) eqn:He.
  - inversion Hf; subst d. simpl. apply String.eqb_eq in He. subst i.
    rewrite (filter_other_ids (id n) r Hni). apply Permutation_refl.
  - simpl. eapply Permutation_trans; [|apply perm_swap].
    apply perm_skip. apply IH; assumption.
Qed.

Lemma deleteNote_ids i st :
  NoDup (heldIds st) ->
  Permutation (heldIds (deleteNote i st)) (heldIds st).
Proof.
  intro Hnd. unfold deleteNote.
  destruct (findNote i (database st)) as [d|] eqn:Hf; [|apply Permutation_refl].
  assert (Hdb : NoDup (map id (database st)))
    by (unfold heldIds in Hnd; apply NoDup_app_remove_r in Hnd; exact Hnd).
  pose proof (filter_found_perm i (database st) d Hdb Hf) as Hp.
  assert (Hgoal :
    Permutation
      (map id (filter (fun n => negb (String.eqb (id n) i)) (database st))
       ++ map id (freshlyDeletedNotes st ++ [d]))%list
      (heldIds st)).
  { unfold heldIds. rewrite map_app. simpl.
    apply (Permutation_map id) in Hp. simpl in Hp.
    eapply Permutation_trans;
      [|apply Permutation_app_tail, Permutation_sym, Hp].
    simpl. rewrite app_assoc.
    eapply Permutation_trans; [apply Permutation_app_comm|]. simpl.
    apply perm_skip. apply Permutation_refl. }
  cbv zeta.
  destruct (String.eqb (currentNoteId st) i).
  - destruct (filter (fun n => negb (String.eqb (id n) i)) (database st));
      exact Hgoal.
  - exact Hgoal.
Qed.

Lemma cycleWorkspace_heldIds vl vr e st :
  heldIds (cycleWorkspace vl vr e st) = heldIds st.
Proof.
  unfold cycleWorkspace.
  destruct (indexOf (currentWorkspace st) (navigableWorkspaces st));
    [|reflexivity].
  cbv zeta.
  match goal with |- heldIds (match ?x with _ => _ end) = _ => destruct x end;
    [|reflexivity].
  match goal with |- heldIds (match ?x with _ => _ end) = _ => destruct x end;
    [|reflexivity].
  match goal with |- heldIds (if ?x then _ else _) = _ => destruct x end;
    reflexivity.
Qed.

Lemma undo_heldIds db stack top rest :
  rev stack = top :: rest ->
  Permutation
    (map id (sortNotes (db ++ [top])) ++ map id (rev rest))%list
    (map id db ++ map id stack)%list.
Proof.
  intro Hr.
  assert (Hs : stack = (rev rest ++ [top])%list)
    by (rewrite <- (rev_involutive stack), Hr; reflexivity).
  subst stack.
  eapply Permutation_trans;
    [apply Permutation_app_tail, Permutation_map, sortNotes_perm|].
  rewrite !map_app. simpl. rewrite <- app_assoc. simpl.
  apply Permutation_app_head. apply Permutation_cons_append.
Qed.

Lemma handleKeyDown_ids now rid e st st' :
  NoDup (heldIds st) ->
  handleKeyDown now rid e st = Some st' -> idsKept (Some rid) st st'.
Proof.
  intro Hnd. unfold handleKeyDown. cbv zeta.
  match goal with
  | |- context [if ?c then setHasVimNavigated true st else st] => destruct c
  end.
  all: repeat match goal with
       | |- (if ?c then _ else _) = Some _ -> _ => destruct c
       end.
  all: intro H.
  all: try (inversion H; subst st'; left; exact (Permutation_refl _)).
  all: try (inversion H; subst st'; left; rewrite cycleWorkspace_heldIds;
            exact (Permutation_refl _)).
  all: try (inversion H; subst st';
            match goal with
            | |- idsKept _ _ (openNewNote ?a ?b ?c ?d ?s) =>
                exact (openNewNote_ids a b c d s)
            end).
  all: try (destruct (Js.index (cmdKSuggestions st)
                        (selectedCmdKSuggestionIndex st)) as [[note|t c col a]|];
            [ inversion H; subst st'; left;
              match goal with
              | |- Permutation
                     (heldIds (setSelectedCmdKSuggestionIndex _
                                 (deleteNote ?i ?s))) _ =>
                  exact (deleteNote_ids i s Hnd)
              end
            | inversion H; subst st'; left; exact (Permutation_refl _)
            | discriminate H ]).
  all: try (destruct (rev (freshlyDeletedNotes st)) as [|top rest] eqn:Hr;
            [ inversion H; subst st'; left; exact (Permutation_refl _)
            | inversion H; subst st'; left;
              exact (undo_heldIds _ _ _ _ Hr) ]).
  all: try match type of H with
       | context [runCmdKSuggestion ?a ?b ?c ?s] =>
           pose proof (runCmdKSuggestion_ids a b c s) as Hk;
           destruct (runCmdKSuggestion a b c s) as [st2 close];
           simpl in Hk; destruct close; inversion H; subst st'; exact Hk
       end.
Qed.

Lemma handleKeyUp_ids now rid e st :
  idsKept (Some rid) st (handleKeyUp now rid e st).
Proof.
  unfold handleKeyUp.
  destruct (hasVimNavigated st && isCmdKMenuOpen st
            && (String.eqb (key e) "Meta" || String.eqb (key e) "Control"));
    [|apply idsKept_refl].
  destruct (Nat.ltb 0 (List.length (cmdKSuggestions st))).
  - pose proof (runCmdKSuggestion_ids now rid
                  (Js.index (cmdKSuggestions st)
                     (selectedCmdKSuggestionIndex st)) st) as Hk.
    destruct (runCmdKSuggestion now rid
                (Js.index (cmdKSuggestions st)
                   (selectedCmdKSuggestionIndex st)) st) as [st2 close].
    simpl in Hk. destruct close; exact Hk.
  - left. exact (Permutation_refl _).
Qed.

Lemma settle_ids st st' :
  settle st = Some st' -> Permutation (heldIds st') (heldIds st).
Proof.
  intro Hs. apply settle_Some in Hs.
  destruct Hs as ((Hdb & _ & _ & _ & _ & _ & _ & Hdel & _) & _).
  unfold heldIds. rewrite Hdb, Hdel.
  destruct (render_frame st) as (_ & _ & _ & _ & _ & _ & ->).
  apply Permutation_app_tail, Permutation_map, render_database.
Qed.

Lemma idsKept_NoDup rid st st' :
  NoDup (heldIds st) ->
  (forall r, rid = Some r -> ~ In r (heldIds st)) ->
  idsKept rid st st' -> NoDup (heldIds st').
Proof.
  intros Hnd Hfresh [Hp | (r & Hr & Hp)].
  - eapply Permutation_NoDup; [apply Permutation_sym, Hp|exact Hnd].
  - eapply Permutation_NoDup; [apply Permutation_sym, Hp|].
    constructor; [apply Hfresh, Hr|exact Hnd].
Qed.

(** X5.  From a state in which no two of the notes the application holds,
    in the store or on the stack of deleted notes, share an id, every
    event keeps the ids: none is lost, and the only id that can be added
    is the random id of the event, for a new note.  When that random id is
    not in use, the ids are again pairwise different.  (Without the
    condition [deleteNote] would remove every note of the id and put one
    of them on the stack.) *)
Theorem held_ids_are_kept (ev : Event) (st st' : State) :
  NoDup (heldIds st) ->
  step ev st = Some st' ->
  idsKept (eventId ev) st st'
  /\ ((forall rid, eventId ev = Some rid -> ~ In rid (heldIds st)) ->
      NoDup (heldIds st')).
Proof.
  intros Hnd Hs.
  assert (Hk : idsKept (eventId ev) st st').
  { unfold step in Hs.
    destruct (handle ev st) as [st1|] eqn:Hh.
    - assert (H1 : idsKept (eventId ev) st st1).
      { destruct ev as [now rid e|now rid e|v|i]; simpl in Hh.
        - exact (handleKeyDown_ids now rid e st st1 Hnd Hh).
        - inversion Hh; subst st1. apply handleKeyUp_ids.
        - inversion Hh; subst st1. left. exact (Permutation_refl _).
        - inversion Hh; subst st1. left. apply deleteNote_ids. exact Hnd. }
      apply settle_ids in Hs.
      destruct H1 as [Hp | (r & Hr & Hp)].
      + left. eapply Permutation_trans; eassumption.
      + right. exists r. split; [exact Hr|].
        eapply Permutation_trans; eassumption.
    - inversion Hs; subst st'. apply idsKept_refl. }
  split; [exact Hk|].
  intro Hfresh. eapply idsKept_NoDup; eassumption.
Qed.

End HeldIds.

Lemma held_ids_are_kept_witness :
  exists st',
    @step simple_platform
      (KeyDown Ex.jan9 "r" (mkKey "Enter" true false true)) Ex.taggedClosed
    = Some st'
    /\ heldIds st' = ["a"; "r"]
    /\ NoDup (heldIds st').
Proof.
  eexists. split; [vm_compute; reflexivity|]. split; [reflexivity|].
  apply (@held_ids_are_kept simple_platform
           (KeyDown Ex.jan9 "r" (mkKey "Enter" true false true))
           Ex.taggedClosed).
  - repeat constructor; simpl; intuition discriminate.
  - vm_compute. reflexivity.
  - intros rid Hr. inversion Hr; subst rid. simpl. intuition discriminate.
Defined.

(** ** Quick delete *)

Section QuickDelete.

Context {P : Platform}.

Lemma filter_perm {A : Type} (f : A -> bool) (l l' : list A) :
  Permutation l l' -> Permutation (filter f l) (filter f l').
Proof.
  induction 1 as [|x l l' _ IH|x y l|l l' l'' _ IH1 _ IH2]; simpl.
  - apply perm_nil.
  - destruct (f x); [apply perm_skip|]; exact IH.
  - destruct (f x), (f y); try apply Permutation_refl. apply perm_swap.
  - eapply Permutation_trans; eassumption.
Qed.

Lemma workspaceNotesOf_perm db db' w :
  Permutation db db' ->
  Permutation (workspaceNotesOf db w) (workspaceNotesOf db' w).
Proof.
  intro Hp. destruct w as [w|]; simpl; [apply filter_perm|]; exact Hp.
Qed.

Lemma findNote_of_In db n :
  NoDup (map id db) -> In n db -> findNote (id n) db = Some n.
Proof.
  intros Hnd Hin.
  destruct (findNote (id n) db) as [m|] eqn:Hf.
  - destruct (findNote_Some _ _ _ Hf) as [Hm Hid].
    f_equal. apply (unique_id db); assumption.
  - exfalso. apply (findNote_In (id n) db n Hin eq_refl Hf).
Qed.

Lemma workspaceNotesOf_delete db cw note :
  NoDup (map id db) -> In note (workspaceNotesOf db cw) ->
  Permutation (workspaceNotesOf db cw)
    (note :: workspaceNotesOf
               (filter (fun n => negb (String.eqb (id n) (id note))) db) cw).
Proof.
  intros Hnd Hin.
  assert (Hdb : In note db) by (eapply workspaceNotesOf_In; exact Hin).
  pose proof (filter_found_perm (id note) db note Hnd
                (findNote_of_In db note Hnd Hdb)) as Hp.
  eapply Permutation_trans; [apply workspaceNotesOf_perm, Hp|].
  destruct cw as [w|]; [|apply Permutation_refl].
  rewrite workspaceNotesOf_cons_in; [apply Permutation_refl|].
  eapply workspaceNotesOf_is. exact Hin.
Qed.

(** The rows of the list that are notes are the notes of the [notes] array
    of the memo. *)
Lemma note_suggestion_In st note :
  In (NoteSuggestion note) (cmdKSuggestions st) ->
  In note (matchedNotes (workspaceNotes st) (cmdKSearchQuery st)).
Proof.
  unfold cmdKSuggestions, cmdKSuggestionsOf. cbv zeta. intro Hin.
  apply in_app_or in Hin. destruct Hin as [Hin|Hin].
  - apply in_map_iff in Hin. destruct Hin as (m & Hm & Hin).
    inversion Hm; subst m. exact (proj1 (sortNotes_In _ _) Hin).
  - exfalso. apply in_app_or in Hin. destruct Hin as [Hin|Hin].
    + unfold queryActions in Hin.
      destruct (Js.truthy (trimmedQuery (cmdKSearchQuery st)));
        [|contradiction].
      repeat (apply in_app_or in Hin; destruct Hin as [Hin|Hin]).
      * destruct Hin as [Hin|[]]; discriminate.
      * destruct (matchedWorkspaces _ _); [contradiction|].
        destruct Hin as [Hin|[]]; discriminate.
      * destruct (existsb _ _); [contradiction|].
        destruct Hin as [Hin|[]]; discriminate.
      * destruct Hin as [Hin|[]]; discriminate.
    + unfold unlinkActions in Hin.
      destruct (findNote _ _) as [n|]; [|contradiction].
      destruct (workspace n) as [w|]; [|contradiction].
      destruct (_ && _); [|contradiction].
      destruct Hin as [Hin|[]]; discriminate.
Qed.

Lemma Js_index_In {A : Type} (l : list A) i x :
  Js.index l i = Some x -> In x l.
Proof.
  destruct i as [z|]; simpl; [|discriminate].
  destruct (Z.ltb z 0); [discriminate|]. apply nth_error_In.
Qed.

Lemma matchedNotes_incl wn q :
  (forall l s, incl (Fuse_search notesFuseOptions l s) l) ->
  incl (matchedNotes wn q) wn.
Proof.
  intro Hfuse. unfold matchedNotes.
  destruct (Js.truthy q); [apply Hfuse|apply incl_refl].
Qed.

(** Modifier+Backspace in the open palette. *)
Lemma handleKeyDown_Backspace now rid e st :
  key e = "Backspace" -> ctrlKey e || metaKey e = true ->
  isCmdKMenuOpen st = true ->
  handleKeyDown now rid e st
  = if Nat.ltb 1 (List.length (workspaceNotes st)) then
      match Js.index (cmdKSuggestions st) (selectedCmdKSuggestionIndex st) with
      | None => None
      | Some (NoteSuggestion note) =>
          Some (setSelectedCmdKSuggestionIndex
                  (Js.maxz (Js.addz (selectedCmdKSuggestionIndex st) (-1)) 0)
                  (deleteNote (id note) st))
      | Some (ActionSuggestion _ _ _ _) => Some st
      end
    else Some st.
Proof.
  intros Hk Hm Ho. unfold handleKeyDown. rewrite Hk, Hm, Ho.
  cbn -[cycleWorkspace cmdKSuggestions workspaceNotes deleteNote Nat.ltb].
  rewrite !Bool.andb_true_r.
  destruct (Nat.ltb 1 (List.length (workspaceNotes st))); [reflexivity|].
  rewrite !Bool.andb_false_r.
  cbn -[cycleWorkspace cmdKSuggestions workspaceNotes deleteNote Nat.ltb].
  unfold cycleWorkspace. rewrite Hk.
  destruct (indexOf (currentWorkspace st) (navigableWorkspaces st));
    reflexivity.
Qed.

(** X6.  Modifier+Backspace in the open palette, on a selected note row
    while the filter holds more than one note: the selected note leaves
    the store for the top of the stack of deleted notes, the filter holds
    one note less, the selected index goes one row up and stops at the
    first row, and the palette stays open. *)
Theorem quick_delete_removes_the_selected_note (now rid : string)
  (e : KeyboardEvent) (st : State) (note : Note) :
  key e = "Backspace" -> ctrlKey e || metaKey e = true ->
  isCmdKMenuOpen st = true ->
  (forall l q, incl (Fuse_search notesFuseOptions l q) l) ->
  NoDup (map id (database st)) ->
  (1 < List.length (workspaceNotes st))%nat ->
  Js.index (cmdKSuggestions st) (selectedCmdKSuggestionIndex st)
  = Some (NoteSuggestion note) ->
  exists st',
    step (KeyDown now rid e) st = Some st'
    /\ Permutation (note :: database st') (database st)
    /\ findNote (id note) (database st') = None
    /\ freshlyDeletedNotes st' = (freshlyDeletedNotes st ++ [note])%list
    /\ S (List.length (workspaceNotes st')) = List.length (workspaceNotes st)
    /\ selectedCmdKSuggestionIndex st'
       = Js.maxz (Js.addz (selectedCmdKSuggestionIndex st) (-1)) 0
    /\ isCmdKMenuOpen st' = true.
Proof.
  intros Hk Hm Ho Hfuse Hnd Hlen Hsel.
  assert (Hwn : In note (workspaceNotes st)).
  { apply (matchedNotes_incl (workspaceNotes st) (cmdKSearchQuery st) Hfuse).
    apply note_suggestion_In. eapply Js_index_In. exact Hsel. }
  assert (Hdb : In note (database st))
    by (eapply workspaceNotesOf_In; exact Hwn).
  pose proof (findNote_of_In _ _ Hnd Hdb) as Hfind.
  destruct (deleteNote_found st (id note) note Hfind)
    as (Hd1 & Hd2 & Hd3 & Hd4).
  set (s := setSelectedCmdKSuggestionIndex
              (Js.maxz (Js.addz (selectedCmdKSuggestionIndex st) (-1)) 0)
              (deleteNote (id note) st)).
  assert (Hh : handleKeyDown now rid e st = Some s).
  { rewrite (handleKeyDown_Backspace now rid e st Hk Hm Ho), Hsel.
    apply Nat.ltb_lt in Hlen. rewrite Hlen. reflexivity. }
  pose proof (workspaceNotesOf_delete (database st) (currentWorkspace st)
                note Hnd Hwn) as Hp.
  assert (Hws : workspaceNotes s
                = workspaceNotesOf
                    (filter (fun n => negb (String.eqb (id n) (id note)))
                       (database st)) (currentWorkspace st)).
  { unfold workspaceNotes, s.
    change (database (setSelectedCmdKSuggestionIndex _ ?x)) with (database x).
    change (currentWorkspace (setSelectedCmdKSuggestionIndex _ ?x))
      with (currentWorkspace x).
    rewrite Hd1, Hd3. reflexivity. }
  assert (Hls : S (List.length (workspaceNotes s))
                = List.length (workspaceNotes st)).
  { rewrite Hws. apply Permutation_length in Hp. simpl in Hp.
    symmetry. exact Hp. }
  destruct (workspaceNotes s) as [|n0 r0] eqn:Hn0.
  { simpl in Hls. unfold workspaceNotes in Hlen. unfold workspaceNotes in Hls.
    lia. }
  destruct (settle_succeeds s n0) as (st' & Hs & Hsame);
    [rewrite Hn0; left; reflexivity|].
  destruct Hsame as (Hdb' & Hcw' & Hsel' & _ & Ho' & _ & _ & Hdel' & _).
  destruct (render_frame s) as (Hrcw & _ & Hrsel & _ & Hro & _ & Hrdel).
  assert (Hpdb : Permutation (database st')
                   (filter (fun n => negb (String.eqb (id n) (id note)))
                      (database st))).
  { rewrite Hdb'. eapply Permutation_trans; [apply render_database|].
    unfold s.
    change (database (setSelectedCmdKSuggestionIndex _ ?x)) with (database x).
    rewrite Hd1. apply Permutation_refl. }
  exists st'. split; [unfold step, handle; rewrite Hh; exact Hs|].
  split.
  { eapply Permutation_trans; [apply perm_skip, Hpdb|].
    apply Permutation_sym. apply filter_found_perm; assumption. }
  split.
  { eapply findNote_None_perm; [apply Permutation_sym, Hpdb|].
    apply findNote_None. intros n Hn Hid.
    apply filter_In in Hn. destruct Hn as [_ Hn].
    rewrite Hid, String.eqb_refl in Hn. discriminate. }
  split; [rewrite Hdel', Hrdel; exact Hd2|].
  split.
  { rewrite <- Hls, <- Hn0. f_equal. apply Permutation_length.
    unfold workspaceNotes. rewrite Hcw', Hrcw, Hdb'.
    apply workspaceNotesOf_perm. apply render_database. }
  split; [rewrite Hsel', Hrsel; reflexivity|].
  rewrite Ho', Hro. unfold s.
  change (isCmdKMenuOpen (setSelectedCmdKSuggestionIndex _ ?x))
    with (isCmdKMenuOpen x).
  rewrite Hd4. exact Ho.
Qed.


End QuickDelete.

Lemma simple_platform_search_incl (l : list Note) (q : string) :
  incl (@Fuse_search simple_platform Note notesFuseOptions l q) l.
Proof. intros n Hin. apply filter_In in Hin. exact (proj1 Hin). Qed.

Lemma quick_delete_removes_the_selected_note_witness :
  exists st',
    @step simple_platform (KeyDown Ex.jan9 "r" (Ex.ctrlKeyDown "Backspace"))
      Ex.deleteOldest = Some st'
    /\ freshlyDeletedNotes st' = [Ex.wa]
    /\ selectedCmdKSuggestionIndex st' = Js.Num 1
    /\ List.length (workspaceNotes st') = 2%nat.
Proof.
  destruct (@quick_delete_removes_the_selected_note simple_platform
              Ex.jan9 "r" (Ex.ctrlKeyDown "Backspace") Ex.deleteOldest Ex.wa)
    as (st' & Hs & _ & _ & Hdel & Hlen & Hsel & _).
  - reflexivity.
  - reflexivity.
  - reflexivity.
  - exact simple_platform_search_incl.
  - repeat constructor; simpl; intuition discriminate.
  - simpl. lia.
  - reflexivity.
  - exists st'. split; [exact Hs|]. split; [exact Hdel|].
    split; [exact Hsel|]. simpl in Hlen. lia.
Defined.


(** ** Moving the selection *)

Section Selection.

Context {P : Platform}.








End Selection.


(** ** Cycling through the workspaces, both ways *)

Section CyclingBack.

Context {P : Platform}.

(** "Previous workspace" from entry [k] of the navigable sequence goes to
    entry [(k + length - 1) mod length]. *)
Lemma cycleWorkspace_left vl vr e st k nw :
  NoDup (availableWorkspaces st) ->
  vl || String.eqb (key e) "ArrowLeft" = true ->
  vr || String.eqb (key e) "ArrowRight" = false ->
  nth_error (navigableWorkspaces st) k = Some (currentWorkspace st) ->
  nth_error (navigableWorkspaces st)
    ((k + List.length (navigableWorkspaces st) - 1)
     mod List.length (navigableWorkspaces st)) = Some nw ->
  currentWorkspace (cycleWorkspace vl vr e st) = nw
  /\ database (cycleWorkspace vl vr e st) = database st
  /\ isCmdKMenuOpen (cycleWorkspace vl vr e st) = isCmdKMenuOpen st
  /\ availableWorkspaces (cycleWorkspace vl vr e st) = availableWorkspaces st
  /\ databaseReplaced (cycleWorkspace vl vr e st) = databaseReplaced st.
Proof.
  intros Hnd Hl Hr Hk Hn. unfold cycleWorkspace. unfold navigableWorkspaces in *.
  rewrite (indexOf_nth _ (navigableWorkspacesOf_NoDup _ Hnd) k _ Hk).
  rewrite Hl, Hr.
  set (nav := navigableWorkspacesOf (availableWorkspaces st)) in *.
  assert (HL : (0 < List.length nav)%nat) by (subst nav; simpl; lia).
  replace (Z.rem (Z.of_nat k - 1 + Z.of_nat (List.length nav))
             (Z.of_nat (List.length nav)))
    with (Z.of_nat ((k + List.length nav - 1) mod List.length nav)).
  2:{ rewrite Z.rem_mod_nonneg by lia.
      rewrite Nat2Z.inj_mod. f_equal. lia. }
  rewrite Js_index_nat, Hn.
  destruct (option_string_eqb nw (currentWorkspace st)) eqn:E; simpl.
  - apply option_string_eqb_eq in E. auto.
  - auto.
Qed.

Lemma handleKeyDown_previous now rid e st :
  previousWorkspaceKey e -> isCmdKMenuOpen st = true ->
  exists vl vr st1,
    handleKeyDown now rid e st = Some (cycleWorkspace vl vr e st1)
    /\ vl || String.eqb (key e) "ArrowLeft" = true
    /\ vr || String.eqb (key e) "ArrowRight" = false
    /\ database st1 = database st
    /\ currentWorkspace st1 = currentWorkspace st
    /\ isCmdKMenuOpen st1 = true
    /\ availableWorkspaces st1 = availableWorkspaces st
    /\ databaseReplaced st1 = databaseReplaced st.
Proof.
  intros [Hk | [Hk Hm]] Ho; unfold handleKeyDown; rewrite Hk, Ho.
  - cbn -[cycleWorkspace cmdKSuggestions].
    rewrite !Bool.andb_false_r. cbn -[cycleWorkspace cmdKSuggestions].
    do 3 eexists. split; [reflexivity|].
    repeat split; try reflexivity. exact Ho.
  - rewrite Hm. cbn -[cycleWorkspace cmdKSuggestions].
    rewrite !Bool.andb_false_r. cbn -[cycleWorkspace cmdKSuggestions].
    do 3 eexists. split; [reflexivity|].
    repeat split; try reflexivity. exact Ho.
Qed.

(** A handler that left the palette at an entry of the navigable sequence
    of an up-to-date memo is followed by a render whose effect succeeds. *)
Lemma cycling_settle db0 j s :
  db0 <> [] -> cyclingAt db0 j s ->
  exists st', settle s = Some st' /\ cyclingAt db0 j st'.
Proof.
  intros Hne (Ho & Hdbs & Hfs & Hmemo & Hj).
  set (nav := navigableWorkspacesOf (availableWorkspacesOf db0)) in *.
  set (L := List.length nav) in *.
  assert (Hin : exists n, In n (workspaceNotes s)).
  { unfold workspaceNotes.
    destruct (currentWorkspace s) as [w|] eqn:Hcw.
    - assert (Hw : In w (availableWorkspacesOf db0)).
      { apply nth_error_In in Hj. subst nav.
        unfold navigableWorkspacesOf in Hj.
        destruct Hj as [Hj | Hj]; [discriminate|].
        apply in_map_iff in Hj. destruct Hj as (w' & Hw' & Hin').
        inversion Hw'; subst. exact Hin'. }
      destruct (availableWorkspaces_note db0 w Hw) as (n & Hn & Hnw').
      exists n. apply workspaceNotesOf_In_iff. split.
      + destruct Hdbs as [-> | ->]; [exact Hn | apply sortNotes_In; exact Hn].
      + right. rewrite Hnw'. simpl. apply String.eqb_refl.
    - simpl. destruct db0 as [|n0 r0]; [contradiction|].
      exists n0. destruct Hdbs as [-> | ->];
        [left; reflexivity | apply sortNotes_In; left; reflexivity]. }
  destruct Hin as (n & Hn).
  destruct (settle_succeeds s n Hn)
    as (st' & Hs & Hdb' & Hcw' & _ & _ & Ho' & _ & _ & _ & Hm' & Hf').
  exists st'. split; [exact Hs|].
  destruct (render_frame s) as (Hrcw & _ & _ & _ & Hro & _).
  destruct (render_memo s) as (Hrf & Hrm).
  rewrite Hfs in Hrm.
  split; [rewrite Ho', Hro; exact Ho|]. split.
  { rewrite Hdb'. unfold render. rewrite Hfs.
    cbn [database setDatabaseSame]. unfold sortedByRender.
    destruct (currentWorkspace s); [exact Hdbs|].
    destruct (Js.truthy (cmdKSearchQuery s)); [exact Hdbs|].
    right. destruct Hdbs as [-> | ->]; [reflexivity | apply sortNotes_idem]. }
  split; [rewrite Hf'; exact Hrf|].
  split; [rewrite Hm', Hrm; exact Hmemo|].
  fold nav. fold L. rewrite Hcw', Hrcw. exact Hj.
Qed.

Lemma cycling_step_back now rid e db0 j st :
  previousWorkspaceKey e -> db0 <> [] ->
  cyclingAt db0 (S j) st ->
  exists st', step (KeyDown now rid e) st = Some st' /\ cyclingAt db0 j st'.
Proof.
  intros He Hne (Ho & Hdb & Hfl & Hmemo & Hj).
  assert (Hnav : navigableWorkspaces st
                 = navigableWorkspacesOf (availableWorkspacesOf db0))
    by (unfold navigableWorkspaces; rewrite Hmemo; reflexivity).
  set (nav := navigableWorkspacesOf (availableWorkspacesOf db0)) in *.
  set (L := List.length nav) in *.
  assert (HL : (0 < L)%nat) by (subst L nav; simpl; lia).
  assert (Hmod : ((S j mod L + L - 1) mod L = j mod L)%nat).
  { replace (S j mod L + L - 1)%nat with (S j mod L + (L - 1))%nat by lia.
    rewrite Nat.Div0.add_mod_idemp_l.
    replace (S j + (L - 1))%nat with (j + 1 * L)%nat by lia.
    apply Nat.Div0.mod_add. }
  destruct (nth_error nav (j mod L)) as [nw|] eqn:Hnw.
  2:{ exfalso. apply nth_error_None in Hnw.
      pose proof (Nat.mod_upper_bound j L). fold L in Hnw. lia. }
  destruct (handleKeyDown_previous now rid e st He Ho)
    as (vl & vr & st1 & Hh & Hl & Hr & Hdb1 & Hcw1 & Ho1 & Hm1 & Hf1).
  assert (Hnav1 : navigableWorkspaces st1 = nav)
    by (unfold navigableWorkspaces; rewrite Hm1; exact Hnav).
  destruct (cycleWorkspace_left vl vr e st1 (S j mod L) nw)
    as (Hcw2 & Hdb2 & Ho2 & Hm2 & Hf2).
  { rewrite Hm1, Hmemo. apply availableWorkspaces_NoDup. }
  { exact Hl. }
  { exact Hr. }
  { rewrite Hnav1, Hcw1. exact Hj. }
  { rewrite Hnav1. fold L. rewrite Hmod. exact Hnw. }
  destruct (cycling_settle db0 j (cycleWorkspace vl vr e st1) Hne)
    as (st' & Hs & Hc).
  { split; [rewrite Ho2; exact Ho1|].
    split; [rewrite Hdb2, Hdb1; exact Hdb|].
    split; [rewrite Hf2, Hf1; exact Hfl|].
    split; [rewrite Hm2, Hm1; exact Hmemo|].
    fold nav. fold L. rewrite Hcw2. exact Hnw. }
  exists st'. split; [|exact Hc].
  unfold step, handle. rewrite Hh. exact Hs.
Qed.

(** X9.  While the workspace list is the one of the store, "previous
    workspace" undoes "next workspace" and the other way round: in the open
    palette over a non-empty store, from the "all" filter or the filter of
    a workspace of the list, the two keys one after the other succeed and
    end on the filter they started from. *)
Theorem previous_workspace_undoes_next (now rid : string)
  (next previous : KeyboardEvent) (st : State) :
  nextWorkspaceKey next -> previousWorkspaceKey previous ->
  isCmdKMenuOpen st = true ->
  database st <> [] ->
  databaseReplaced st = false ->
  availableWorkspaces st = availableWorkspacesOf (database st) ->
  In (currentWorkspace st) (navigableWorkspaces st) ->
  (exists st',
      run [KeyDown now rid next; KeyDown now rid previous] st = Some st'
      /\ currentWorkspace st' = currentWorkspace st)
  /\ (exists st',
         run [KeyDown now rid previous; KeyDown now rid next] st = Some st'
         /\ currentWorkspace st' = currentWorkspace st).
Proof.
  intros Hn Hp Ho Hne Hfl Hmemo Hin.
  set (db0 := database st) in *.
  assert (Hnav : navigableWorkspaces st
                 = navigableWorkspacesOf (availableWorkspacesOf db0))
    by (unfold navigableWorkspaces; rewrite Hmemo; reflexivity).
  rewrite Hnav in Hin.
  set (nav := navigableWorkspacesOf (availableWorkspacesOf db0)) in *.
  set (L := List.length nav) in *.
  assert (HL : (0 < L)%nat) by (subst L nav; simpl; lia).
  destruct (In_nth_error _ _ Hin) as (k & Hk).
  assert (HkL : (k < L)%nat)
    by (apply nth_error_Some; rewrite Hk; discriminate).
  assert (Hat : forall j, (j mod L = k)%nat -> cyclingAt db0 j st).
  { intros j Hj. split; [exact Ho|]. split; [left; reflexivity|].
    split; [exact Hfl|]. split; [exact Hmemo|].
    fold nav. fold L. rewrite Hj. exact Hk. }
  assert (Hend : forall j st', (j mod L = k)%nat -> cyclingAt db0 j st' ->
                               currentWorkspace st' = currentWorkspace st).
  { intros j st' Hj (_ & _ & _ & _ & Hc). fold nav in Hc. fold L in Hc.
    rewrite Hj, Hk in Hc. inversion Hc. reflexivity. }
  split.
  - destruct (cycling_step now rid next db0 k st Hn Hne) as (st1 & Hs1 & Hc1);
      [apply Hat, Nat.mod_small, HkL|].
    destruct (cycling_step_back now rid previous db0 k st1 Hp Hne Hc1)
      as (st2 & Hs2 & Hc2).
    exists st2. split; [cbn [run]; rewrite Hs1, Hs2; reflexivity|].
    apply (Hend k); [apply Nat.mod_small, HkL|exact Hc2].
  - assert (Hj : ((S (k + L - 1)) mod L = k)%nat).
    { replace (S (k + L - 1)) with (k + 1 * L)%nat by lia.
      rewrite Nat.Div0.mod_add. apply Nat.mod_small, HkL. }
    destruct (cycling_step_back now rid previous db0 (k + L - 1) st Hp Hne)
      as (st1 & Hs1 & Hc1); [apply Hat, Hj|].
    destruct (cycling_step now rid next db0 (k + L - 1) st1 Hn Hne Hc1)
      as (st2 & Hs2 & Hc2).
    exists st2. split; [cbn [run]; rewrite Hs1, Hs2; reflexivity|].
    apply (Hend (S (k + L - 1))); [exact Hj|exact Hc2].
Qed.

End CyclingBack.

Lemma previous_workspace_undoes_next_witness :
  exists st',
    @run simple_platform
      [KeyDown Ex.jan9 "r" (Ex.noKey "ArrowLeft");
       KeyDown Ex.jan9 "r" (Ex.noKey "ArrowRight")] Ex.cycling = Some st'
    /\ currentWorkspace st' = None.
Proof.
  destruct (@previous_workspace_undoes_next simple_platform Ex.jan9 "r"
              (Ex.noKey "ArrowRight") (Ex.noKey "ArrowLeft") Ex.cycling)
    as [_ H].
  - left. reflexivity.
  - left. reflexivity.
  - reflexivity.
  - discriminate.
  - reflexivity.
  - reflexivity.
  - left. reflexivity.
  - exact H.
Defined.

(** ** Committing a row with Enter *)

Section Commit.

Context {P : Platform}.

(** Enter in the open palette runs the selected row. *)
Lemma handleKeyDown_Enter now rid e st :
  key e = "Enter" -> isCmdKMenuOpen st = true ->
  handleKeyDown now rid e st
  = Some (if snd (runCmdKSuggestion now rid
                    (Js.index (cmdKSuggestions st)
                       (selectedCmdKSuggestionIndex st)) st)
          then setSelectedCmdKSuggestionIndex (Js.Num 0)
                 (setIsCmdKMenuOpen false
                    (fst (runCmdKSuggestion now rid
                            (Js.index (cmdKSuggestions st)
                               (selectedCmdKSuggestionIndex st)) st)))
          else fst (runCmdKSuggestion now rid
                      (Js.index (cmdKSuggestions st)
                         (selectedCmdKSuggestionIndex st)) st)).
Proof.
  intros Hk Ho. unfold handleKeyDown. rewrite Hk, Ho.
  cbn -[cycleWorkspace cmdKSuggestions workspaceNotes runCmdKSuggestion Nat.ltb].
  rewrite !Bool.andb_false_r.
  cbn -[cycleWorkspace cmdKSuggestions workspaceNotes runCmdKSuggestion Nat.ltb].
  destruct (runCmdKSuggestion now rid
              (Js.index (cmdKSuggestions st) (selectedCmdKSuggestionIndex st))
              st) as [st2 close].
  reflexivity.
Qed.

(** When the active note is in the filter and no other note of the filter
    has its id, the render and its effect keep it and show its content. *)
Lemma settle_keeps_active s n :
  findNote (currentNoteId s) (workspaceNotes s) = Some n ->
  (forall m, In m (workspaceNotes s) -> id m = id n -> m = n) ->
  settle s = Some (setTextValue (content n) (render s)).
Proof.
  intros Hf Huniq.
  assert (Hp : Permutation (renderedWorkspaceNotes (render s))
                 (workspaceNotes s)).
  { eapply Permutation_trans; [apply renderedWorkspaceNotes_perm|].
    apply workspaceNotes_render. }
  destruct (findNote_Some _ _ _ Hf) as [Hin Hid].
  unfold settle, currentNoteEffect.
  destruct (render_frame s) as (_ & Hcn & _). rewrite Hcn.
  destruct (findNote (currentNoteId s) (renderedWorkspaceNotes (render s)))
    as [m|] eqn:Hm.
  - destruct (findNote_Some _ _ _ Hm) as [Hmin Hmid].
    assert (m = n).
    { apply Huniq; [eapply Permutation_in; eassumption|congruence]. }
    subst m. reflexivity.
  - exfalso.
    apply (findNote_In (currentNoteId s) (renderedWorkspaceNotes (render s)) n);
      [eapply Permutation_in; [apply Permutation_sym, Hp|exact Hin]
      |exact Hid|exact Hm].
Qed.

Lemma findNote_app_new i l n :
  findNote i l = None -> id n = i -> findNote i (l ++ [n]) = Some n.
Proof.
  intros Hl Hn. induction l as [|m r IH]; unfold findNote in *; simpl in *.
  - rewrite Hn, String.eqb_refl. reflexivity.
  - destruct (String.eqb (id m) i); [discriminate|]. apply IH. exact Hl.
Qed.

Lemma findNote_None_filter i (f : Note -> bool) l :
  findNote i l = None -> findNote i (filter f l) = None.
Proof.
  intro H. apply findNote_None. intros n Hn.
  apply filter_In in Hn. destruct Hn as [Hn _].
  revert n Hn. apply findNote_None. exact H.
Qed.

Lemma workspaceNotesOf_app_new db cw n :
  (cw = None \/ workspace_is (workspace n) cw = true) ->
  workspaceNotesOf (db ++ [n]) cw = (workspaceNotesOf db cw ++ [n])%list.
Proof.
  intros [-> | Hw]; [reflexivity|].
  destruct cw as [w|]; [|reflexivity].
  unfold workspaceNotesOf. rewrite filter_app. cbn [filter]. rewrite Hw.
  reflexivity.
Qed.

Lemma findNote_None_workspaceNotesOf i db cw :
  findNote i db = None -> findNote i (workspaceNotesOf db cw) = None.
Proof.
  intro H. destruct cw as [w|]; [apply findNote_None_filter|]; exact H.
Qed.

(** With an id that no note of the store has, [openNewNote] adds the note
    at the end of a new array and makes it the active note. *)
Lemma openNewNote_fresh now rid c w st :
  findNote rid (database st) = None ->
  openNewNote now rid c w st
  = setTextValue ""
      (setCurrentNoteId rid
         (setDatabase
            (database st
             ++ [mkNote rid c now
                   (if Js.truthy w then Some w else currentWorkspace st)])%list
            st)).
Proof.
  intro Hf. unfold openNewNote, openNote. rewrite Hf.
  destruct (negb (Js.truthy rid)); reflexivity.
Qed.

(** The state [s] a handler left holds, at the end of the store, a new
    note that is in the filter: the render and its effect succeed, the new
    note is the active one, and the text area shows its content. *)
Lemma new_note_settles s db rid new :
  database s = (db ++ [new])%list -> findNote rid db = None ->
  id new = rid -> currentNoteId s = rid ->
  (currentWorkspace s = None
   \/ workspace_is (workspace new) (currentWorkspace s) = true) ->
  settle s = Some (setTextValue (content new) (render s))
  /\ workspaceNotes s
     = (workspaceNotesOf db (currentWorkspace s) ++ [new])%list.
Proof.
  intros Hdb Hfresh Hid Hcn Hw.
  assert (Hwn : workspaceNotes s
                = (workspaceNotesOf db (currentWorkspace s) ++ [new])%list).
  { unfold workspaceNotes. rewrite Hdb.
    apply workspaceNotesOf_app_new. exact Hw. }
  split; [|exact Hwn].
  apply settle_keeps_active.
  - rewrite Hwn, Hcn. apply findNote_app_new; [|exact Hid].
    apply findNote_None_workspaceNotesOf. exact Hfresh.
  - intros m Hm Hmid. rewrite Hwn in Hm. apply in_app_or in Hm.
    destruct Hm as [Hm | [Hm | []]]; [|symmetry; exact Hm].
    exfalso.
    pose proof (findNote_None_workspaceNotesOf rid db (currentWorkspace s)
                  Hfresh) as Hnone.
    apply (proj1 (findNote_None _ _) Hnone m Hm). congruence.
Qed.

(** The rows that carry an action are those the memo builds from the
    trimmed query. *)
Lemma action_row st t c col a :
  In (ActionSuggestion t c col a) (cmdKSuggestions st) ->
  match a with
  | CreateNewNote q | RenameWorkspace q =>
      q = trimmedQuery (cmdKSearchQuery st) /\ Js.truthy q = true
  | CreateWorkspace q =>
      q = trimmedQuery (cmdKSearchQuery st) /\ Js.truthy q = true
      /\ ~ In q (availableWorkspaces st)
  | MoveNoteTo w =>
      Js.truthy (trimmedQuery (cmdKSearchQuery st)) = true
      /\ exists r, matchedWorkspaces (availableWorkspaces st)
                     (cmdKSearchQuery st) = w :: r
  | UnlinkNote =>
      exists n w, findNote (currentNoteId st) (database st) = Some n
                  /\ workspace n = Some w /\ Js.truthy w = true
  end.
Proof.
  unfold cmdKSuggestions, cmdKSuggestionsOf. cbv zeta. intro Hin.
  apply in_app_or in Hin. destruct Hin as [Hin|Hin].
  { apply in_map_iff in Hin. destruct Hin as (m & Hm & _). discriminate. }
  apply in_app_or in Hin. destruct Hin as [Hin|Hin].
  - unfold queryActions in Hin.
    destruct (Js.truthy (trimmedQuery (cmdKSearchQuery st))) eqn:Ht;
      [|contradiction].
    repeat (apply in_app_or in Hin; destruct Hin as [Hin|Hin]).
    + destruct Hin as [Hin|[]]. inversion Hin; subst. auto.
    + destruct (matchedWorkspaces _ _) as [|w r] eqn:Hmw; [contradiction|].
      destruct Hin as [Hin|[]]. inversion Hin; subst.
      split; [reflexivity|]. exists r. reflexivity.
    + destruct (existsb _ _) eqn:Hex; [contradiction|].
      destruct Hin as [Hin|[]]. inversion Hin; subst.
      split; [reflexivity|]. split; [exact Ht|].
      intro Hq. 
      assert (existsb (fun w => String.eqb w (trimmedQuery (cmdKSearchQuery st)))
                (availableWorkspaces st) = true).
      { apply existsb_exists. eexists. split; [exact Hq|].
        apply String.eqb_refl. }
      congruence.
    + destruct Hin as [Hin|[]]. inversion Hin; subst. auto.
  - unfold unlinkActions in Hin.
    destruct (findNote _ _) as [n|] eqn:Hf; [|contradiction].
    destruct (workspace n) as [w|] eqn:Hw; [|contradiction].
    destruct (Js.truthy w) eqn:Ht; [|contradiction].
    destruct (_ || _); [|contradiction].
    destruct Hin as [Hin|[]]. inversion Hin; subst.
    exists n, w. auto.
Qed.

(** X10.  Enter on the row "create new note": with a random id that is
    not in use, the store gains one note whose content is the trimmed
    query, with the time of the event and the tag of the filter; the note
    becomes the active one and the text area shows the query; the palette
    closes with an empty query and the index on the first row; the
    workspace list is computed anew. *)
Theorem create_note_row_adds_a_note (now rid : string) (e : KeyboardEvent)
  (st : State) (title acontent color q : string) :
  key e = "Enter" -> isCmdKMenuOpen st = true ->
  Js.index (cmdKSuggestions st) (selectedCmdKSuggestionIndex st)
  = Some (ActionSuggestion title acontent color (CreateNewNote q)) ->
  findNote rid (database st) = None ->
  let new := mkNote rid q now (currentWorkspace st) in
  exists st',
    step (KeyDown now rid e) st = Some st'
    /\ q = trimmedQuery (cmdKSearchQuery st)
    /\ Permutation (database st') (database st ++ [new])
    /\ In new (workspaceNotes st')
    /\ currentNoteId st' = rid
    /\ textValue st' = q
    /\ currentWorkspace st' = currentWorkspace st
    /\ isCmdKMenuOpen st' = false
    /\ cmdKSearchQuery st' = ""
    /\ selectedCmdKSuggestionIndex st' = Js.Num 0
    /\ availableWorkspaces st' = availableWorkspacesOf (database st ++ [new]).
Proof.
  intros Hk Ho Hsel Hfresh new.
  destruct (action_row st title acontent color (CreateNewNote q)
              (Js_index_In _ _ _ Hsel)) as [Hq _].
  pose proof (handleKeyDown_Enter now rid e st Hk Ho) as Hh.
  rewrite Hsel in Hh. simpl in Hh. rewrite openNewNote_fresh in Hh by exact Hfresh.
  simpl in Hh. fold new in Hh.
  match type of Hh with _ = Some ?x => set (s := x) in * end.
  destruct (new_note_settles s (database st) rid new) as [Hs Hwn];
    try reflexivity; try exact Hfresh.
  { simpl. destruct (currentWorkspace st) as [w|]; [right|left; reflexivity].
    simpl. apply String.eqb_refl. }
  exists (setTextValue (content new) (render s)).
  split; [unfold step, handle; rewrite Hh; exact Hs|].
  split; [exact Hq|].
  split; [apply (sortedByRender_perm s)|].
  split.
  { apply (Permutation_in _ (Permutation_sym (workspaceNotes_render s))).
    rewrite Hwn. apply in_or_app. right. left. reflexivity. }
  destruct (render_memo s) as [_ Hmemo].
  repeat split; try exact Hmemo.
Qed.

(** X11.  The new-note chord (modifier+Shift+Enter with the palette and the
    help menu closed) does nothing while the text area holds white space
    only.  Otherwise, with a random id that is not in use, the store gains
    an empty note with the time of the event and the tag of the filter,
    which becomes the active note with an empty text area. *)
Theorem new_note_chord (now rid : string) (e : KeyboardEvent) (st : State) :
  key e = "Enter" -> ctrlKey e || metaKey e = true -> shiftKey e = true ->
  isCmdKMenuOpen st = false -> isHelpMenuOpen st = false ->
  findNote rid (database st) = None ->
  let new := mkNote rid "" now (currentWorkspace st) in
  (Js.truthy (Js.trim (textValue st)) = false ->
   handleKeyDown now rid e st = Some st)
  /\ (Js.truthy (Js.trim (textValue st)) = true ->
      exists st',
        step (KeyDown now rid e) st = Some st'
        /\ Permutation (database st') (database st ++ [new])
        /\ In new (workspaceNotes st')
        /\ currentNoteId st' = rid
        /\ textValue st' = ""
        /\ currentWorkspace st' = currentWorkspace st
        /\ isCmdKMenuOpen st' = false
        /\ availableWorkspaces st'
           = availableWorkspacesOf (database st ++ [new])).
Proof.
  intros Hk Hm Hshift Ho Hhelp Hfresh new.
  assert (Hh : handleKeyDown now rid e st
               = if Js.truthy (Js.trim (textValue st))
                 then Some (openNewNote now rid "" "" st) else Some st).
  { unfold handleKeyDown. rewrite Hk, Hm, Hshift, Ho, Hhelp.
    cbn -[openNewNote Js.trim].
    destruct (Js.truthy (Js.trim (textValue st))); reflexivity. }
  split; intro Ht; rewrite Ht in Hh; [exact Hh|].
  rewrite openNewNote_fresh in Hh by exact Hfresh.
  simpl in Hh. fold new in Hh.
  match type of Hh with _ = Some ?x => set (s := x) in * end.
  destruct (new_note_settles s (database st) rid new) as [Hs Hwn];
    try reflexivity; try exact Hfresh.
  { simpl. destruct (currentWorkspace st) as [w|]; [right|left; reflexivity].
    simpl. apply String.eqb_refl. }
  exists (setTextValue (content new) (render s)).
  split; [unfold step, handle; rewrite Hh; exact Hs|].
  split; [apply (sortedByRender_perm s)|].
  split.
  { apply (Permutation_in _ (Permutation_sym (workspaceNotes_render s))).
    rewrite Hwn. apply in_or_app. right. left. reflexivity. }
  destruct (render_memo s) as [_ Hmemo].
  repeat split; try exact Ho; try exact Hmemo.
Qed.

Lemma workspaceNotesOf_untagged db q :
  (forall n, In n db -> workspace n <> Some q) ->
  workspaceNotesOf db (Some q) = [].
Proof.
  intro H. destruct (workspaceNotesOf db (Some q)) as [|n r] eqn:Hw;
    [reflexivity|].
  exfalso.
  assert (Hin : In n (workspaceNotesOf db (Some q)))
    by (rewrite Hw; left; reflexivity).
  pose proof (workspaceNotesOf_is n db q Hin) as His.
  apply workspace_is_spec in His. destruct His as (c & Hc & Hn).
  inversion Hc; subst c.
  apply (H n); [eapply workspaceNotesOf_In; exact Hin|exact Hn].
Qed.

(** X12.  Enter on the row "create workspace": with a random id that is
    not in use, the store gains at its end an empty note tagged with the
    trimmed query, the filter becomes that tag, the new note is the active
    one with an empty text area, the tag is in the workspace list, and the
    palette stays open with an empty query and the index on the first row.
    When the workspace list was the one of the store, the new note is the
    only note of the filter. *)
Theorem create_workspace_row_opens_a_workspace (now rid : string)
  (e : KeyboardEvent) (st : State) (title acontent color q : string) :
  key e = "Enter" -> isCmdKMenuOpen st = true ->
  Js.index (cmdKSuggestions st) (selectedCmdKSuggestionIndex st)
  = Some (ActionSuggestion title acontent color (CreateWorkspace q)) ->
  findNote rid (database st) = None ->
  let new := mkNote rid "" now (Some q) in
  exists st',
    step (KeyDown now rid e) st = Some st'
    /\ q = trimmedQuery (cmdKSearchQuery st)
    /\ database st' = (database st ++ [new])%list
    /\ currentWorkspace st' = Some q
    /\ workspaceNotes st'
       = (workspaceNotesOf (database st) (Some q) ++ [new])%list
    /\ (availableWorkspaces st = availableWorkspacesOf (database st) ->
        workspaceNotes st' = [new])
    /\ currentNoteId st' = rid
    /\ textValue st' = ""
    /\ In q (availableWorkspaces st')
    /\ isCmdKMenuOpen st' = true
    /\ cmdKSearchQuery st' = ""
    /\ selectedCmdKSuggestionIndex st' = Js.Num 0.
Proof.
  intros Hk Ho Hsel Hfresh new.
  destruct (action_row st title acontent color (CreateWorkspace q)
              (Js_index_In _ _ _ Hsel)) as (Hq & Ht & Hnew).
  pose proof (handleKeyDown_Enter now rid e st Hk Ho) as Hh.
  rewrite Hsel in Hh. cbn [runCmdKSuggestion runAction fst snd] in Hh.
  rewrite openNewNote_fresh in Hh by exact Hfresh.
  rewrite Ht in Hh. fold new in Hh.
  match type of Hh with _ = Some ?x => set (s := x) in * end.
  destruct (new_note_settles s (database st) rid new) as [Hs Hwn];
    try reflexivity; try exact Hfresh.
  { right. simpl. apply String.eqb_refl. }
  exists (setTextValue (content new) (render s)).
  split; [unfold step, handle; rewrite Hh; exact Hs|].
  split; [exact Hq|].
  split; [reflexivity|].
  split; [reflexivity|].
  split; [exact Hwn|].
  split.
  { intro Hmemo. change (workspaceNotes (setTextValue (content new) (render s)))
      with (workspaceNotes s). rewrite Hwn.
    change (currentWorkspace s) with (Some q).
    rewrite workspaceNotesOf_untagged; [reflexivity|].
    intros n Hn Hw. apply Hnew. rewrite Hmemo.
    exact (availableWorkspaces_complete (database st) n q Hn Hw Ht). }
  split; [reflexivity|]. split; [reflexivity|].
  split.
  { change (In q (availableWorkspacesOf (database st ++ [new]))).
    apply (availableWorkspaces_complete _ new q);
      [apply in_or_app; right; left; reflexivity|reflexivity|exact Ht]. }
  repeat split. exact Ho.
Qed.

Lemma findNote_filter_Some i (f : Note -> bool) l m :
  findNote i l = Some m -> f m = true -> findNote i (filter f l) = Some m.
Proof.
  intros Hf Hm. induction l as [|x r IH]; [discriminate|].
  unfold findNote in *. simpl in *.
  destruct (String.eqb (id x) i) eqn:He.
  - inversion Hf; subst x. rewrite Hm. simpl. rewrite He. reflexivity.
  - destruct (f x); simpl; [rewrite He|]; apply IH; exact Hf.
Qed.

Lemma updateNote_twice i f g db :
  (forall m, id (f m) = id m) ->
  updateNote i g (updateNote i f db) = updateNote i (fun m => g (f m)) db.
Proof.
  intro Hid. induction db as [|x r IH]; [reflexivity|].
  simpl. destruct (String.eqb (id x) i) eqn:He; simpl.
  - rewrite Hid, He. reflexivity.
  - rewrite He, IH. reflexivity.
Qed.

(** The state [s] a handler left has the filter [w] and, as its active
    note, a note that the handler gave the tag [w]. *)
Lemma retagged_note_settles s db cnid g n w :
  database s = updateNote cnid g db -> NoDup (map id db) ->
  findNote cnid db = Some n -> (forall m, id (g m) = id m) ->
  workspace (g n) = Some w -> currentWorkspace s = Some w ->
  currentNoteId s = cnid ->
  settle s = Some (setTextValue (content (g n)) (render s))
  /\ database (render s) = database s.
Proof.
  intros Hdb Hnd Hfind Hg Hw Hcw Hcn.
  split; [|exact (render_database_filter s w Hcw)].
  apply settle_keeps_active.
  - unfold workspaceNotes. rewrite Hcw, Hcn, Hdb. unfold workspaceNotesOf.
    apply findNote_filter_Some.
    + apply updateNote_find; assumption.
    + rewrite Hw. simpl. apply String.eqb_refl.
  - intros m Hm Hmid. unfold workspaceNotes in Hm.
    apply workspaceNotesOf_In in Hm. rewrite Hdb in Hm.
    apply (unique_id (updateNote cnid g db)).
    + rewrite map_id_updateNote by exact Hg. exact Hnd.
    + exact Hm.
    + eapply updateNote_In_new. exact Hfind.
    + exact Hmid.
Qed.

(** X13.  Enter on the row "move note to [w]".  Without an active note in
    the store the palette closes and nothing else happens.  Otherwise the
    active note takes the tag [w] and, when its id is not empty, the time
    of the event; no other note changes; the filter becomes [w], where the
    note stays the active one and the text area shows its content; the
    palette stays open with an empty query and the index on the first
    row.  The workspace list is not computed anew. *)
Theorem move_row_retags_the_active_note (now rid : string)
  (e : KeyboardEvent) (st : State) (title acontent color w : string) :
  key e = "Enter" -> isCmdKMenuOpen st = true ->
  Js.index (cmdKSuggestions st) (selectedCmdKSuggestionIndex st)
  = Some (ActionSuggestion title acontent color (MoveNoteTo w)) ->
  (findNote (currentNoteId st) (database st) = None ->
   handleKeyDown now rid e st
   = Some (setSelectedCmdKSuggestionIndex (Js.Num 0)
             (setIsCmdKMenuOpen false st)))
  /\ (forall n,
         NoDup (map id (database st)) ->
         findNote (currentNoteId st) (database st) = Some n ->
         let move := fun m =>
           mkNote (id m) (content m)
             (if Js.truthy (currentNoteId st) then now else updatedAt m)
             (Some w) in
         exists st',
           step (KeyDown now rid e) st = Some st'
           /\ database st'
              = updateNote (currentNoteId st) move (database st)
           /\ findNote (currentNoteId st) (database st') = Some (move n)
           /\ currentWorkspace st' = Some w
           /\ currentNoteId st' = currentNoteId st
           /\ textValue st' = content n
           /\ isCmdKMenuOpen st' = true
           /\ cmdKSearchQuery st' = ""
           /\ selectedCmdKSuggestionIndex st' = Js.Num 0
           /\ availableWorkspaces st' = availableWorkspaces st).
Proof.
  intros Hk Ho Hsel.
  pose proof (handleKeyDown_Enter now rid e st Hk Ho) as Hh.
  rewrite Hsel in Hh. cbn [runCmdKSuggestion runAction] in Hh.
  split.
  - intro Hnone. rewrite Hnone in Hh. exact Hh.
  - intros n Hnd Hfind move. rewrite Hfind in Hh.
    destruct (findNote_Some _ _ _ Hfind) as [Hin Hid].
    cbv zeta in Hh. cbn [fst snd] in Hh.
    assert (Hf1 : findNote (currentNoteId st)
                    (updateNote (currentNoteId st) (set_workspace (Some w))
                       (database st))
                  = Some (set_workspace (Some w) n))
      by (apply updateNote_find; [reflexivity|exact Hfind]).
    unfold openNote in Hh. rewrite Hid in Hh.
    assert (Hfm : findNote (currentNoteId st)
                    (updateNote (currentNoteId st) move (database st))
                  = Some (move n))
      by (apply updateNote_find; [reflexivity|exact Hfind]).
    destruct (Js.truthy (currentNoteId st)) eqn:Ht; cbn [negb] in Hh.
    + rewrite Hf1 in Hh. rewrite updateNote_twice in Hh by reflexivity.
      match type of Hh with _ = Some ?x => set (s := x) in * end.
      destruct (retagged_note_settles s (database st) (currentNoteId st)
                  move n w) as [Hs Hr]; try reflexivity; try assumption.
      exists (setTextValue (content (move n)) (render s)).
      split; [unfold step, handle; rewrite Hh; exact Hs|].
      split; [exact Hr|].
      split; [cbn [database setTextValue]; rewrite Hr; exact Hfm|].
      repeat split. exact Ho.
    + match type of Hh with _ = Some ?x => set (s := x) in * end.
      destruct (retagged_note_settles s (database st) (currentNoteId st)
                  move n w) as [Hs Hr]; try reflexivity; try assumption.
      exists (setTextValue (content (move n)) (render s)).
      split; [unfold step, handle; rewrite Hh; exact Hs|].
      split; [exact Hr|].
      split; [cbn [database setTextValue]; rewrite Hr; exact Hfm|].
      repeat split. exact Ho.
Qed.

(** X14.  Enter on the row "rename workspace" under the "all" filter
    changes no note and makes the trimmed query the filter.  When no note
    of the store carries that tag the filter is empty, and the effect on
    the active note throws. *)
Theorem rename_row_under_all_changes_no_note (now rid : string)
  (e : KeyboardEvent) (st : State) (title acontent color q : string) :
  key e = "Enter" -> isCmdKMenuOpen st = true ->
  Js.index (cmdKSuggestions st) (selectedCmdKSuggestionIndex st)
  = Some (ActionSuggestion title acontent color (RenameWorkspace q)) ->
  currentWorkspace st = None ->
  (exists s,
      handleKeyDown now rid e st = Some s
      /\ database s = database st
      /\ currentWorkspace s = Some q
      /\ currentNoteId s = currentNoteId st)
  /\ (step (KeyDown now rid e) st = None
      <-> forall n, In n (database st) -> workspace n <> Some q).
Proof.
  intros Hk Ho Hsel Hcw.
  pose proof (handleKeyDown_Enter now rid e st Hk Ho) as Hh.
  rewrite Hsel in Hh. cbn [runCmdKSuggestion runAction fst snd] in Hh.
  rewrite Hcw in Hh.
  assert (Hmap : map (fun n : Note =>
                        if negb (workspace_is (workspace n) None) then n
                        else set_workspace (Some q) n) (database st)
                 = database st).
  { erewrite map_ext; [apply map_id|].
    intro n. destruct (workspace n); reflexivity. }
  rewrite Hmap in Hh.
  match type of Hh with _ = Some ?x => set (s := x) in * end.
  split; [exists s; repeat split; exact Hh|].
  unfold step, handle. rewrite Hh. rewrite settle_None_iff.
  change (workspaceNotes s) with (workspaceNotesOf (database st) (Some q)).
  split.
  - intros Hnil n Hn Hw.
    assert (Hin : In n (workspaceNotesOf (database st) (Some q))).
    { apply workspaceNotesOf_In_iff. split; [exact Hn|].
      right. rewrite Hw. simpl. apply String.eqb_refl. }
    rewrite Hnil in Hin. contradiction.
  - apply workspaceNotesOf_untagged.
Qed.

End Commit.

Lemma create_note_row_adds_a_note_witness :
  exists st',
    @step simple_platform (KeyDown Ex.jan9 "r" (Ex.noKey "Enter"))
      (setSelectedCmdKSuggestionIndex (Js.Num 2) Ex.searching) = Some st'
    /\ currentNoteId st' = "r"
    /\ textValue st' = "hello"
    /\ isCmdKMenuOpen st' = false.
Proof.
  destruct (@create_note_row_adds_a_note simple_platform Ex.jan9 "r"
              (Ex.noKey "Enter")
              (setSelectedCmdKSuggestionIndex (Js.Num 2) Ex.searching)
              "create new note" (dquote ++ "hello" ++ dquote) "green" "hello")
    as (st' & Hs & _ & _ & _ & Hc & Ht & _ & Ho & _).
  - reflexivity.
  - reflexivity.
  - vm_compute. reflexivity.
  - reflexivity.
  - exists st'. repeat split; assumption.
Defined.

Lemma new_note_chord_witness :
  exists st',
    @step simple_platform
      (KeyDown Ex.jan9 "r" (mkKey "Enter" true false true)) Ex.taggedClosed
    = Some st'
    /\ In (mkNote "r" "" Ex.jan9 (Some "w")) (workspaceNotes st')
    /\ currentNoteId st' = "r"
    /\ textValue st' = "".
Proof.
  destruct (@new_note_chord simple_platform Ex.jan9 "r"
              (mkKey "Enter" true false true) Ex.taggedClosed)
    as [_ H]; try reflexivity.
  destruct H as (st' & Hs & _ & Hin & Hc & Ht & _); [reflexivity|].
  exists st'. repeat split; assumption.
Defined.

Lemma create_workspace_row_opens_a_workspace_witness :
  exists st',
    @step simple_platform (KeyDown Ex.jan9 "r" (Ex.noKey "Enter"))
      (setSelectedCmdKSuggestionIndex (Js.Num 3) Ex.searching) = Some st'
    /\ currentWorkspace st' = Some "hello"
    /\ workspaceNotes st' = [mkNote "r" "" Ex.jan9 (Some "hello")]
    /\ isCmdKMenuOpen st' = true.
Proof.
  destruct (@create_workspace_row_opens_a_workspace simple_platform Ex.jan9 "r"
              (Ex.noKey "Enter")
              (setSelectedCmdKSuggestionIndex (Js.Num 3) Ex.searching)
              "create workspace" "+[hello]" "red" "hello")
    as (st' & Hs & _ & _ & Hcw & _ & Hwn & _ & _ & _ & Ho & _).
  - reflexivity.
  - reflexivity.
  - vm_compute. reflexivity.
  - reflexivity.
  - exists st'. split; [exact Hs|]. split; [exact Hcw|].
    split; [apply Hwn; reflexivity|exact Ho].
Defined.

Lemma move_row_retags_the_active_note_witness :
  exists st',
    @step simple_platform (KeyDown Ex.jan9 "r" (Ex.noKey "Enter"))
      (setSelectedCmdKSuggestionIndex (Js.Num 1)
         (setCmdKSearchQuery "w" Ex.cycling)) = Some st'
    /\ findNote "x" (database st')
       = Some (mkNote "x" "inbox" Ex.jan9 (Some "w"))
    /\ currentWorkspace st' = Some "w"
    /\ currentNoteId st' = "x".
Proof.
  destruct (@move_row_retags_the_active_note simple_platform Ex.jan9 "r"
              (Ex.noKey "Enter")
              (setSelectedCmdKSuggestionIndex (Js.Num 1)
                 (setCmdKSearchQuery "w" Ex.cycling))
              "move note to w" "→[w]" "cyan" "w") as [_ H].
  - reflexivity.
  - reflexivity.
  - vm_compute. reflexivity.
  - destruct (H Ex.untagged) as (st' & Hs & _ & Hf & Hcw & Hc & _).
    + repeat constructor; simpl; intuition discriminate.
    + reflexivity.
    + exists st'. repeat split; assumption.
Defined.

Lemma rename_row_under_all_changes_no_note_witness :
  @step simple_platform (KeyDown Ex.jan9 "r" (Ex.noKey "Enter"))
    (setSelectedCmdKSuggestionIndex (Js.Num 4) Ex.searching) = None.
Proof.
  destruct (@rename_row_under_all_changes_no_note simple_platform Ex.jan9 "r"
              (Ex.noKey "Enter")
              (setSelectedCmdKSuggestionIndex (Js.Num 4) Ex.searching)
              "rename workspace" "±[hello]" "gray" "hello") as [_ H].
  - reflexivity.
  - reflexivity.
  - vm_compute. reflexivity.
  - reflexivity.
  - apply H. simpl. intros n [<- | [<- | []]]; discriminate.
Defined.

(** ** Unlinking and opening *)

Section OpenAndUnlink.

Context {P : Platform}.

Lemma NoDup_workspaceNotesOf db cw :
  NoDup (map id db) -> NoDup (map id (workspaceNotesOf db cw)).
Proof.
  intro H. destruct cw as [w|]; [apply NoDup_map_filter|]; exact H.
Qed.

(** With unique ids, a note of the filter that has the active id stays the
    active note through the render and its effect. *)
Lemma settle_active_in s n :
  NoDup (map id (database s)) -> In n (workspaceNotes s) ->
  id n = currentNoteId s ->
  settle s = Some (setTextValue (content n) (render s)).
Proof.
  intros Hnd Hin Hid.
  pose proof (NoDup_workspaceNotesOf (database s) (currentWorkspace s) Hnd)
    as Hndw.
  apply settle_keeps_active.
  - rewrite <- Hid. apply findNote_of_In; assumption.
  - intros m Hm Hmid. apply (unique_id (workspaceNotes s)); assumption.
Qed.

Lemma NoDup_ids_perm l l' :
  Permutation l l' -> NoDup (map id l) -> NoDup (map id l').
Proof.
  intros Hp Hnd. eapply Permutation_NoDup; [|exact Hnd].
  apply Permutation_map. exact Hp.
Qed.

(** X15.  Enter on the row "unlink note", over a store with unique ids:
    the active note loses its tag and no other note changes, the store is
    sorted, the filter becomes "all", the note stays the active one and
    the text area shows its content, and the palette stays open.  The
    workspace list is not computed anew and the selected index stays. *)
Theorem unlink_row_untags_the_active_note (now rid : string)
  (e : KeyboardEvent) (st : State) (title acontent color : string) :
  key e = "Enter" -> isCmdKMenuOpen st = true ->
  Js.index (cmdKSuggestions st) (selectedCmdKSuggestionIndex st)
  = Some (ActionSuggestion title acontent color UnlinkNote) ->
  NoDup (map id (database st)) ->
  exists n w st',
    findNote (currentNoteId st) (database st) = Some n
    /\ workspace n = Some w
    /\ step (KeyDown now rid e) st = Some st'
    /\ database st'
       = sortNotes (updateNote (currentNoteId st) (set_workspace None)
                      (database st))
    /\ findNote (currentNoteId st) (database st')
       = Some (set_workspace None n)
    /\ currentWorkspace st' = None
    /\ currentNoteId st' = currentNoteId st
    /\ textValue st' = content n
    /\ isCmdKMenuOpen st' = true
    /\ selectedCmdKSuggestionIndex st' = selectedCmdKSuggestionIndex st
    /\ availableWorkspaces st' = availableWorkspaces st.
Proof.
  intros Hk Ho Hsel Hnd.
  destruct (action_row st title acontent color UnlinkNote
              (Js_index_In _ _ _ Hsel)) as (n & w & Hfind & Hw & _).
  pose proof (handleKeyDown_Enter now rid e st Hk Ho) as Hh.
  rewrite Hsel in Hh. cbn [runCmdKSuggestion runAction fst snd] in Hh.
  match type of Hh with _ = Some ?x => set (s := x) in * end.
  set (X := updateNote (currentNoteId st) (set_workspace None) (database st)).
  assert (HndX : NoDup (map id (sortNotes X))).
  { apply (NoDup_ids_perm X); [apply Permutation_sym, sortNotes_perm|].
    unfold X. rewrite map_id_updateNote by reflexivity. exact Hnd. }
  assert (HinX : In (set_workspace None n) (sortNotes X)).
  { apply sortNotes_In. unfold X. eapply updateNote_In_new. exact Hfind. }
  destruct (findNote_Some _ _ _ Hfind) as [_ Hid].
  assert (Hs : settle s
               = Some (setTextValue (content (set_workspace None n))
                         (render s))).
  { apply settle_active_in; [exact HndX|exact HinX|exact Hid]. }
  assert (Hdb : database (render s) = sortNotes X).
  { unfold render, sortedByRender. cbn.
    destruct (Js.truthy (cmdKSearchQuery st)); [reflexivity|].
    apply sortNotes_idem. }
  exists n, w, (setTextValue (content (set_workspace None n)) (render s)).
  split; [exact Hfind|]. split; [exact Hw|].
  split; [unfold step, handle; rewrite Hh; exact Hs|].
  split; [exact Hdb|].
  split.
  { cbn [database setTextValue]. rewrite Hdb, <- Hid.
    apply (findNote_of_In (sortNotes X) (set_workspace None n) HndX HinX). }
  repeat split. exact Ho.
Qed.

(** Enter in the open palette commits the row that the index selects in
    the rows of the state. *)
Lemma handleKeyDown_commitRow now rid e st :
  key e = "Enter" -> isCmdKMenuOpen st = true ->
  handleKeyDown now rid e st
  = Some (commitRow now rid
            (Js.index (cmdKSuggestions st) (selectedCmdKSuggestionIndex st))
            st).
Proof.
  intros Hk Ho. rewrite (handleKeyDown_Enter now rid e st Hk Ho).
  unfold commitRow.
  destruct (runCmdKSuggestion now rid
              (Js.index (cmdKSuggestions st) (selectedCmdKSuggestionIndex st))
              st) as [st2 close].
  reflexivity.
Qed.

(** X16.  Enter on the row that the handler holds.  Without a row (the
    selected index points behind the rows of the last render) the palette
    closes, the index goes to the first row, and nothing else changes.  On
    a note row whose note is in the filter and has a non-empty id, over a
    store with unique ids: the note becomes the active one, it gets the
    time of the event and no other note changes, the text area shows its
    content, and the palette closes with the index on the first row. *)
Theorem enter_opens_the_selected_note (now rid : string) (st : State) :
  commitRow now rid None st
  = setSelectedCmdKSuggestionIndex (Js.Num 0) (setIsCmdKMenuOpen false st)
  /\ (forall note,
         In note (workspaceNotes st) ->
         NoDup (map id (database st)) ->
         Js.truthy (id note) = true ->
         exists st',
           settle (commitRow now rid (Some (NoteSuggestion note)) st)
           = Some st'
           /\ Permutation (database st')
                (updateNote (id note) (set_updatedAt now) (database st))
           /\ findNote (id note) (database st')
              = Some (set_updatedAt now note)
           /\ currentNoteId st' = id note
           /\ textValue st' = content note
           /\ currentWorkspace st' = currentWorkspace st
           /\ isCmdKMenuOpen st' = false
           /\ selectedCmdKSuggestionIndex st' = Js.Num 0).
Proof.
  split; [reflexivity|].
  intros note Hwn Hnd Ht.
  assert (Hdb : In note (database st))
    by (eapply workspaceNotesOf_In; exact Hwn).
  pose proof (findNote_of_In _ _ Hnd Hdb) as Hfind.
  assert (Hc : commitRow now rid (Some (NoteSuggestion note)) st
               = setSelectedCmdKSuggestionIndex (Js.Num 0)
                   (setIsCmdKMenuOpen false
                      (setDatabaseSame
                         (updateNote (id note) (set_updatedAt now)
                            (database st))
                         (setCurrentNoteId (id note) st)))).
  { unfold commitRow. cbn [runCmdKSuggestion].
    unfold openNote. rewrite Ht, Hfind. reflexivity. }
  rewrite Hc.
  match goal with |- exists st', settle ?x = _ /\ _ => set (s := x) end.
  set (X := updateNote (id note) (set_updatedAt now) (database st)).
  assert (HndX : NoDup (map id X))
    by (unfold X; rewrite map_id_updateNote by reflexivity; exact Hnd).
  assert (HinX : In (set_updatedAt now note) X)
    by (unfold X; eapply updateNote_In_new; exact Hfind).
  assert (Hs : settle s
               = Some (setTextValue (content (set_updatedAt now note))
                         (render s))).
  { apply settle_active_in; [exact HndX| |reflexivity].
    apply workspaceNotesOf_In_iff. split; [exact HinX|].
    apply workspaceNotesOf_In_iff in Hwn. exact (proj2 Hwn). }
  pose proof (sortedByRender_perm s) as Hp.
  change (database s) with X in Hp.
  exists (setTextValue (content (set_updatedAt now note)) (render s)).
  split; [exact Hs|].
  split; [exact Hp|].
  split.
  { apply (findNote_of_In (sortedByRender s) (set_updatedAt now note)).
    - apply (NoDup_ids_perm X); [apply Permutation_sym, Hp|exact HndX].
    - eapply Permutation_in; [apply Permutation_sym, Hp|exact HinX]. }
  repeat split.
Qed.

End OpenAndUnlink.

Lemma unlink_row_untags_the_active_note_witness :
  exists st',
    @step simple_platform (KeyDown Ex.jan9 "r" (Ex.noKey "Enter"))
      (setSelectedCmdKSuggestionIndex (Js.Num 3) Ex.deleteOldest) = Some st'
    /\ findNote "a" (database st') = Some (mkNote "a" "first" Ex.jan1 None)
    /\ currentWorkspace st' = None
    /\ currentNoteId st' = "a".
Proof.
  destruct (@unlink_row_untags_the_active_note simple_platform Ex.jan9 "r"
              (Ex.noKey "Enter")
              (setSelectedCmdKSuggestionIndex (Js.Num 3) Ex.deleteOldest)
              unlinkTitle "-[w]" "purple")
    as (n & w & st' & Hn & _ & Hs & _ & Hf & Hcw & Hc & _).
  - reflexivity.
  - reflexivity.
  - vm_compute. reflexivity.
  - repeat constructor; simpl; intuition discriminate.
  - exists st'. split; [exact Hs|].
    vm_compute in Hn. inversion Hn; subst n.
    repeat split; assumption.
Defined.

Lemma enter_opens_the_selected_note_witness :
  exists st',
    @settle simple_platform
      (@commitRow simple_platform Ex.jan9 "r" (Some (NoteSuggestion Ex.wa))
         Ex.browsing)
    = Some st'
    /\ currentNoteId st' = "a"
    /\ textValue st' = "first"
    /\ isCmdKMenuOpen st' = false.
Proof.
  destruct (@enter_opens_the_selected_note simple_platform Ex.jan9 "r"
              Ex.browsing) as [_ H].
  destruct (H Ex.wa) as (st' & Hs & _ & _ & Hc & Ht & _ & Ho & _).
  - right. right. left. reflexivity.
  - repeat constructor; simpl; intuition discriminate.
  - reflexivity.
  - exists st'. repeat split; assumption.
Defined.

(** ** Titles *)

Section Titles.

Lemma prefix_slice0 k : forall s, String.prefix (Js.slice0 k s) s = true.
Proof.
  induction k as [|k IH]; intros [|c r]; simpl; try reflexivity.
  destruct (ascii_dec c c) as [_|Hn]; [apply IH|contradiction].
Qed.

Lemma prefix_refl s : String.prefix s s = true.
Proof.
  induction s as [|c r IH]; simpl; [reflexivity|].
  destruct (ascii_dec c c) as [_|Hn]; [exact IH|contradiction].
Qed.

Lemma indexOfChar_trimStart c s :
  indexOfChar c s = None -> indexOfChar c (Js.trimStart s) = None.
Proof.
  induction s as [|d r IH]; simpl; [reflexivity|].
  intro H. destruct (Js.is_space d); [|exact H].
  apply IH. destruct (Ascii.eqb d c); [discriminate|].
  destruct (indexOfChar c r); [discriminate|reflexivity].
Qed.

Lemma indexOfChar_trimEnd c s :
  indexOfChar c s = None -> indexOfChar c (Js.trimEnd s) = None.
Proof.
  induction s as [|d r IH]; simpl; [reflexivity|].
  intro H. destruct (Ascii.eqb d c) eqn:He; [discriminate|].
  destruct (indexOfChar c r); [discriminate|].
  specialize (IH eq_refl).
  destruct (Js.trimEnd r) as [|x y].
  - destruct (Js.is_space d); simpl; [reflexivity|rewrite He; reflexivity].
  - simpl in *. rewrite He. destruct (Ascii.eqb x c); [discriminate|].
    destruct (indexOfChar c y); [discriminate|reflexivity].
Qed.






Lemma slice0_app a b : Js.slice0 (String.length a) (a ++ b) = a.
Proof.
  induction a as [|c r IH]; simpl; [destruct b; reflexivity|].
  rewrite IH. reflexivity.
Qed.



(** X17.  The title of a note is a prefix of its content, it is empty
    only when the content is, and it is the whole content when the content
    has no line feed.  So the row of a note reads "New Note" exactly when
    the title is empty, which is when the content is empty. *)
Theorem title_is_a_prefix_of_the_content (note : Note) :
  String.prefix (getNoteTitle note) (content note) = true
  /\ Js.truthy (getNoteTitle note) = Js.truthy (content note)
  /\ (indexOfChar lineFeed (content note) = None ->
      getNoteTitle note = content note)
  /\ noteRowTitle note
     = if Js.truthy (content note) then getNoteTitle note else "New Note".
Proof.
  assert (Ht : Js.truthy (getNoteTitle note) = Js.truthy (content note)).
  { unfold getNoteTitle.
    destruct (indexOfChar lineFeed (Js.trim (content note))) as [i|];
      [|reflexivity].
    rewrite Nat.add_1_r. destruct (content note); reflexivity. }
  split; [|split; [exact Ht|split]].
  - unfold getNoteTitle.
    destruct (indexOfChar lineFeed (Js.trim (content note)));
      [apply prefix_slice0|apply prefix_refl].
  - intro H. unfold getNoteTitle, Js.trim.
    rewrite indexOfChar_trimEnd; [reflexivity|].
    apply indexOfChar_trimStart. exact H.
  - unfold noteRowTitle. rewrite Ht. reflexivity.
Qed.


End Titles.


(** ** Saving the text of the active note *)

Section Saving.

Context {P : Platform}.

Lemma prefix_plain from : forall s,
  plainText s = true -> plainText from = false ->
  String.prefix from s = false.
Proof.
  induction from as [|a f IH]; intros s Hs Hf; [discriminate|].
  destruct s as [|c r]; [reflexivity|]. simpl.
  destruct (ascii_dec a c) as [->|]; [|reflexivity].
  simpl in Hs, Hf. apply andb_prop in Hs. destruct Hs as [Hc Hr].
  rewrite Hc in Hf. simpl in Hf. apply IH; assumption.
Qed.

Lemma splitJoin_plain from to s :
  plainText s = true -> plainText from = false ->
  splitJoin from to 0 s = s.
Proof.
  intros Hs Hf. induction s as [|c r IH]; [reflexivity|].
  cbn [splitJoin]. rewrite (prefix_plain from (String c r) Hs Hf).
  simpl in Hs. apply andb_prop in Hs. destruct Hs as [_ Hr].
  rewrite IH by exact Hr. reflexivity.
Qed.

Lemma replaceOne_plain s entry :
  plainText s = true ->
  plainText (match fst entry with Literal f => f | AtStart f => f end) = false ->
  replaceOne s entry = s.
Proof.
  intros Hs Hf. destruct entry as [[f|f] to]; simpl in *.
  - apply splitJoin_plain; assumption.
  - rewrite (prefix_plain f s Hs Hf). reflexivity.
Qed.

Lemma fold_replace_plain entries : forall s,
  plainText s = true ->
  Forall (fun entry =>
            plainText (match fst entry with Literal f => f | AtStart f => f end)
            = false) entries ->
  fold_left replaceOne entries s = s.
Proof.
  induction entries as [|en r IH]; intros s Hs Hall; [reflexivity|].
  inversion Hall; subst. simpl.
  rewrite replaceOne_plain by assumption. apply IH; assumption.
Qed.

Lemma needles_not_plain :
  Forall (fun entry =>
            plainText (match fst entry with Literal f => f | AtStart f => f end)
            = false) textsToReplace.
Proof. repeat constructor. Qed.

(** X19.  A text without the characters [-], [(] and [+] goes through the
    replacements of [saveNote] unchanged: it is stored as it was typed. *)
Theorem plain_text_is_saved_as_typed (newText : string) :
  plainText newText = true -> processText newText = newText.
Proof.
  intro H. unfold processText.
  apply fold_replace_plain; [exact H|exact needles_not_plain].
Qed.

Lemma plainText_app x y : plainText (x ++ y) = plainText x && plainText y.
Proof.
  induction x as [|c r IH]; simpl; [reflexivity|].
  rewrite IH. apply Bool.andb_assoc.
Qed.

Lemma splitJoin_skip from to p : forall y,
  splitJoin from to (String.length p) (p ++ y) = splitJoin from to 0 y.
Proof.
  induction p as [|c r IH]; intro y; simpl; [reflexivity|].
  apply IH.
Qed.

Lemma prefix_app p y : String.prefix p (p ++ y) = true.
Proof.
  induction p as [|c r IH]; simpl; [destruct y; reflexivity|].
  destruct (ascii_dec c c) as [_|Hn]; [exact IH|contradiction].
Qed.

(** An occurrence of the needle at the start of the text. *)
Lemma splitJoin_match to c f y :
  splitJoin (String c f) to 0 (String c f ++ y)
  = (to ++ splitJoin (String c f) to 0 y)%string.
Proof.
  pose proof (prefix_app (String c f) y) as Hp.
  pose proof (splitJoin_skip (String c f) to f y) as Hs.
  change (String c f ++ y)%string with (String c (f ++ y)) in *.
  remember (String c f) as from eqn:Hfrom.
  cbn [splitJoin]. rewrite Hp. rewrite Hfrom at 2.
  cbn [String.length Nat.sub]. rewrite Nat.sub_0_r. rewrite Hs.
  reflexivity.
Qed.

(** The first occurrence of [" -> "] behind a plain text. *)
Lemma splitJoin_arrow to x : forall y,
  plainText x = true ->
  splitJoin " -> " to 0 (x ++ " -> " ++ y)
  = (x ++ to ++ splitJoin " -> " to 0 y)%string.
Proof.
  induction x as [|c r IH]; intros y Hx.
  - exact (splitJoin_match to " "%char "-> " y).
  - simpl in Hx. apply andb_prop in Hx. destruct Hx as [Hc Hr].
    assert (Hp : String.prefix " -> " (String c (r ++ " -> " ++ y)) = false).
    { cbn [String.prefix]. destruct (ascii_dec " " c) as [_|]; [|reflexivity].
      destruct r as [|d r']; cbn [append String.prefix].
      - destruct (ascii_dec "-" " "); [discriminate|reflexivity].
      - simpl in Hr. apply andb_prop in Hr. destruct Hr as [Hd _].
        destruct (ascii_dec "-" d) as [<-|]; [discriminate|reflexivity]. }
    change ((String c r ++ " -> " ++ y)%string)
      with (String c (r ++ " -> " ++ y)).
    remember " -> " as from eqn:Hfrom.
    cbn [splitJoin]. rewrite Hp. rewrite IH by exact Hr. reflexivity.
Qed.

(** X20.  In a text that is plain but for one [" -> "], the replacements
    of [saveNote] put the arrow [" → "] in its place and change nothing
    else. *)
Theorem arrow_is_replaced (x y : string) :
  plainText x = true -> plainText y = true ->
  processText (x ++ " -> " ++ y) = (x ++ " → " ++ y)%string.
Proof.
  intros Hx Hy. unfold processText, textsToReplace.
  cbn [fold_left]. unfold replaceOne at 9.
  rewrite splitJoin_arrow by exact Hx.
  rewrite splitJoin_plain by (exact Hy || reflexivity).
  change (fold_left replaceOne (tl textsToReplace) (x ++ " → " ++ y)
          = (x ++ " → " ++ y)%string).
  apply fold_replace_plain.
  - rewrite !plainText_app, Hx, Hy. reflexivity.
  - exact (Forall_inv_tail needles_not_plain).
Qed.

Lemma findIndex_spec i g db :
  match findIndex i db with
  | None => findNote i db = None
  | Some k =>
      exists n, nth_error db k = Some n /\ findNote i db = Some n
                /\ splice1 k (g n) db = updateNote i g db
  end.
Proof.
  induction db as [|x r IH]; [reflexivity|].
  unfold findNote in *. simpl.
  destruct (String.eqb (id x) i) eqn:He.
  - exists x. repeat split.
  - destruct (findIndex i r) as [k|]; simpl.
    + destruct IH as (n & Hn & Hf & Hs). exists n.
      split; [exact Hn|]. split; [exact Hf|]. rewrite Hs. reflexivity.
    + exact IH.
Qed.

(** [saveNote] changes the first note that has the id, as an assignment to
    the note that [find] returns would, but in a new array. *)
Lemma saveNote_updateNote now i newText st :
  saveNote now i newText st
  = match findNote i (database st) with
    | None => st
    | Some _ => setDatabase (updateNote i (edited now newText) (database st)) st
    end.
Proof.
  unfold saveNote. cbv zeta.
  pose proof (findIndex_spec i (edited now newText) (database st)) as H.
  destruct (findIndex i (database st)) as [k|].
  - destruct H as (n & Hn & Hf & Hs). rewrite Hn, Hf.
    unfold edited in Hs. rewrite Hs. reflexivity.
  - rewrite H. reflexivity.
Qed.

(** X21.  Typing in the text area.  When no note of the store has the
    active id, only the text area changes.  When the active note is in the
    filter, over a store with unique ids: the note gets the processed text
    and the time of the edit in a new array, no other note changes, the
    note stays the active one, the text area shows the processed text
    (not the text as typed), and the workspace list is the one of the
    store. *)
Theorem typing_saves_the_processed_text (now newText : string) (st : State) :
  (findNote (currentNoteId st) (database st) = None ->
   setText now newText st = setTextValue newText st)
  /\ (forall n,
         NoDup (map id (database st)) ->
         In n (workspaceNotes st) -> id n = currentNoteId st ->
         exists st',
           settle (setText now newText st) = Some st'
           /\ Permutation (database st')
                (updateNote (currentNoteId st) (edited now newText)
                   (database st))
           /\ findNote (currentNoteId st) (database st')
              = Some (mkNote (id n) (processText newText) now (workspace n))
           /\ currentNoteId st' = currentNoteId st
           /\ textValue st' = processText newText
           /\ currentWorkspace st' = currentWorkspace st
           /\ availableWorkspaces st' = availableWorkspacesOf (database st')).
Proof.
  unfold setText. rewrite saveNote_updateNote.
  change (database (setTextValue newText st)) with (database st).
  change (currentNoteId (setTextValue newText st)) with (currentNoteId st).
  split.
  - intro Hnone. rewrite Hnone. reflexivity.
  - intros n Hnd Hwn Hid.
    assert (Hdb : In n (database st))
      by (eapply workspaceNotesOf_In; exact Hwn).
    assert (Hfind : findNote (currentNoteId st) (database st) = Some n)
      by (rewrite <- Hid; apply findNote_of_In; assumption).
    rewrite Hfind.
    match goal with |- exists st', settle ?x = _ /\ _ => set (s := x) end.
    set (X := updateNote (currentNoteId st) (edited now newText)
                (database st)).
    assert (HndX : NoDup (map id X))
      by (unfold X; rewrite map_id_updateNote by reflexivity; exact Hnd).
    assert (HinX : In (edited now newText n) X)
      by (unfold X; eapply updateNote_In_new; exact Hfind).
    assert (Hs : settle s
                 = Some (setTextValue (content (edited now newText n))
                           (render s))).
    { apply settle_active_in; [exact HndX| |exact Hid].
      apply workspaceNotesOf_In_iff. split; [exact HinX|].
      apply workspaceNotesOf_In_iff in Hwn. exact (proj2 Hwn). }
    pose proof (sortedByRender_perm s) as Hp.
    change (database s) with X in Hp.
    exists (setTextValue (content (edited now newText n)) (render s)).
    split; [exact Hs|]. split; [exact Hp|].
    split.
    { rewrite <- Hid.
      apply (findNote_of_In (sortedByRender s) (edited now newText n)).
      - apply (NoDup_ids_perm X); [apply Permutation_sym, Hp|exact HndX].
      - eapply Permutation_in; [apply Permutation_sym, Hp|exact HinX]. }
    split; [reflexivity|]. split; [reflexivity|]. split; [reflexivity|].
    change (availableWorkspacesOf X = availableWorkspacesOf (sortedByRender s)).
    unfold sortedByRender. change (database s) with X.
    destruct (currentWorkspace s); [reflexivity|].
    destruct (Js.truthy (cmdKSearchQuery s)); [reflexivity|].
    symmetry. apply availableWorkspaces_sort.
Qed.

End Saving.

Lemma plain_text_is_saved_as_typed_witness :
  processText "notes of the day" = "notes of the day".
Proof. apply plain_text_is_saved_as_typed. reflexivity. Defined.

Lemma arrow_is_replaced_witness :
  processText "a -> b" = "a → b".
Proof. apply (arrow_is_replaced "a" "b"); reflexivity. Defined.

Lemma typing_saves_the_processed_text_witness :
  exists st',
    @settle simple_platform (setText Ex.jan9 "x -> y" Ex.deleteOldest)
    = Some st'
    /\ textValue st' = "x → y"
    /\ findNote "a" (database st')
       = Some (mkNote "a" "x → y" Ex.jan9 (Some "w")).
Proof.
  destruct (@typing_saves_the_processed_text simple_platform Ex.jan9 "x -> y"
              Ex.deleteOldest) as [_ H].
  destruct (H Ex.wa) as (st' & Hs & _ & Hf & _ & Ht & _).
  - repeat constructor; simpl; intuition discriminate.
  - left. reflexivity.
  - reflexivity.
  - exists st'. split; [exact Hs|]. split; [exact Ht|exact Hf].
Defined.

(** ** Persistent state *)

Section Reload.

Lemma append_empty_r (s : string) : (s ++ "")%string = s.
Proof. induction s as [|c r IH]; simpl; [|rewrite IH]; reflexivity. Qed.

Lemma parseString_stringifyString (s : string) :
  Persistent.parseString (Persistent.stringifyString s) = Some s.
Proof.
  unfold Persistent.parseString, Persistent.stringifyString.
  rewrite <- (append_empty_r (JSON.quote s)), parse_quote. reflexivity.
Qed.

Lemma parseNullable_stringifyNullable (v : option string) :
  Persistent.parseNullable (Persistent.stringifyNullable v) = Some v.
Proof.
  destruct v as [s|]; [|reflexivity].
  unfold Persistent.parseNullable, Persistent.stringifyNullable.
  change (JSON.quote s) with (Persistent.stringifyString s).
  rewrite parseString_stringifyString. reflexivity.
Qed.

Lemma getItem_setItem k v s :
  LocalStorage.getItem k (LocalStorage.setItem k v s) = Some v.
Proof. unfold LocalStorage.setItem. simpl. rewrite String.eqb_refl. reflexivity. Qed.

Lemma getItem_filter_other k k' s :
  String.eqb k' k = false ->
  LocalStorage.getItem k
    (filter (fun kv => negb (String.eqb (fst kv) k')) s)
  = LocalStorage.getItem k s.
Proof.
  intro Hne. induction s as [|[a b] r IH]; [reflexivity|].
  simpl. destruct (String.eqb a k') eqn:Ha; simpl.
  - apply String.eqb_eq in Ha. subst a. rewrite Hne. exact IH.
  - destruct (String.eqb a k); [reflexivity|exact IH].
Qed.

Lemma getItem_setItem_other k k' v s :
  String.eqb k' k = false ->
  LocalStorage.getItem k (LocalStorage.setItem k' v s)
  = LocalStorage.getItem k s.
Proof.
  intro Hne. unfold LocalStorage.setItem. simpl. rewrite Hne.
  apply getItem_filter_other. exact Hne.
Qed.

(** X22.  What the setters of the persistent state wrote, the
    initializers read back: after the store, the filter and the active id
    were written to a storage, a new start on that storage has the same
    store, the same filter and the same active id, whatever the default
    values.  On a storage without the key, the initializer gives the
    default value. *)
Theorem reload_restores_the_persistent_state (db defaultDb : list Note)
  (cw defaultCw : option string) (cnid defaultId : string)
  (storage : LocalStorage.t) :
  let written := Persistent.storeAll db cw cnid storage in
  Persistent.initial JSON.parse Persistent.databaseKey defaultDb written = db
  /\ Persistent.initial Persistent.parseNullable
       Persistent.currentWorkspaceKey defaultCw written = cw
  /\ Persistent.initial Persistent.parseString
       Persistent.currentNoteIdKey defaultId written = cnid
  /\ Persistent.initial JSON.parse Persistent.databaseKey defaultDb [] = defaultDb.
Proof.
  intro written. unfold written, Persistent.storeAll, Persistent.store,
    Persistent.initial.
  split; [|split; [|split; [|reflexivity]]].
  - rewrite getItem_setItem_other by reflexivity.
    rewrite getItem_setItem_other by reflexivity.
    rewrite getItem_setItem, stringify_truthy, parse_stringify. reflexivity.
  - rewrite getItem_setItem_other by reflexivity.
    rewrite getItem_setItem, parseNullable_stringifyNullable.
    destruct cw; reflexivity.
  - rewrite getItem_setItem, parseString_stringifyString. reflexivity.
Qed.

End Reload.

(** ** The query *)

Section Query.

Context {P : Platform}.

Lemma slice0_le k : forall s, (String.length (Js.slice0 k s) <= k)%nat.
Proof.
  induction k as [|k IH]; intros [|c r]; simpl; try lia.
  specialize (IH r). lia.
Qed.

Lemma trimStart_head s c r :
  Js.trimStart s = String c r -> Js.is_space c = false.
Proof.
  induction s as [|d t IH]; simpl; [discriminate|].
  destruct (Js.is_space d) eqn:Hd; [exact IH|].
  intro H. inversion H; subst. exact Hd.
Qed.

Lemma trimEnd_head s c r :
  Js.trimEnd s = String c r -> exists t, s = String c t.
Proof.
  destruct s as [|d t]; simpl; [discriminate|].
  destruct (Js.trimEnd t).
  - destruct (Js.is_space d); [discriminate|].
    intro H. inversion H; subst. exists t. reflexivity.
  - intro H. inversion H; subst. exists t. reflexivity.
Qed.

(** X23.  For a search text of ASCII characters, the rows "create new
    note", "create workspace" and "rename workspace" of the list carry a
    text of one to twenty characters that is a prefix of the trimmed
    search text and does not start with white space: this is the content
    of a note created from the palette, and the tag of a workspace
    created or renamed from it. *)
Theorem query_rows_carry_a_short_text (st : State)
  (title acontent color q : string) (a : ActionEffect) :
  isAscii (cmdKSearchQuery st) = true ->
  In (ActionSuggestion title acontent color a) (cmdKSuggestions st) ->
  a = CreateNewNote q \/ a = CreateWorkspace q \/ a = RenameWorkspace q ->
  q = Js.slice0 20 (Js.trim (cmdKSearchQuery st))
  /\ (1 <= String.length q <= 20)%nat
  /\ String.prefix q (Js.trim (cmdKSearchQuery st)) = true
  /\ (forall c r, q = String c r -> Js.is_space c = false).
Proof.
  intros _ Hin Ha.
  assert (Hq : q = trimmedQuery (cmdKSearchQuery st) /\ Js.truthy q = true).
  { pose proof (action_row st title acontent color a Hin) as Hrow.
    destruct Ha as [-> | [-> | ->]]; simpl in Hrow.
    - exact Hrow.
    - destruct Hrow as (H1 & H2 & _). split; assumption.
    - exact Hrow. }
  destruct Hq as [Hq Ht]. split; [exact Hq|].
  split.
  { split.
    - destruct q; [discriminate|simpl; lia].
    - rewrite Hq. apply slice0_le. }
  split; [rewrite Hq; apply prefix_slice0|].
  intros c r H. rewrite Hq in H. unfold trimmedQuery in H.
  assert (Htr : exists t, Js.trim (cmdKSearchQuery st) = String c t).
  { destruct (Js.trim (cmdKSearchQuery st)) as [|d t]; [discriminate|].
    simpl in H. inversion H; subst. exists t. reflexivity. }
  destruct Htr as (t & Htr). unfold Js.trim in Htr.
  destruct (trimEnd_head _ _ _ Htr) as (u & Hu).
  exact (trimStart_head _ _ _ Hu).
Qed.

Lemma unlinkActions_length n q : (List.length (unlinkActions n q) <= 1)%nat.
Proof.
  unfold unlinkActions. destruct n as [n|]; [|simpl; lia].
  destruct (workspace n); [|simpl; lia].
  destruct (_ && _); simpl; lia.
Qed.

(** X24.  With an empty query the list is the notes of the filter, each
    once, the most recent first, followed by the row "unlink note" when
    the active note carries a non-empty tag, and by no other row. *)
Theorem empty_query_lists_the_filter (st : State) :
  cmdKSearchQuery st = "" ->
  cmdKSuggestions st
  = (map NoteSuggestion (sortNotes (workspaceNotes st))
     ++ match findNote (currentNoteId st) (database st) with
        | Some n =>
            match workspace n with
            | Some w => if Js.truthy w then [unlinkAction w] else []
            | None => []
            end
        | None => []
        end)%list
  /\ Permutation (sortNotes (workspaceNotes st)) (workspaceNotes st)
  /\ recencySorted (sortNotes (workspaceNotes st)).
Proof.
  intro Hq. split; [|split; [apply sortNotes_perm|apply sortNotes_sorted]].
  unfold cmdKSuggestions, cmdKSuggestionsOf, matchedNotes, matchedWorkspaces,
    queryActions, unlinkActions.
  rewrite Hq. cbn.
  destruct (findNote (currentNoteId st) (database st)) as [n|]; [|reflexivity].
  destruct (workspace n) as [w|]; [|reflexivity].
  rewrite Bool.andb_true_r. reflexivity.
Qed.

End Query.

Lemma query_rows_carry_a_short_text_witness :
  In (createWorkspaceAction "hello") (@cmdKSuggestions simple_platform Ex.searching)
  /\ (1 <= String.length "hello" <= 20)%nat.
Proof.
  split; [right; right; right; left; reflexivity|].
  exact (proj1 (proj2
    (@query_rows_carry_a_short_text simple_platform Ex.searching
       "create workspace" "+[hello]" "red" "hello" (CreateWorkspace "hello")
       eq_refl
       (or_intror (or_intror (or_intror (or_introl eq_refl))))
       (or_intror (or_introl eq_refl))))).
Defined.

Lemma empty_query_lists_the_filter_witness :
  @cmdKSuggestions simple_platform Ex.deleteOldest
  = [NoteSuggestion Ex.wc; NoteSuggestion Ex.wb; NoteSuggestion Ex.wa;
     unlinkAction "w"].
Proof.
  rewrite (proj1 (@empty_query_lists_the_filter simple_platform
                    Ex.deleteOldest eq_refl)).
  reflexivity.
Defined.

(** ** Deleting another note than the active one *)

Section DeleteOther.

Context {P : Platform}.

(** X25.  Deleting, by its delete button, a note that is not the active
    one, over a store with unique ids and with the active note in the
    filter: the note leaves the store for the top of the stack of deleted
    notes, no other note leaves, and the active note, the text area and
    the filter stay as they are. *)
Theorem deleting_another_note_keeps_the_active_one (noteId : string)
  (st : State) (d n : Note) :
  NoDup (map id (database st)) ->
  findNote noteId (database st) = Some d ->
  currentNoteId st <> noteId ->
  In n (workspaceNotes st) -> id n = currentNoteId st ->
  exists st',
    step (ClickDelete noteId) st = Some st'
    /\ Permutation (d :: database st') (database st)
    /\ findNote noteId (database st') = None
    /\ freshlyDeletedNotes st' = (freshlyDeletedNotes st ++ [d])%list
    /\ currentNoteId st' = currentNoteId st
    /\ textValue st' = content n
    /\ currentWorkspace st' = currentWorkspace st
    /\ In n (workspaceNotes st').
Proof.
  intros Hnd Hfind Hne Hwn Hid.
  set (F := filter (fun m => negb (String.eqb (id m) noteId)) (database st)).
  assert (Hh : deleteNote noteId st
               = setDatabase F
                   (setFreshlyDeletedNotes
                      (freshlyDeletedNotes st ++ [d])%list st)).
  { unfold deleteNote. rewrite Hfind. cbv zeta.
    apply String.eqb_neq in Hne. rewrite Hne. reflexivity. }
  set (s := setDatabase F
              (setFreshlyDeletedNotes (freshlyDeletedNotes st ++ [d])%list st))
    in *.
  assert (HndF : NoDup (map id F)) by (apply NoDup_map_filter; exact Hnd).
  assert (HinF : In n (workspaceNotes s)).
  { apply workspaceNotesOf_In_iff.
    apply workspaceNotesOf_In_iff in Hwn. destruct Hwn as [Hdb Hw].
    split; [|exact Hw].
    apply filter_In. split; [exact Hdb|].
    rewrite Hid. apply String.eqb_neq in Hne. rewrite Hne. reflexivity. }
  assert (Hs : settle s = Some (setTextValue (content n) (render s)))
    by (apply settle_active_in; [exact HndF|exact HinF|exact Hid]).
  pose proof (sortedByRender_perm s) as Hp. change (database s) with F in Hp.
  exists (setTextValue (content n) (render s)).
  split; [unfold step, handle; rewrite Hh; exact Hs|].
  split.
  { eapply Permutation_trans; [apply perm_skip, Hp|].
    apply Permutation_sym. apply filter_found_perm; assumption. }
  split.
  { eapply findNote_None_perm; [apply Permutation_sym, Hp|].
    apply findNote_None. intros m Hm Hmid.
    apply filter_In in Hm. destruct Hm as [_ Hm].
    rewrite Hmid, String.eqb_refl in Hm. discriminate. }
  split; [reflexivity|]. split; [reflexivity|]. split; [reflexivity|].
  split; [reflexivity|].
  apply (Permutation_in _ (Permutation_sym (workspaceNotes_render s))).
  exact HinF.
Qed.

End DeleteOther.

Lemma deleting_another_note_keeps_the_active_one_witness :
  exists st',
    @step simple_platform (ClickDelete "b") Ex.deleteOldest = Some st'
    /\ freshlyDeletedNotes st' = [Ex.wb]
    /\ currentNoteId st' = "a"
    /\ textValue st' = "first".
Proof.
  destruct (@deleting_another_note_keeps_the_active_one simple_platform "b"
              Ex.deleteOldest Ex.wb Ex.wa)
    as (st' & Hs & _ & _ & Hdel & Hc & Ht & _).
  - repeat constructor; simpl; intuition discriminate.
  - reflexivity.
  - discriminate.
  - left. reflexivity.
  - reflexivity.
  - exists st'. repeat split; assumption.
Defined.
